(** * Hang tag generator: a shallow embedding of [server.js]

    The development follows the source file top to bottom.

    - [Num]: JavaScript Numbers, as IEEE 754 binary64 values
      ([spec_float] with 53 bits of precision), with the conversions the
      program uses: decimal text to Number, [Number::toString],
      [Number.prototype.toFixed(2)], [Math.min], [+] and [>].
    - [Str]: the String methods the program calls ([trim], [endsWith],
      [includes], [toUpperCase]).
    - [Regex]: a backtracking matcher for the three regular expressions of
      the program, with [match], global [replace] and [split].
    - [JS]: parsed JSON values, property access, truthiness, [ToString],
      [parseFloat] and [parseInt].
    - [Server]: [generateHangTagPDF] and the [POST /api/generate-tags]
      handler of [server.js].

    PDFKit and JSZip are libraries outside the repository.  A document is
    modelled by the sequence of calls made on it, an archive by its named
    entries.  Of the libraries the model has what the program meets:
    PDFKit opens a font that is not one of its standard fonts as a file,
    converts the argument of [text] to a String, and lays the text out;
    JSZip adds the folders of a name before the entry itself. *)

From Stdlib Require Import ZArith List String Ascii Bool Lia Sorted.
From Stdlib Require Import SpecFloat.
Import ListNotations.

Local Open Scope Z_scope.

(* ===================================================================== *)
(** * JavaScript Numbers *)
(* ===================================================================== *)

Module Num.

(** A Number is a binary64 value: 53 bits of precision, exponent of the
    infinities 1024. *)
Definition prec : Z := 53.
Definition emax : Z := 1024.

Definition number : Type := spec_float.

Definition nan : number := S754_nan.
Definition infinity : number := S754_infinity false.
Definition zero : number := S754_zero false.

(** [pw b a] is [b ^ a] for [a >= 0] and [1] otherwise; it is used to
    compare fractions by cross multiplication. *)
Definition pw (b a : Z) : Z := b ^ Z.max a 0.

(** [round_div neg N D] is the Number nearest to the exact fraction
    [N / D] (ties to even), with sign [neg]; [0 <= N], [0 < D]. *)
Definition round_div (neg : bool) (N D : Z) : number :=
  if N =? 0 then S754_zero neg
  else
    let '(q, e, l) := SFdiv_core_binary prec emax N 0 D 0 in
    binary_round_aux prec emax neg q e l.

(** The Number denoted by the decimal literal [m * 10 ^ e10]. *)
Definition of_dec (m e10 : Z) : number :=
  round_div (m <? 0) (Z.abs m * pw 10 e10) (pw 10 (- e10)).

Definition of_Z (z : Z) : number := of_dec z 0.

(** The exact value of a finite Number [m * 2 ^ e], as a fraction. *)
Definition frac (m : positive) (e : Z) : Z * Z :=
  (Zpos m * pw 2 e, pw 2 (- e)).

Definition is_nan (x : number) : bool :=
  match x with S754_nan => true | _ => false end.

Definition is_zero (x : number) : bool :=
  match x with S754_zero _ => true | _ => false end.

(** The relational operators [<] and [>] on Numbers (false on NaN). *)
Definition ltb (x y : number) : bool := SFltb x y.
Definition gtb (x y : number) : bool := SFltb y x.

(** The [+] operator on Numbers. *)
Definition add (x y : number) : number := SFadd prec emax x y.

(** [Math.min] of two Numbers. *)
Definition min (x y : number) : number :=
  match x, y with
  | S754_nan, _ | _, S754_nan => S754_nan
  | S754_zero sx, S754_zero sy => S754_zero (sx || sy)
  | _, _ => if SFltb y x then y else x
  end.

(** ** Decimal digits *)

Definition digit_char (d : Z) : ascii := ascii_of_nat (48 + Z.to_nat d).

(** The decimal digits of [n >= 0], most significant first, appended to
    [acc]; [fuel] bounds the number of digits. *)
Fixpoint digits_aux (fuel : nat) (n : Z) (acc : string) : string :=
  match fuel with
  | O => acc
  | S f =>
      let acc' := String (digit_char (n mod 10)) acc in
      if n <? 10 then acc' else digits_aux f (n / 10) acc'
  end.

Definition digits (n : Z) : string :=
  digits_aux (S (Z.to_nat (Z.log2 n))) n EmptyString.

Fixpoint zeros (n : nat) : string :=
  match n with
  | O => EmptyString
  | S k => String "0"%char (zeros k)
  end.

(** ** Number::toString

    For a finite positive [x = m * 2 ^ e] the standard asks for integers
    [n], [k], [s] with [10 ^ (k - 1) <= s < 10 ^ k], such that
    [s * 10 ^ (n - k)] converts back to [x], [k] as small as possible and
    [s * 10 ^ (n - k)] as close to [x] as possible. *)

(** Number of decimal digits of [q >= 1]. *)
Fixpoint count_digits (fuel : nat) (q : Z) : Z :=
  match fuel with
  | O => 1
  | S f => if q <? 10 then 1 else 1 + count_digits f (q / 10)
  end.

(** Least [j >= 1] with [N * 10 ^ j >= D], for [0 < N < D]. *)
Fixpoint scale_up (fuel : nat) (N D : Z) : Z :=
  match fuel with
  | O => 1
  | S f => if D <=? N * 10 then 1 else 1 + scale_up f (N * 10) D
  end.

(** The decimal magnitude of [N / D]: the [n] with
    [10 ^ (n - 1) <= N / D < 10 ^ n]. *)
Definition mag10 (N D : Z) : Z :=
  if D <=? N
  then count_digits (S (Z.to_nat (Z.log2 (N / D)))) (N / D)
  else 1 - scale_up (S (Z.to_nat (Z.log2 D))) N D.

(** Compares [s * 10 ^ p] with [c * 2 ^ e]. *)
Definition cmp_scaled (s p c e : Z) : comparison :=
  (s * pw 10 p * pw 2 (- e)) ?= (c * pw 2 e * pw 10 (- p)).

(** Does [s * 10 ^ p] convert back to [m * 2 ^ e]?  The value must lie
    between the midpoints to the two neighbouring Numbers, the midpoints
    themselves being included when [m] is even.  Bounds are counted in
    units of [2 ^ (e - 2)]; the lower neighbour is half as far when [m] is
    the least mantissa of a binade. *)
Definition round_trips (m : positive) (e : Z) (s p : Z) : bool :=
  let below := if (Zpos m =? 2 ^ 52) && (-1074 <? e) then 1 else 2 in
  let lo := cmp_scaled s p (4 * Zpos m - below) (e - 2) in
  let hi := cmp_scaled s p (4 * Zpos m + 2) (e - 2) in
  let tie := Z.even (Zpos m) in
  match lo with Gt => true | Eq => tie | Lt => false end &&
  match hi with Lt => true | Eq => tie | Gt => false end.

(** The candidates with [k] digits: the two multiples of [10 ^ p] around
    [x], [p = n - k].  Returns the chosen [s] when one converts back. *)
Definition candidate (m : positive) (e : Z) (n k : Z) : option Z :=
  let '(N, D) := frac m e in
  let p := n - k in
  let s := (N * pw 10 (- p)) / (D * pw 10 p) in
  let ok1 := round_trips m e s p in
  let ok2 := round_trips m e (s + 1) p in
  match ok1, ok2 with
  | false, false => None
  | true, false => Some s
  | false, true => Some (s + 1)
  | true, true =>
      match cmp_scaled (2 * s + 1) p (2 * Zpos m) e with
      | Gt => Some s
      | Lt => Some (s + 1)
      | Eq => Some (if Z.even s then s else s + 1)
      end
  end.

(** Tries [k], [k + 1], ...; returns [(s, k, n)]. *)
Fixpoint shortest_from (fuel : nat) (m : positive) (e : Z) (n k : Z)
  : Z * Z * Z :=
  match fuel with
  | O => (Zpos m, k, n)
  | S f =>
      match candidate m e n k with
      | Some s => if s =? 10 ^ k then (1, 1, n + 1) else (s, k, n)
      | None => shortest_from f m e n (k + 1)
      end
  end.

Definition shortest (m : positive) (e : Z) : Z * Z * Z :=
  let '(N, D) := frac m e in
  shortest_from 17 m e (mag10 N D) 1.

Definition exponent_part (n : Z) : string :=
  let e := n - 1 in
  String "e"%char
    (String (if e <? 0 then "-"%char else "+"%char) (digits (Z.abs e))).

(** The text for the digits [s] ([k] of them) and the magnitude [n]. *)
Definition format (s k n : Z) : string :=
  let ds := digits s in
  if (k <=? n) && (n <=? 21) then
    append ds (zeros (Z.to_nat (n - k)))
  else if (0 <? n) && (n <=? 21) then
    append (substring 0 (Z.to_nat n) ds)
      (String "."%char (substring (Z.to_nat n) (Z.to_nat (k - n)) ds))
  else if (-6 <? n) && (n <=? 0) then
    append "0."%string (append (zeros (Z.to_nat (- n))) ds)
  else if k =? 1 then
    append ds (exponent_part n)
  else
    append (substring 0 1 ds)
      (String "."%char
         (append (substring 1 (Z.to_nat (k - 1)) ds) (exponent_part n))).

Definition to_string (x : number) : string :=
  match x with
  | S754_nan => "NaN"%string
  | S754_zero _ => "0"%string
  | S754_infinity s => if s then "-Infinity"%string else "Infinity"%string
  | S754_finite sg m e =>
      let '(s, k, n) := shortest m e in
      append (if sg then "-" else "")%string (format s k n)
  end.

(** ** Number.prototype.toFixed(2) *)

(** Is the value [m * 2 ^ e] at least [10 ^ 21]? *)
Definition at_least_1e21 (m : positive) (e : Z) : bool :=
  let '(N, D) := frac m e in 10 ^ 21 * D <=? N.

(** The integer [n] for which [n / 100] is closest to [m * 2 ^ e], the
    larger one of two. *)
Definition hundredths (m : positive) (e : Z) : Z :=
  let '(N, D) := frac m e in (200 * N + D) / (2 * D).

(** [n] with at least three digits, and a point before the last two. *)
Definition two_decimals (n : Z) : string :=
  let ds := digits n in
  let k := String.length ds in
  let ds := append (zeros (3 - k)) ds in
  let k := String.length ds in
  append (substring 0 (k - 2) ds) (String "."%char (substring (k - 2) 2 ds)).

Definition toFixed2 (x : number) : string :=
  match x with
  | S754_nan | S754_infinity _ => to_string x
  | S754_zero _ => two_decimals 0
  | S754_finite sg m e =>
      append (if sg then "-" else "")%string
        (if at_least_1e21 m e
         then to_string (S754_finite false m e)
         else two_decimals (hundredths m e))
  end.

End Num.

(* ===================================================================== *)
(** * JavaScript Strings *)
(* ===================================================================== *)

(** A String is a sequence of code units; the model keeps the code units
    below 256, one [ascii] each. *)

Module Str.

Local Open Scope nat_scope.

Definition code (c : ascii) : nat := nat_of_ascii c.

(** Line terminators (LF, CR) and white space (TAB, VT, FF, SP, NBSP). *)
Definition is_line_terminator (c : ascii) : bool :=
  (code c =? 10) || (code c =? 13).

Definition is_white_space (c : ascii) : bool :=
  (code c =? 9) || (code c =? 11) || (code c =? 12) || (code c =? 32)
  || (code c =? 160).

(** The characters [trim] removes and [\s] matches. *)
Definition is_space (c : ascii) : bool :=
  is_white_space c || is_line_terminator c.

Definition is_digit (c : ascii) : bool := (48 <=? code c) && (code c <=? 57).

(** The canonical form of a character under the i flag, as far as the
    comparison with an ASCII character goes: an ASCII letter is mapped to
    its capital, and no other character is mapped to an ASCII one. *)
Definition upper (c : ascii) : ascii :=
  if (97 <=? code c) && (code c <=? 122) then ascii_of_nat (code c - 32)
  else c.

(** Equality of two characters up to the case of ASCII letters. *)
Definition eqb_ci (c d : ascii) : bool := Ascii.eqb (upper c) (upper d).

(** [String.prototype.toUpperCase], on code units below 256.  Besides the
    ASCII letters, the letters from 224 to 254 (but the division sign, 247)
    lose 32; the sharp s (223) becomes two letters S; the micro sign (181)
    and the y with diaeresis (255) become the code units 924 and 376, which
    an [ascii] cannot hold: the result is a list of code units. *)
Definition upper_units (c : ascii) : list nat :=
  let n := code c in
  if (97 <=? n) && (n <=? 122) then [n - 32]
  else if n =? 181 then [924]
  else if n =? 223 then [83; 83]
  else if (224 <=? n) && (n <=? 254) && negb (n =? 247) then [n - 32]
  else if n =? 255 then [376]
  else [n].

Fixpoint toUpperCase (s : string) : list nat :=
  match s with
  | EmptyString => []
  | String c r => (upper_units c ++ toUpperCase r)%list
  end.

Fixpoint trimStart (s : string) : string :=
  match s with
  | String c r => if is_space c then trimStart r else s
  | EmptyString => EmptyString
  end.

(** Removes trailing space: a character is kept when it is not a space or
    when something is kept after it. *)
Fixpoint trimEnd (s : string) : string :=
  match s with
  | EmptyString => EmptyString
  | String c r =>
      match trimEnd r with
      | EmptyString => if is_space c then EmptyString else String c EmptyString
      | r' => String c r'
      end
  end.

(** [String.prototype.trim]. *)
Definition trim (s : string) : string := trimEnd (trimStart s).

(** [s.startsWith(p)]. *)
Fixpoint startsWith (s p : string) {struct p} : bool :=
  match p, s with
  | EmptyString, _ => true
  | String a p', String b s' => Ascii.eqb a b && startsWith s' p'
  | String _ _, EmptyString => false
  end.

(** [startsWith] up to the case of ASCII letters. *)
Fixpoint startsWith_ci (s p : string) {struct p} : bool :=
  match p, s with
  | EmptyString, _ => true
  | String a p', String b s' => eqb_ci b a && startsWith_ci s' p'
  | String _ _, EmptyString => false
  end.

(** [p] occurs somewhere in [s], up to the case of ASCII letters. *)
Fixpoint includes_ci (s p : string) : bool :=
  startsWith_ci s p ||
  match s with
  | EmptyString => false
  | String _ r => includes_ci r p
  end.

(** [String.prototype.includes]: [sub] occurs somewhere in [s]. *)
Fixpoint includes (s sub : string) : bool :=
  startsWith s sub ||
  match s with
  | EmptyString => false
  | String _ r => includes r sub
  end.

(** [String.prototype.endsWith]. *)
Definition endsWith (s suf : string) : bool :=
  let n := String.length s in
  let k := String.length suf in
  (k <=? n) && String.eqb (substring (n - k) k s) suf.

(** The first [String.length s - String.length rest] characters of [s]:
    the text consumed between [s] and its suffix [rest]. *)
Definition consumed (s rest : string) : string :=
  substring 0 (String.length s - String.length rest) s.

End Str.

(* ===================================================================== *)
(** * Regular expressions *)
(* ===================================================================== *)

Module Regex.

(** The patterns of [server.js] apply [*], [*?] and [+] only to a
    character class, and have at most one capturing group. *)
Inductive regex : Type :=
| Lit (c : ascii)                 (* a character, compared under the i flag *)
| Class (p : ascii -> bool)       (* [...], \s, . *)
| Cat (r1 r2 : regex)             (* r1 r2 *)
| Alt (r1 r2 : regex)             (* r1 | r2 *)
| Star (p : ascii -> bool)        (* c*  greedy *)
| LazyStar (p : ascii -> bool)    (* c*? lazy *)
| Opt (r : regex)                 (* r?  greedy *)
| Group (r : regex)               (* ( r ) capturing *)
| Eos.                            (* $ without the m flag *)

(** [\s], [.] and [c+]. *)
Definition space : regex := Class Str.is_space.
Definition dot (c : ascii) : bool := negb (Str.is_line_terminator c).
Definition Plus (p : ascii -> bool) : regex := Cat (Class p) (Star p).

(** A literal word, character by character. *)
Fixpoint word (s : string) (rest : regex) : regex :=
  match s with
  | EmptyString => rest
  | String c s' => Cat (Lit c) (word s' rest)
  end.

Section Matcher.

Context {A : Type}.

(** Greedy: as many characters as possible first, then fewer. *)
Fixpoint star_greedy (p : ascii -> bool) (s : string)
    (k : string -> option A) : option A :=
  match s with
  | String c r =>
      if p c then
        match star_greedy p r k with
        | Some x => Some x
        | None => k s
        end
      else k s
  | EmptyString => k s
  end.

(** Lazy: as few characters as possible first, then more. *)
Fixpoint star_lazy (p : ascii -> bool) (s : string)
    (k : string -> option A) : option A :=
  match k s with
  | Some x => Some x
  | None =>
      match s with
      | String c r => if p c then star_lazy p r k else None
      | EmptyString => None
      end
  end.

(** [run r s cap k]: match [r] at the head of [s], then continue with [k]
    on the rest of the input and the capture; alternatives are tried in
    order and the first success is returned. *)
Fixpoint run (r : regex) (s : string) (cap : option string)
    (k : string -> option string -> option A) : option A :=
  match r with
  | Lit c =>
      match s with
      | String d s' => if Str.eqb_ci d c then k s' cap else None
      | EmptyString => None
      end
  | Class p =>
      match s with
      | String d s' => if p d then k s' cap else None
      | EmptyString => None
      end
  | Cat r1 r2 => run r1 s cap (fun s1 c1 => run r2 s1 c1 k)
  | Alt r1 r2 =>
      match run r1 s cap k with
      | Some x => Some x
      | None => run r2 s cap k
      end
  | Star p => star_greedy p s (fun s' => k s' cap)
  | LazyStar p => star_lazy p s (fun s' => k s' cap)
  | Opt r1 =>
      match run r1 s cap k with
      | Some x => Some x
      | None => k s cap
      end
  | Group r1 => run r1 s cap (fun s' _ => k s' (Some (Str.consumed s s')))
  | Eos =>
      match s with
      | EmptyString => k s cap
      | String _ _ => None
      end
  end.

End Matcher.

(** A match at the head of [s]: the rest of the input and the capture. *)
Definition match_here (r : regex) (s : string)
  : option (string * option string) :=
  run r s None (fun s' cap => Some (s', cap)).

(** [String.prototype.match] with a pattern without the g flag: the first
    position of [s] where the pattern matches; returns the capture. *)
Fixpoint exec (r : regex) (s : string) : option (option string) :=
  match match_here r s with
  | Some (_, cap) => Some cap
  | None =>
      match s with
      | String _ s' => exec r s'
      | EmptyString => None
      end
  end.

(** [s.replace(r, '')] with the g flag: every match, leftmost first, is
    removed.  [skip] counts the characters of the current match still to
    be dropped. *)
Fixpoint remove_from (r : regex) (skip : nat) (s : string) : string :=
  match s with
  | EmptyString => EmptyString
  | String c s' =>
      match skip with
      | S n => remove_from r n s'
      | O =>
          match match_here r s with
          | Some (rest, _) =>
              match (String.length s - String.length rest)%nat with
              | O => String c (remove_from r O s')
              | S n => remove_from r n s'
              end
          | None => String c (remove_from r O s')
          end
      end
  end.

Definition remove_all (r : regex) (s : string) : string := remove_from r O s.

(** [s.split(r)] for a pattern without capturing group.  [acc] is the
    piece being read (the text since the end of the last separator),
    [skip] the characters of the current separator still to be dropped. *)
Fixpoint split_from (r : regex) (skip : nat) (acc : string) (s : string)
  : list string :=
  match s with
  | EmptyString => [acc]
  | String c s' =>
      match skip with
      | S n => split_from r n acc s'
      | O =>
          match match_here r s with
          | Some (rest, _) =>
              match (String.length s - String.length rest)%nat with
              | O =>
                  match acc with
                  | EmptyString => split_from r O (String c EmptyString) s'
                  | _ => acc :: split_from r O (String c EmptyString) s'
                  end
              | S n => acc :: split_from r n EmptyString s'
              end
          | None => split_from r O (append acc (String c EmptyString)) s'
          end
      end
  end.

Definition split (r : regex) (s : string) : list string :=
  match s with
  | EmptyString =>
      match match_here r s with
      | Some _ => []
      | None => [s]
      end
  | _ => split_from r O EmptyString s
  end.

End Regex.

(* ===================================================================== *)
(** * JavaScript values *)
(* ===================================================================== *)

Module JS.

Import Num.

(** What [express.json()] hands to the handler: parsed JSON, and
    [undefined] for what is not there.  An object is the list of its own
    properties; a name is looked up from the head of the list. *)
#[local] Set Warnings "-register-all".
Inductive value : Type :=
| VUndefined
| VNull
| VBool (b : bool)
| VNum (n : number)
| VStr (s : string)
| VArr (elems : list value)
| VObj (props : list (string * value)).

(** No value of the program is callable: the exceptions of the code itself
    are [TypeError]s.  The libraries throw plain [Error]s as well. *)
Inductive exn : Type :=
| TypeError
| Error (message : string).

Inductive result (A : Type) : Type :=
| Ok (a : A)
| Throw (e : exn).

Arguments Ok {A} a.
Arguments Throw {A} e.

Definition bind {A B : Type} (r : result A) (f : A -> result B) : result B :=
  match r with
  | Ok a => f a
  | Throw e => Throw e
  end.

Notation "x <- r ;; k" := (bind r (fun x => k))
  (at level 61, r at next level, right associativity).

(** ToBoolean. *)
Definition truthy (v : value) : bool :=
  match v with
  | VUndefined | VNull => false
  | VBool b => b
  | VNum n => negb (is_zero n || is_nan n)
  | VStr s => negb (String.eqb s EmptyString)
  | VArr _ | VObj _ => true
  end.

(** [a || b]: [b] is evaluated only when [a] is falsy. *)
Definition or_else (a b : result value) : result value :=
  match a with
  | Ok v => if truthy v then Ok v else b
  | Throw e => Throw e
  end.

Fixpoint lookup (k : string) (props : list (string * value)) : value :=
  match props with
  | [] => VUndefined
  | (k', v) :: rest => if String.eqb k' k then v else lookup k rest
  end.

Definition has_own (k : string) (props : list (string * value)) : bool :=
  existsb (fun kv => String.eqb (fst kv) k) props.

(** [v.k] and [v['k']], for the property names [server.js] reads: none of
    them is an array index, [length], or a member of a built-in prototype,
    so only an object can hold one. *)
Definition get (v : value) (k : string) : result value :=
  match v with
  | VUndefined | VNull => Throw TypeError
  | VObj props => Ok (lookup k props)
  | _ => Ok VUndefined
  end.

(** ToString.  An array joins its elements with commas, [null] elements
    giving nothing; an object prints as [[object Object]] unless it has an
    own [toString] property, which cannot be called. *)
Fixpoint to_string (v : value) : result string :=
  match v with
  | VUndefined => Ok "undefined"%string
  | VNull => Ok "null"%string
  | VBool b => Ok (if b then "true" else "false")%string
  | VNum n => Ok (Num.to_string n)
  | VStr s => Ok s
  | VArr elems =>
      (fix join (l : list value) : result string :=
         match l with
         | [] => Ok EmptyString
         | x :: rest =>
             s <- match x with
                  | VUndefined | VNull => Ok EmptyString
                  | _ => to_string x
                  end ;;
             match rest with
             | [] => Ok s
             | _ => t <- join rest ;; Ok (append s (String ","%char t))
             end
         end) elems
  | VObj props =>
      if has_own "toString" props then Throw TypeError
      else Ok "[object Object]"%string
  end.

(** ** Numeric literals in strings *)

Definition digit_value (c : ascii) : Z := Z.of_nat (Str.code c) - 48.

(** Reads decimal digits: the value read so far, the number of digits
    read, and the rest of the input. *)
Fixpoint read_digits (s : string) (acc cnt : Z) : Z * Z * string :=
  match s with
  | String c r =>
      if Str.is_digit c then read_digits r (acc * 10 + digit_value c) (cnt + 1)
      else (acc, cnt, s)
  | EmptyString => (acc, cnt, s)
  end.

Definition read_sign (s : string) : bool * string :=
  match s with
  | String "-"%char r => (true, r)
  | String "+"%char r => (false, r)
  | _ => (false, s)
  end.

(** The exponent part [e], sign, digits, when it is complete; 0 otherwise. *)
Definition read_exponent (s : string) : Z :=
  match s with
  | String c r =>
      if Str.eqb_ci c "e"%char then
        let '(neg, r1) := read_sign r in
        let '(ev, ec, _) := read_digits r1 0 0 in
        if ec =? 0 then 0 else if neg then - ev else ev
      else 0
  | EmptyString => 0
  end.

(** [parseFloat] on a String: leading space is skipped, and the longest
    prefix that is a decimal literal is converted; [NaN] without one. *)
Definition parse_float (s : string) : number :=
  let '(neg, t) := read_sign (Str.trimStart s) in
  if Str.startsWith t "Infinity" then S754_infinity neg
  else
    let '(ip, ic, r1) := read_digits t 0 0 in
    let '(mant, fc, r2) :=
      match r1 with
      | String "."%char r => read_digits r ip 0
      | _ => (ip, 0, r1)
      end in
    if (ic =? 0) && (fc =? 0) then nan
    else
      let ex := read_exponent r2 - fc in
      round_div neg (mant * pw 10 ex) (pw 10 (- ex)).

Definition hex_value (c : ascii) : option Z :=
  let n := Z.of_nat (Str.code c) in
  if (48 <=? n) && (n <=? 57) then Some (n - 48)
  else if (97 <=? n) && (n <=? 102) then Some (n - 87)
  else if (65 <=? n) && (n <=? 70) then Some (n - 55)
  else None.

Fixpoint read_hex (s : string) (acc cnt : Z) : Z * Z :=
  match s with
  | String c r =>
      match hex_value c with
      | Some d => read_hex r (acc * 16 + d) (cnt + 1)
      | None => (acc, cnt)
      end
  | EmptyString => (acc, cnt)
  end.

(** [parseInt] on a String, without a radix: leading space and a sign are
    skipped, [0x] selects radix 16, and the leading digits are converted;
    [NaN] without any. *)
Definition parse_int (s : string) : number :=
  let '(neg, t) := read_sign (Str.trimStart s) in
  let '(n, cnt) :=
    match t with
    | String "0"%char (String x r) =>
        if Str.eqb_ci x "x"%char then read_hex r 0 0
        else let '(n, cnt, _) := read_digits t 0 0 in (n, cnt)
    | _ => let '(n, cnt, _) := read_digits t 0 0 in (n, cnt)
    end in
  if cnt =? 0 then nan else round_div neg n 1.

(** [parseFloat(v)] and [parseInt(v)] convert their argument with ToString
    first. *)
Definition parseFloat (v : value) : result number :=
  s <- to_string v ;; Ok (parse_float s).

Definition parseInt (v : value) : result number :=
  s <- to_string v ;; Ok (parse_int s).

(** [n || d] on Numbers. *)
Definition num_or (n d : number) : number :=
  if truthy (VNum n) then n else d.

(** ** Method calls *)

(** [recv?.includes(arg)]: [undefined] on [null] and [undefined];
    Strings and arrays have the method, nothing else does. *)
Definition includes_opt (recv : value) (arg : string) : result value :=
  match recv with
  | VUndefined | VNull => Ok VUndefined
  | VStr s => Ok (VBool (Str.includes s arg))
  | VArr elems =>
      Ok (VBool (existsb (fun v => match v with
                                   | VStr t => String.eqb t arg
                                   | _ => false
                                   end) elems))
  | _ => Throw TypeError
  end.

(** [recv?.endsWith(arg)]: only Strings have the method. *)
Definition endsWith_opt (recv : value) (arg : string) : result value :=
  match recv with
  | VUndefined | VNull => Ok VUndefined
  | VStr s => Ok (VBool (Str.endsWith s arg))
  | _ => Throw TypeError
  end.

(** [recv.toUpperCase()]. *)
Definition toUpperCase (recv : value) : result (list nat) :=
  match recv with
  | VStr s => Ok (Str.toUpperCase s)
  | _ => Throw TypeError
  end.

(** [recv.match(r)]: [None] for [null], otherwise the capture. *)
Definition match_ (recv : value) (r : Regex.regex)
  : result (option (option string)) :=
  match recv with
  | VStr s => Ok (Regex.exec r s)
  | _ => Throw TypeError
  end.

End JS.

(* ===================================================================== *)
(** * server.js *)
(* ===================================================================== *)

Module Server.

Import Num JS.

Local Open Scope string_scope.

(** ** The PDF document

    A document is the sequence of PDFKit calls made on it, in order. *)

Record text_options : Type := {
  width : option number;
  align : option string;
  lineGap : option number;
  strike : bool
}.

Definition at_position : text_options :=
  {| width := None; align := None; lineGap := None; strike := false |}.

Definition boxed (w : Z) (a : string) : text_options :=
  {| width := Some (of_Z w); align := Some a; lineGap := None;
     strike := false |}.

Inductive call : Type :=
| rect (x y w h : number)
| fillAndStroke (fill strokeColor : string)
| stroke (color : string)
| fontSize (size : number)
| font (name : string)
| fillColor (color : string)
| text (t : value) (x y : number) (options : text_options)
  (* the upper-cased vendor, a String given by its code units *)
| text_units (units : list nat) (x y : number) (options : text_options)
  (* the text of a bullet line: a bullet, a space, and [item] *)
| text_bullet (item : string) (x y : number) (options : text_options).

Definition document : Type := list call.

(** ** PDFKit

    [rect], [fillAndStroke], [stroke], [fontSize] and [fillColor] record
    their arguments and return. *)
Definition emit (c : call) (doc : document) : result document :=
  Ok (doc ++ [c])%list.

(** [font(name)]: a name that is not one of the fourteen standard fonts
    (and no font is registered) is opened as a file with
    [fs.readFileSync], which throws where there is no such file; the
    repository has none. *)
Definition standard_fonts : list string :=
  ["Courier"; "Courier-Bold"; "Courier-Oblique"; "Courier-BoldOblique";
   "Helvetica"; "Helvetica-Bold"; "Helvetica-Oblique";
   "Helvetica-BoldOblique"; "Times-Roman"; "Times-Bold"; "Times-Italic";
   "Times-BoldItalic"; "Symbol"; "ZapfDingbats"].

Definition is_standard_font (name : string) : bool :=
  existsb (String.eqb name) standard_fonts.

Definition enoent (path : string) : exn :=
  Error ("ENOENT: no such file or directory, open '" ++ path ++ "'").

Definition set_font (name : string) (doc : document) : result document :=
  if is_standard_font name then Ok (doc ++ [font name])%list
  else Throw (enoent name).

(** [text(t, x, y, options)] converts [t] to a String first.  At the sizes
    and heights written in the source every String is laid out. *)
Definition draw_text (t : value) (x y : number) (options : text_options)
    (doc : document) : result document :=
  _ <- to_string t ;;
  Ok (doc ++ [text t x y options])%list.

(** The title and the price are drawn at a size that comes from the
    request, the MSRP line at a height that depends on it.  PDFKit writes
    every number through a function that throws outside the open interval
    from -1e21 to 1e21, and the numbers it writes for a text come from its
    font metrics and its line breaking.  Whether these three calls return
    is the library's matter: [layout doc c] is the exception PDFKit throws
    on the call [c] made after the calls [doc], if any.  The development
    holds for every such library. *)
Class PDFKit : Type := layout : document -> call -> option exn.

Definition lay_out {L : PDFKit} (t : value) (x y : number)
    (options : text_options) (doc : document) : result document :=
  _ <- to_string t ;;
  match layout doc (text t x y options) with
  | Some e => Throw e
  | None => Ok (doc ++ [text t x y options])%list
  end.

(** ** Extract product data (lines 83-98) *)

Definition not_gt (c : ascii) : bool := negb (Ascii.eqb c ">").
Definition comma_or_semicolon (c : ascii) : bool :=
  Ascii.eqb c "," || Ascii.eqb c ";".

(** [<\/?[^>]*>] *)
Definition re_any_tag : Regex.regex :=
  Regex.Cat (Regex.Lit "<")
    (Regex.Cat (Regex.Opt (Regex.Lit "/"))
       (Regex.Cat (Regex.Star not_gt) (Regex.Lit ">"))).

(** [/INCLUDES\s*:\s*(.*?)(?:<\/?[^>]*>|$)/i] *)
Definition re_includes : Regex.regex :=
  Regex.word "INCLUDES"
    (Regex.Cat (Regex.Star Str.is_space)
       (Regex.Cat (Regex.Lit ":")
          (Regex.Cat (Regex.Star Str.is_space)
             (Regex.Cat (Regex.Group (Regex.LazyStar Regex.dot))
                (Regex.Alt re_any_tag Regex.Eos))))).

(** [/<[^>]*>/g] *)
Definition re_tag : Regex.regex :=
  Regex.Cat (Regex.Lit "<") (Regex.Cat (Regex.Star not_gt) (Regex.Lit ">")).

(** [/[,;]|and\s+/i] *)
Definition re_separator : Regex.regex :=
  Regex.Alt (Regex.Class comma_or_semicolon)
    (Regex.word "and" (Regex.Plus Str.is_space)).

Record fields : Type := {
  isRecon : value;
  price : number;
  comparePrice : number;
  title : value;
  vendor : value;
  sku : value;
  includesText : string
}.

(** [includesMatch ? includesMatch[1].replace(/<[^>]*>/g, '').trim() : '']
    The group takes part in every match of the pattern. *)
Definition includes_text (includesMatch : option (option string)) : string :=
  match includesMatch with
  | Some (Some captured) => Str.trim (Regex.remove_all re_tag captured)
  | _ => ""
  end.

(** The right-hand sides of lines 84-96, one definition per constant. *)

Definition isRecon_of (product : value) : result value :=
  or_else
    (or_else
       (or_else
          (tags <- get product "tags" ;; includes_opt tags "Recon")
          (tags <- get product "tags" ;; includes_opt tags "recon"))
       (s <- get product "sku" ;; endsWith_opt s "-R"))
    (s <- get product "Variant SKU" ;; endsWith_opt s "-R").

Definition price_of (product : value) : result number :=
  v <- or_else (or_else (get product "price") (get product "Variant Price"))
         (Ok (VNum zero)) ;;
  parseFloat v.

Definition comparePrice_of (product : value) : result number :=
  v <- or_else (or_else (get product "compare_at_price")
                  (get product "Variant Compare At Price"))
         (Ok (VNum zero)) ;;
  parseFloat v.

Definition title_of (product : value) : result value :=
  or_else (or_else (get product "title") (get product "Title"))
    (Ok (VStr "Product")).

Definition vendor_of (product : value) : result value :=
  or_else (or_else (get product "vendor") (get product "Vendor"))
    (Ok (VStr "Brand")).

Definition sku_of (product : value) : result value :=
  or_else (or_else (get product "sku") (get product "Variant SKU"))
    (Ok (VStr "")).

Definition bodyHtml_of (product : value) : result value :=
  or_else (or_else (get product "body_html") (get product "Body (HTML)"))
    (Ok (VStr "")).

Definition extract (product : value) : result fields :=
  isRecon <- isRecon_of product ;;
  price <- price_of product ;;
  comparePrice <- comparePrice_of product ;;
  title <- title_of product ;;
  vendor <- vendor_of product ;;
  sku <- sku_of product ;;
  bodyHtml <- bodyHtml_of product ;;
  includesMatch <- match_ bodyHtml re_includes ;;
  Ok {| isRecon := isRecon; price := price; comparePrice := comparePrice;
        title := title; vendor := vendor; sku := sku;
        includesText := includes_text includesMatch |}.

(** ** Drawing (lines 100-197)

    Each part takes the calls made so far and returns them with its own,
    or the exception that ended the drawing. *)

(** The default value [options = {}] of a parameter. *)
Definition or_empty (options : value) : value :=
  match options with
  | VUndefined => VObj []
  | _ => options
  end.

(** [parseInt(options.name) || dflt] *)
Definition size_option (options : value) (name : string) (dflt : Z)
  : result number :=
  v <- get options name ;;
  n <- parseInt v ;;
  Ok (num_or n (of_Z dflt)).

(** Vendor logo area and model number (lines 100-113). *)
Definition draw_head (f : fields) (doc : document) : result document :=
  doc <- emit (rect (of_Z 8) (of_Z 15) (of_Z 60) (of_Z 20)) doc ;;
  doc <- emit (fillAndStroke "#e53e3e" "#e53e3e") doc ;;
  doc <- emit (fontSize (of_Z 8)) doc ;;
  doc <- set_font "Helvetica-Bold" doc ;;
  doc <- emit (fillColor "white") doc ;;
  vendorUpper <- toUpperCase (vendor f) ;;
  doc <- emit (text_units vendorUpper (of_Z 12) (of_Z 22) (boxed 52 "center"))
           doc ;;
  doc <- emit (fontSize (of_Z 10)) doc ;;
  doc <- emit (fillColor "black") doc ;;
  doc <- set_font "Helvetica-Bold" doc ;;
  model <- to_string (sku f) ;;
  draw_text (VStr ("Model " ++ model)) (of_Z 100) (of_Z 20) (boxed 86 "right")
    doc.

(** Product title and image area (lines 115-133). *)
Definition draw_title {L : PDFKit} (f : fields) (options : value)
    (doc : document) : result document :=
  titleSize <- size_option options "titleSize" 11 ;;
  doc <- emit (fontSize titleSize) doc ;;
  doc <- set_font "Helvetica-Bold" doc ;;
  doc <- emit (fillColor "black") doc ;;
  doc <- lay_out (title f) (of_Z 12) (of_Z 45)
           {| width := Some (of_Z 170); align := Some "center";
              lineGap := Some (of_Z 1); strike := false |} doc ;;
  let imageY := of_Z 85 in
  doc <- emit (rect (of_Z 25) imageY (of_Z 144) (of_Z 80)) doc ;;
  doc <- emit (stroke "#cccccc") doc ;;
  doc <- emit (fontSize (of_Z 8)) doc ;;
  doc <- emit (fillColor "#999999") doc ;;
  draw_text (VStr "Product Image") (of_Z 25) (add imageY (of_Z 36))
    (boxed 144 "center") doc.

(** Parse includes items (lines 146-149). *)
Definition includeItems (includesText : string) : list string :=
  firstn 4
    (filter (fun item => negb (String.length item =? 0)%nat)
       (map Str.trim (Regex.split re_separator includesText))).

(** [includeItems.forEach]: one bullet line per item, 9 units apart;
    returns the calls and the final [currentY]. *)
Fixpoint draw_items (items : list string) (currentY : number)
    (doc : document) : document * number :=
  match items with
  | [] => (doc, currentY)
  | item :: rest =>
      draw_items rest (add currentY (of_Z 9))
        (doc ++ [text_bullet item (of_Z 12) currentY
                   {| width := Some (of_Z 170); align := None;
                      lineGap := None; strike := false |}])%list
  end.

(** Includes section (lines 136-160); returns the calls and [currentY]. *)
Definition draw_includes (includesText : string) (currentY : number)
    (doc : document) : result (document * number) :=
  if negb (String.eqb includesText "") then
    doc <- emit (fontSize (of_Z 8)) doc ;;
    doc <- set_font "Helvetica-Bold-Oblique" doc ;;
    doc <- emit (fillColor "black") doc ;;
    doc <- draw_text (VStr "INCLUDES:") (of_Z 12) currentY at_position doc ;;
    let currentY := add currentY (of_Z 12) in
    let items := includeItems includesText in
    doc <- emit (fontSize (of_Z 7)) doc ;;
    doc <- set_font "Helvetica" doc ;;
    let '(doc, currentY) := draw_items items currentY doc in
    Ok (doc, add currentY (of_Z 5))
  else Ok (doc, currentY).

(** Price (lines 162-171); returns the calls and [currentY]. *)
Definition draw_price {L : PDFKit} (f : fields) (options : value)
    (currentY : number) (doc : document) : result (document * number) :=
  priceSize <- size_option options "priceSize" 24 ;;
  let scaledPriceSize := Num.min priceSize (of_Z 28) in
  doc <- emit (fontSize scaledPriceSize) doc ;;
  doc <- set_font "Helvetica-Bold" doc ;;
  doc <- emit (fillColor "black") doc ;;
  doc <- lay_out (VStr ("$" ++ toFixed2 (price f))) (of_Z 30) currentY
           (boxed 134 "center") doc ;;
  Ok (doc, add currentY (add scaledPriceSize (of_Z 2))).

(** MSRP if applicable (lines 174-183). *)
Definition draw_msrp {L : PDFKit} (price comparePrice currentY : number)
    (doc : document) : result document :=
  if gtb comparePrice price && gtb comparePrice zero then
    doc <- emit (fontSize (of_Z 10)) doc ;;
    doc <- set_font "Helvetica-Oblique" doc ;;
    doc <- emit (fillColor "#666666") doc ;;
    lay_out (VStr ("MSRP $" ++ toFixed2 comparePrice)) (of_Z 30) currentY
      {| width := Some (of_Z 134); align := Some "center"; lineGap := None;
         strike := true |} doc
  else Ok doc.

(** Reconditioned bar (lines 186-195). *)
Definition draw_recon (isRecon sku : value) (doc : document)
  : result document :=
  if truthy isRecon then
    doc <- emit (rect (of_Z 0) (of_Z 240) (of_dec 1944 (-1))
                   (of_dec 228 (-1))) doc ;;
    doc <- emit (fillAndStroke "#3182ce" "#3182ce") doc ;;
    doc <- emit (fontSize (of_Z 8)) doc ;;
    doc <- set_font "Helvetica-Bold" doc ;;
    doc <- emit (fillColor "white") doc ;;
    doc <- draw_text (VStr "Factory Reconditioned Tool") (of_Z 8) (of_Z 248)
             at_position doc ;;
    draw_text sku (of_Z 130) (of_Z 248) at_position doc
  else Ok doc.

Definition generateHangTagPDF {L : PDFKit} (product options : value)
  : result document :=
  let options := or_empty options in
  f <- extract product ;;
  doc <- draw_head f [] ;;
  doc <- draw_title f options doc ;;
  dy <- draw_includes (includesText f) (of_Z 175) doc ;;
  dy <- draw_price f options (snd dy) (fst dy) ;;
  doc <- draw_msrp (price f) (comparePrice f) (snd dy) (fst dy) ;;
  draw_recon (isRecon f) (sku f) doc.

(** ** The archive

    JSZip keeps the entries by name, in the order in which the names were
    first set: a new name is added after the others, a name already there
    gets the new content in its place.  With the default [createFolders]
    the folders of a name are added before the entry itself. *)

Inductive entry : Type :=
| pdf_file (data : document)
| folder.

Definition archive : Type := list (string * entry).

(** [this.files[name] = object] *)
Fixpoint put (name : string) (e : entry) (zip : archive) : archive :=
  match zip with
  | [] => [(name, e)]
  | (n, x) :: rest =>
      if String.eqb n name then (name, e) :: rest
      else (n, x) :: put name e rest
  end.

(** [this.files[name]] is there. *)
Definition has (name : string) (zip : archive) : bool :=
  existsb (fun ne => String.eqb (fst ne) name) zip.

Definition ends_with_slash (path : string) : bool := Str.endsWith path "/".

Definition forceTrailingSlash (path : string) : string :=
  if ends_with_slash path then path else path ++ "/".

(** [path.lastIndexOf(c)] *)
Fixpoint lastIndexOf (c : ascii) (path : string) : option nat :=
  match path with
  | EmptyString => None
  | String d r =>
      match lastIndexOf c r with
      | Some i => Some (S i)
      | None => if Ascii.eqb d c then Some O else None
      end
  end.

(** The path up to its last slash, a slash at the end or at the start
    apart; empty when there is none. *)
Definition parentFolder (path : string) : string :=
  let path :=
    if ends_with_slash path
    then substring 0 (String.length path - 1) path
    else path in
  match lastIndexOf "/" path with
  | Some (S i) => substring 0 (S i) path
  | _ => ""
  end.

(** [folderAdd(name, true)]: nothing when the folder is there, otherwise
    its own parent first and then the folder.  A parent is shorter than
    its path; [fuel] bounds the depth. *)
Fixpoint folderAdd (fuel : nat) (name : string) (zip : archive) : archive :=
  let name := forceTrailingSlash name in
  if has name zip then zip
  else
    let parent := parentFolder name in
    let zip :=
      match fuel with
      | S fuel' =>
          if negb (String.eqb parent "") then folderAdd fuel' parent zip
          else zip
      | O => zip
      end in
    put name folder zip.

(** [zip.file(name, data)] *)
Definition file (name : string) (data : document) (zip : archive) : archive :=
  let parent := parentFolder name in
  let zip :=
    if negb (String.eqb parent "")
    then folderAdd (String.length name) parent zip
    else zip in
  put name (pdf_file data) zip.

(** ** POST /api/generate-tags (lines 28-65) *)

(** What the handler writes to the console. *)
Inductive line : Type :=
| log_generating (count : nat)
| log_processing (position count : nat) (id : string)
| error_generating_pdf (sku : string) (pdfError : exn)
| log_success
| error_generating_tags (error : exn).

Inductive response : Type :=
| status_400
| status_500 (error : exn)
| send_zip (zip : archive).

(** [product-${i + 1}] *)
Definition synthesized (i : nat) : string :=
  "product-" ++ Num.to_string (of_Z (Z.of_nat i + 1)).

(** Line 46. *)
Definition filename (product : value) (i : nat) : result string :=
  v <- or_else (or_else (get product "sku") (get product "handle"))
         (Ok (VStr (synthesized i))) ;;
  s <- to_string v ;;
  Ok (s ++ "-hangtag.pdf").

(** The body of the inner [try] (lines 45-47). *)
Definition try_product {L : PDFKit} (product options : value) (i : nat)
    (zip : archive) : result archive :=
  pdfBuffer <- generateHangTagPDF product options ;;
  name <- filename product i ;;
  Ok (file name pdfBuffer zip).

(** The [for] loop (lines 40-52), from index [i]; [count] is
    [products.length].  An exception outside the inner [try] ends it. *)
Fixpoint process {L : PDFKit} (products : list value) (options : value)
    (i count : nat) (zip : archive) (console : list line)
  : list line * result archive :=
  match products with
  | [] => (console, Ok zip)
  | product :: rest =>
      match v <- or_else (get product "sku") (get product "handle") ;;
            to_string v with
      | Throw e => (console, Throw e)
      | Ok id =>
          let console := (console ++ [log_processing (S i) count id])%list in
          match try_product product options i zip with
          | Ok zip' => process rest options (S i) count zip' console
          | Throw pdfError =>
              match v <- get product "sku" ;; to_string v with
              | Throw e => (console, Throw e)
              | Ok s =>
                  process rest options (S i) count zip
                    (console ++ [error_generating_pdf s pdfError])%list
              end
          end
      end
  end.

Definition handler {L : PDFKit} (body : value) : list line * response :=
  match products <- get body "products" ;;
        options <- get body "options" ;;
        Ok (products, options) with
  | Throw e => ([error_generating_tags e], status_500 e)
  | Ok (products, options) =>
      let options := or_empty options in
      match products with
      | VArr items =>
          let count := List.length items in
          match process items options 0 count [] [log_generating count] with
          | (console, Ok zip) => ((console ++ [log_success])%list, send_zip zip)
          | (console, Throw e) =>
              ((console ++ [error_generating_tags e])%list, status_500 e)
          end
      | _ => ([], status_400)
      end
  end.

End Server.
(* ===================================================================== *)
(** * Notions used in the statements *)
(* ===================================================================== *)

Module Batch.

Import Num JS Server.

(** One [zip.file] call of the loop: the index of the product in the
    input list, the entry name and the document. *)
Record insertion : Type := {
  index : nat;
  name : string;
  content : document
}.

Definition insert (zip : archive) (e : insertion) : archive :=
  file (name e) (content e) zip.

(** The products of the list that render, in the order of the list;
    [i] is the index of the first one. *)
Fixpoint rendered {L : PDFKit} (products : list value) (options : value)
    (i : nat) : list insertion :=
  match products with
  | [] => []
  | product :: rest =>
      match generateHangTagPDF product options, filename product i with
      | Ok pdfBuffer, Ok n =>
          {| index := i; name := n; content := pdfBuffer |}
          :: rendered rest options (S i)
      | _, _ => rendered rest options (S i)
      end
  end.

(** The value of a property, [undefined] where there is none. *)
Definition prop (product : value) (k : string) : value :=
  match get product k with
  | Ok v => v
  | Throw _ => VUndefined
  end.

(** The identifier in an entry name, as line 46 chooses it. *)
Definition names_entry (product : value) (i : nat) (id : string) : Prop :=
  if truthy (prop product "sku") then to_string (prop product "sku") = Ok id
  else if truthy (prop product "handle")
       then to_string (prop product "handle") = Ok id
       else id = synthesized i.

(** The documents of an archive: its entries that are files, in order. *)
Fixpoint documents (zip : archive) : list (string * document) :=
  match zip with
  | [] => []
  | (n, pdf_file d) :: rest => (n, d) :: documents rest
  | (_, folder) :: rest => documents rest
  end.

(** The entry names of the archive a response carries. *)
Definition entry_names (r : list line * response) : option (list string) :=
  match snd r with
  | send_zip zip => Some (map fst zip)
  | _ => None
  end.

Definition sent (r : list line * response) : archive :=
  match snd r with
  | send_zip zip => zip
  | _ => []
  end.

End Batch.

Module Tag.

Import Num JS Server Batch.

Local Open Scope string_scope.

(** The reconditioned banner is recognised by its blue bar, the MSRP line
    by its strike-through. *)
Definition is_bar (c : call) : bool :=
  match c with
  | fillAndStroke f _ => String.eqb f "#3182ce"
  | _ => false
  end.

Definition has_banner (doc : document) : bool := existsb is_bar doc.

Definition is_struck (c : call) : bool :=
  match c with
  | text _ _ _ o => strike o
  | text_units _ _ _ o => strike o
  | text_bullet _ _ _ o => strike o
  | _ => false
  end.

Definition has_msrp (doc : document) : bool := existsb is_struck doc.

Definition msrp_options : text_options :=
  {| width := Some (of_Z 134); align := Some "center"; lineGap := None;
     strike := true |}.

(** The reconditioned flag in the words of the specification, with the
    two keys the code reads for the identifier.  A [tags] String mentions
    a word it contains, a [tags] array a word that is one of its
    elements. *)
Definition mentions (tags : value) (w : string) : bool :=
  match tags with
  | VStr s => Str.includes s w
  | VArr elems =>
      existsb (fun v => match v with
                        | VStr t => String.eqb t w
                        | _ => false
                        end) elems
  | _ => false
  end.

Definition ends_with_R (id : value) : bool :=
  match id with
  | VStr s => Str.endsWith s "-R"
  | _ => false
  end.

Definition recon_flag (product : value) : bool :=
  mentions (prop product "tags") "Recon"
  || mentions (prop product "tags") "recon"
  || ends_with_R (prop product "sku")
  || ends_with_R (prop product "Variant SKU").

(** The flag exactly as the specification words it: the tags, or the
    identifier ([sku], else [Variant SKU]). *)
Definition identifier (product : value) : value :=
  if truthy (prop product "sku") then prop product "sku"
  else prop product "Variant SKU".

Definition recon_flag_of_identifier (product : value) : bool :=
  mentions (prop product "tags") "Recon"
  || mentions (prop product "tags") "recon"
  || ends_with_R (identifier product).

(** Records whose fields have the types the code expects. *)
Definition nullish (v : value) : bool :=
  match v with
  | VUndefined | VNull => true
  | _ => false
  end.

Definition is_string (v : value) : bool :=
  match v with
  | VStr _ => true
  | _ => false
  end.

Definition is_array (v : value) : bool :=
  match v with
  | VArr _ => true
  | _ => false
  end.

Definition scalar (v : value) : bool :=
  match v with
  | VArr _ | VObj _ => false
  | _ => true
  end.

Definition well_typed (product : value) : bool :=
  negb (nullish product)
  && (nullish (prop product "tags") || is_string (prop product "tags")
      || is_array (prop product "tags"))
  && (nullish (prop product "sku") || is_string (prop product "sku"))
  && (nullish (prop product "Variant SKU")
      || is_string (prop product "Variant SKU"))
  && scalar (prop product "price")
  && scalar (prop product "Variant Price")
  && scalar (prop product "compare_at_price")
  && scalar (prop product "Variant Compare At Price")
  && (negb (truthy (prop product "body_html"))
      || is_string (prop product "body_html"))
  && (negb (truthy (prop product "Body (HTML)"))
      || is_string (prop product "Body (HTML)")).

(** The includes list of a record, when extraction succeeds. *)
Definition extracted_items (product : value) : option (list string) :=
  match extract product with
  | Ok f => Some (includeItems (includesText f))
  | Throw _ => None
  end.

Definition starts_with_space (y : string) : bool :=
  match y with
  | String c _ => Str.is_space c
  | EmptyString => false
  end.

(** A text of one or more spaces: what [\s+] matches. *)
Fixpoint all_space (w : string) : bool :=
  match w with
  | EmptyString => true
  | String c r => Str.is_space c && all_space r
  end.

Definition whitespace (w : string) : bool :=
  negb (String.eqb w "") && all_space w.

(** [a || b || d] on values that are already there. *)
Definition pick (a b d : value) : value :=
  if truthy a then a else if truthy b then b else d.

(** Numbers below [10 ^ 21], which [toFixed] prints in fixed notation. *)
Definition below_1e21 (x : number) : bool :=
  match x with
  | S754_zero _ => true
  | S754_finite _ m e => negb (at_least_1e21 m e)
  | _ => false
  end.

Fixpoint all_digits (s : string) : bool :=
  match s with
  | EmptyString => true
  | String c r => Str.is_digit c && all_digits r
  end.

(** The calls of a document that has been drawn to its end, part by part:
    the upper-cased vendor [vendorUpper], the text [model] of the
    identifier and the two sizes are those of the render. *)
Definition title_options : text_options :=
  {| width := Some (of_Z 170); align := Some "center";
     lineGap := Some (of_Z 1); strike := false |}.

Definition head_calls (vendorUpper : list nat) (model : string) : document :=
  [rect (of_Z 8) (of_Z 15) (of_Z 60) (of_Z 20);
   fillAndStroke "#e53e3e" "#e53e3e";
   fontSize (of_Z 8); font "Helvetica-Bold"; fillColor "white";
   text_units vendorUpper (of_Z 12) (of_Z 22) (boxed 52 "center");
   fontSize (of_Z 10); fillColor "black"; font "Helvetica-Bold";
   text (VStr ("Model " ++ model)) (of_Z 100) (of_Z 20) (boxed 86 "right")].

Definition title_calls (f : fields) (titleSize : number) : document :=
  [fontSize titleSize; font "Helvetica-Bold"; fillColor "black";
   text (title f) (of_Z 12) (of_Z 45) title_options;
   rect (of_Z 25) (of_Z 85) (of_Z 144) (of_Z 80);
   stroke "#cccccc";
   fontSize (of_Z 8); fillColor "#999999";
   text (VStr "Product Image") (of_Z 25) (add (of_Z 85) (of_Z 36))
     (boxed 144 "center")].

Definition price_calls (f : fields) (scaledPriceSize : number) : document :=
  [fontSize scaledPriceSize; font "Helvetica-Bold"; fillColor "black";
   text (VStr ("$" ++ toFixed2 (price f))) (of_Z 30) (of_Z 175)
     (boxed 134 "center")].

Definition msrp_calls (f : fields) (currentY : number) : document :=
  if gtb (comparePrice f) (price f) && gtb (comparePrice f) zero then
    [fontSize (of_Z 10); font "Helvetica-Oblique"; fillColor "#666666";
     text (VStr ("MSRP $" ++ toFixed2 (comparePrice f))) (of_Z 30) currentY
       msrp_options]
  else [].

Definition recon_calls (f : fields) : document :=
  if truthy (isRecon f) then
    [rect (of_Z 0) (of_Z 240) (of_dec 1944 (-1)) (of_dec 228 (-1));
     fillAndStroke "#3182ce" "#3182ce";
     fontSize (of_Z 8); font "Helvetica-Bold"; fillColor "white";
     text (VStr "Factory Reconditioned Tool") (of_Z 8) (of_Z 248) at_position;
     text (sku f) (of_Z 130) (of_Z 248) at_position]
  else [].

Definition tag_calls (f : fields) (vendorUpper : list nat) (model : string)
    (titleSize priceSize : number) : document :=
  let scaledPriceSize := Num.min priceSize (of_Z 28) in
  (head_calls vendorUpper model ++ title_calls f titleSize
   ++ price_calls f scaledPriceSize
   ++ msrp_calls f (add (of_Z 175) (add scaledPriceSize (of_Z 2)))
   ++ recon_calls f)%list.

End Tag.

(* ===================================================================== *)
(** * Example inputs *)
(* ===================================================================== *)

Module Examples.

Import Num JS Server.

Local Open Scope string_scope.

Definition request (products : list value) : value :=
  VObj [("products", VArr products)].

(** The size in effect after the calls of [doc], from [size] on. *)
Fixpoint current_size (doc : document) (size : number) : number :=
  match doc with
  | [] => size
  | fontSize n :: rest => current_size rest n
  | _ :: rest => current_size rest size
  end.

(** [n > -1e21 && n < 1e21] *)
Definition writable (n : number) : bool :=
  gtb n (of_dec (-1) 21) && ltb n (of_dec 1 21).

(** The library the examples run with: it lays a text out when the size
    in effect and the height of the text are numbers PDFKit writes, and
    throws otherwise.  The examples stay far inside that range. *)
#[export] Instance pdfkit : PDFKit :=
  fun doc c =>
    match c with
    | text _ _ y _ =>
        if writable (current_size doc (of_Z 12)) && writable y then None
        else Some (Error "unsupported number")
    | _ => None
    end.

(** The document of a product rendered without options. *)
Definition page (product : value) : document :=
  match generateHangTagPDF product VUndefined with
  | Ok doc => doc
  | Throw _ => []
  end.

(** A record whose [tags] is a number: [tags.includes] is not a function. *)
Definition bad_tags : value :=
  VObj [("sku", VStr "A-1"); ("tags", VNum (of_Z 5))].

Definition plain : value :=
  VObj [("sku", VStr "B-2"); ("title", VStr "Drill"); ("price", VStr "19.99")].

(** A record of the export schema, with [Variant SKU] only. *)
Definition variant_only : value :=
  VObj [("Variant SKU", VStr "ABC-1"); ("Title", VStr "Saw")].

(** A record without any identifier. *)
Definition anonymous : value :=
  VObj [("title", VStr "Saw"); ("tags", VStr "Recon")].

(** The fragment of the specification, and a record with a given body. *)
Definition fragment : string := "INCLUDES: Bolt, Case and Manual<br>".

Definition with_body (html : string) : value :=
  VObj [("sku", VStr "K-1"); ("body_html", VStr html)].

(** A record with a compare price above its price. *)
Definition discounted : value :=
  VObj [("sku", VStr "B-2"); ("price", VStr "19.99");
        ("compare_at_price", VNum (of_Z 25))].

(** A record with both identifier keys. *)
Definition two_skus : value :=
  VObj [("sku", VStr "ABC"); ("Variant SKU", VStr "XYZ-R")].

(** Prices that are not numbers. *)
Definition priced_abc : value := VObj [("price", VStr "abc")].

Definition compared_1e21 : value :=
  VObj [("price", VStr "10"); ("compare_at_price", VStr "1e21")].


(** A record whose identifier has a slash. *)
Definition slashed : value := VObj [("sku", VStr "A/B")].

(** A record whose description has an includes list. *)
Definition band_saw : value := with_body "INCLUDES: Band saw".

End Examples.

(* ===================================================================== *)
(** * Notions for the rest of the code *)
(* ===================================================================== *)

Module Code.

Import Num JS Server Batch Tag.

Local Open Scope string_scope.

(** The text of the log line of line 42:
    [${product.sku || product.handle}]. *)
Definition log_id (product : value) : result string :=
  v <- or_else (get product "sku") (get product "handle") ;; to_string v.

(** The log line of a list element can be written. *)
Definition loggable (product : value) : bool :=
  match log_id product with
  | Ok _ => true
  | Throw _ => false
  end.

(** Lines of the console, by kind. *)
Definition is_processing (l : line) : bool :=
  match l with
  | log_processing _ _ _ => true
  | _ => false
  end.

Definition is_pdf_error (l : line) : bool :=
  match l with
  | error_generating_pdf _ _ => true
  | _ => false
  end.

(** The document of the entry of a name. *)
Fixpoint find (n : string) (zip : archive) : option document :=
  match zip with
  | [] => None
  | (m, e) :: rest =>
      if String.eqb m n
      then match e with pdf_file d => Some d | folder => None end
      else find n rest
  end.

(** The items of the bullet lines of a document, in order. *)
Fixpoint bullets (doc : document) : list string :=
  match doc with
  | [] => []
  | text_bullet item _ _ _ :: rest => item :: bullets rest
  | _ :: rest => bullets rest
  end.

(** The header of the includes section: the text "INCLUDES:" drawn at
    x = 12 without options. *)
Definition is_includes_header (c : call) : bool :=
  match c with
  | text (VStr s) x _ o =>
      String.eqb s "INCLUDES:" && SFeqb x (of_Z 12)
      && match width o with None => true | Some _ => false end
  | _ => false
  end.

(** Some character of the text satisfies [p]. *)
Fixpoint has_char (p : ascii -> bool) (s : string) : bool :=
  match s with
  | EmptyString => false
  | String c r => p c || has_char p r
  end.

Fixpoint ends_with_space (s : string) : bool :=
  match s with
  | EmptyString => false
  | String c EmptyString => Str.is_space c
  | String _ r => ends_with_space r
  end.

(** A computation that throws nothing but a TypeError. *)
Definition type_errors {A : Type} (r : result A) : Prop :=
  forall e, r = Throw e -> e = TypeError.

(** [parseInt(v) || d] takes the default: [parseInt(v)] is 0 or NaN, as
    it is for an absent option. *)
Definition unset (v : value) : bool :=
  match parseInt v with
  | Ok n => negb (truthy (VNum n))
  | Throw _ => false
  end.

(** A pattern without capturing group. *)
Fixpoint no_group (r : Regex.regex) : bool :=
  match r with
  | Regex.Cat r1 r2 | Regex.Alt r1 r2 => no_group r1 && no_group r2
  | Regex.Opt r1 => no_group r1
  | Regex.Group _ => false
  | _ => true
  end.

(** The sizes a document is drawn with: [fontSize] calls, in order. *)
Fixpoint font_sizes (doc : document) : list number :=
  match doc with
  | [] => []
  | fontSize n :: rest => n :: font_sizes rest
  | _ :: rest => font_sizes rest
  end.

(** The sign in front of a Number in fixed notation. *)
Definition sign_text (x : number) : string :=
  match x with
  | S754_finite true _ _ => "-"
  | _ => ""
  end.

End Code.

(* ===================================================================== *)
(** * Numbers in print *)
(* ===================================================================== *)

Section NumberExamples.

Import Num JS.

Local Open Scope string_scope.

Example to_string_tenth : Num.to_string (of_dec 1 (-1)) = "0.1".
Proof. vm_compute. reflexivity. Qed.

Example to_string_sum :
  Num.to_string (add (of_dec 1 (-1)) (of_dec 2 (-1))) = "0.30000000000000004".
Proof. vm_compute. reflexivity. Qed.

Example to_string_large : Num.to_string (of_dec 1 21) = "1e+21".
Proof. vm_compute. reflexivity. Qed.

Example to_string_small : Num.to_string (of_dec 123 (-8)) = "0.00000123".
Proof. vm_compute. reflexivity. Qed.

Example toFixed2_price : toFixed2 (parse_float "19.99") = "19.99".
Proof. vm_compute. reflexivity. Qed.

Example toFixed2_whole : toFixed2 (of_Z 20) = "20.00".
Proof. vm_compute. reflexivity. Qed.

Example toFixed2_rounds_the_binary_value :
  toFixed2 (of_dec 1005 (-3)) = "1.00".
Proof. vm_compute. reflexivity. Qed.

Example parse_float_prefix : Num.to_string (parse_float "  12.5kg") = "12.5".
Proof. vm_compute. reflexivity. Qed.

Example parse_int_hex : Num.to_string (parse_int "0x1F") = "31".
Proof. vm_compute. reflexivity. Qed.

End NumberExamples.

(* ===================================================================== *)
(** * Strings and digits *)
(* ===================================================================== *)

Section StringFacts.

Import Num Tag.

Local Open Scope string_scope.
Local Open Scope nat_scope.

Lemma length_append (s t : string) :
  String.length (s ++ t) = String.length s + String.length t.
Proof. induction s as [|c s IH]; simpl; [reflexivity|now rewrite IH]. Qed.

Lemma append_empty_r (s : string) : s ++ "" = s.
Proof. induction s as [|c s IH]; simpl; [reflexivity|now rewrite IH]. Qed.

Lemma append_assoc (s t u : string) : (s ++ t) ++ u = s ++ (t ++ u).
Proof. induction s as [|c s IH]; simpl; [reflexivity|now rewrite IH]. Qed.

Lemma all_digits_append (s t : string) :
  all_digits (s ++ t) = all_digits s && all_digits t.
Proof.
  induction s as [|c s IH]; simpl; [reflexivity|].
  now rewrite IH, andb_assoc.
Qed.

Lemma all_digits_substring (s : string) :
  all_digits s = true -> forall i k, all_digits (substring i k s) = true.
Proof.
  induction s as [|c s IH]; simpl; intros H i k.
  - destruct i, k; reflexivity.
  - apply andb_prop in H. destruct H as [Hc Hs].
    destruct i; [destruct k|]; simpl; auto.
    now rewrite Hc, IH.
Qed.

Lemma length_substring (s : string) :
  forall i k, i + k <= String.length s -> String.length (substring i k s) = k.
Proof.
  induction s as [|c s IH]; simpl; intros i k H.
  - destruct i, k; simpl; lia.
  - destruct i; [destruct k|]; simpl; auto.
    + rewrite IH; lia.
    + apply IH. lia.
Qed.

(** Cutting a string in two. *)
Lemma substring_split (s : string) :
  forall k, k <= String.length s ->
    s = substring 0 k s ++ substring k (String.length s - k) s.
Proof.
  induction s as [|c s IH]; simpl; intros k H.
  - destruct k; reflexivity.
  - destruct k; simpl.
    + f_equal. clear. induction s as [|d s IH]; simpl; [reflexivity|].
      now rewrite <- IH.
    + f_equal. apply IH. lia.
Qed.

(** What was read between a string and the rest of it. *)
Lemma consumed_append (a r : string) : Str.consumed (a ++ r) r = a.
Proof.
  unfold Str.consumed. rewrite length_append.
  replace (String.length a + String.length r - String.length r)
    with (String.length a) by lia.
  induction a as [|c a IH]; simpl.
  - destruct r; reflexivity.
  - now rewrite IH.
Qed.

Lemma length_zeros (k : nat) : String.length (zeros k) = k.
Proof. induction k; simpl; auto. Qed.

Lemma all_digits_zeros (k : nat) : all_digits (zeros k) = true.
Proof. induction k; simpl; auto. Qed.

Lemma is_digit_digit_char (d : Z) :
  (0 <= d < 10)%Z -> Str.is_digit (digit_char d) = true.
Proof.
  intros H.
  assert (E : (d = 0 \/ d = 1 \/ d = 2 \/ d = 3 \/ d = 4 \/ d = 5 \/ d = 6
               \/ d = 7 \/ d = 8 \/ d = 9)%Z) by lia.
  repeat (destruct E as [->|E]; [reflexivity|]). subst d. reflexivity.
Qed.

Lemma digits_aux_digits (fuel : nat) :
  forall n acc,
    all_digits acc = true -> all_digits (digits_aux fuel n acc) = true.
Proof.
  induction fuel as [|fuel IH]; cbn [digits_aux]; intros n acc H; [exact H|].
  assert (Hd : all_digits (String (digit_char (n mod 10)) acc) = true).
  { cbn [all_digits]. rewrite H, is_digit_digit_char; [reflexivity|].
    apply Z.mod_pos_bound. lia. }
  destruct (n <? 10)%Z; [exact Hd|]. now apply IH.
Qed.

Lemma digits_aux_length (fuel : nat) :
  forall n acc, String.length acc <= String.length (digits_aux fuel n acc).
Proof.
  induction fuel as [|fuel IH]; cbn [digits_aux]; intros n acc; [lia|].
  destruct (n <? 10)%Z; cbn [String.length]; [lia|].
  specialize (IH (n / 10)%Z (String (digit_char (n mod 10)) acc)).
  cbn [String.length] in IH. lia.
Qed.

Lemma all_digits_digits (n : Z) : all_digits (digits n) = true.
Proof. unfold digits. now apply digits_aux_digits. Qed.

Lemma digits_not_empty (n : Z) : 1 <= String.length (digits n).
Proof.
  unfold digits. cbn [digits_aux].
  destruct (n <? 10)%Z; cbn [String.length]; [lia|].
  pose proof (digits_aux_length (Z.to_nat (Z.log2 n)) (n / 10)%Z
                (String (digit_char (n mod 10)) "")) as H.
  cbn [String.length] in H. lia.
Qed.

(** [toFixed(2)] in fixed notation: digits, a point, two digits. *)
Lemma two_decimals_shape (n : Z) :
  exists a b,
    two_decimals n = a ++ String "." b
    /\ a <> "" /\ all_digits a = true /\ all_digits b = true
    /\ String.length b = 2.
Proof.
  unfold two_decimals.
  set (ds := zeros (3 - String.length (digits n)) ++ digits n).
  assert (Hall : all_digits ds = true).
  { unfold ds. now rewrite all_digits_append, all_digits_zeros,
      all_digits_digits. }
  assert (Hlen : 3 <= String.length ds).
  { unfold ds. rewrite length_append, length_zeros.
    pose proof (digits_not_empty n). lia. }
  exists (substring 0 (String.length ds - 2) ds),
         (substring (String.length ds - 2) 2 ds).
  repeat split.
  - intros E.
    assert (L : String.length (substring 0 (String.length ds - 2) ds)
                = String.length ds - 2) by (apply length_substring; lia).
    rewrite E in L. simpl in L. lia.
  - now apply all_digits_substring.
  - now apply all_digits_substring.
  - apply length_substring. lia.
Qed.

End StringFacts.

(* ===================================================================== *)
(** * The archive *)
(* ===================================================================== *)

Section ArchiveFacts.

Import Num JS Server Batch.

Local Open Scope string_scope.
Local Open Scope nat_scope.

(** *** Setting an entry *)

Lemma in_put (n n' : string) (e e' : entry) (zip : archive) :
  In (n, e) (put n' e' zip) -> (n, e) = (n', e') \/ In (n, e) zip.
Proof.
  induction zip as [|[m c] zip IH]; simpl.
  - intros [H|[]]; left; now symmetry.
  - destruct (String.eqb m n') eqn:E; simpl.
    + intros [H|H]; [left; now symmetry | right; now right].
    + intros [H|H]; [right; now left |].
      destruct (IH H) as [H'|H']; [now left | right; now right].
Qed.



Lemma has_in (n : string) (zip : archive) :
  has n zip = true <-> In n (map fst zip).
Proof.
  unfold has. rewrite existsb_exists, in_map_iff. split.
  - intros [x [Hx E]]. apply String.eqb_eq in E. now exists x.
  - intros [x [E Hx]]. exists x. split; [exact Hx|].
    now apply String.eqb_eq.
Qed.

Lemma has_app (n : string) (zip zip' : archive) :
  has n (zip ++ zip')%list = has n zip || has n zip'.
Proof. unfold has. apply existsb_app. Qed.

(** A name that is not in the archive is added at the end. *)
Lemma put_fresh (n : string) (e : entry) (zip : archive) :
  has n zip = false -> put n e zip = (zip ++ [(n, e)])%list.
Proof.
  induction zip as [|[m c] zip IH]; simpl; [reflexivity|].
  unfold has. simpl. intros H. apply orb_false_elim in H.
  destruct H as [E H]. rewrite E. f_equal. now apply IH.
Qed.

(** Setting a folder that is there already, as a folder, changes nothing. *)
Lemma put_folder_again (n : string) (zip : archive) :
  In (n, folder) zip ->
  (forall e, In (n, e) zip -> e = folder) ->
  put n folder zip = zip.
Proof.
  induction zip as [|[m c] zip IH]; simpl; [intros []|].
  intros Hin Hall. destruct (String.eqb m n) eqn:E.
  - apply String.eqb_eq in E. subst m. f_equal. f_equal.
    symmetry. apply Hall. now left.
  - f_equal. apply IH.
    + destruct Hin as [Hin|Hin]; [|exact Hin].
      inversion Hin; subst. rewrite String.eqb_refl in E. discriminate.
    + intros e He. apply Hall. now right.
Qed.

(** *** Paths *)

Lemma substring_all (s : string) : substring 0 (String.length s) s = s.
Proof. induction s as [|c s IH]; simpl; [reflexivity|now rewrite IH]. Qed.

Lemma ends_with_slash_append (x : string) : ends_with_slash (x ++ "/") = true.
Proof.
  unfold ends_with_slash, Str.endsWith. rewrite length_append.
  cbn [String.length].
  replace (1 <=? String.length x + 1) with true
    by (symmetry; apply Nat.leb_le; lia).
  replace (String.length x + 1 - 1) with (String.length x) by lia.
  cbn [andb]. apply String.eqb_eq.
  induction x as [|c x IH]; [reflexivity|].
  cbn [String.length append substring]. exact IH.
Qed.

Lemma ends_with_slash_forced (path : string) :
  ends_with_slash (forceTrailingSlash path) = true.
Proof.
  unfold forceTrailingSlash.
  destruct (ends_with_slash path) eqn:E; [exact E|].
  apply ends_with_slash_append.
Qed.

Lemma startsWith_refl (s : string) : Str.startsWith s s = true.
Proof.
  induction s as [|c s IH]; [reflexivity|].
  cbn [Str.startsWith]. now rewrite Ascii.eqb_refl.
Qed.

Lemma startsWith_append (s t : string) : Str.startsWith (s ++ t) s = true.
Proof.
  induction s as [|c s IH]; [reflexivity|].
  cbn [append Str.startsWith]. now rewrite Ascii.eqb_refl.
Qed.

Lemma startsWith_trans (s t u : string) :
  Str.startsWith s t = true -> Str.startsWith t u = true ->
  Str.startsWith s u = true.
Proof.
  revert s t. induction u as [|c u IH]; intros s t H1 H2; [reflexivity|].
  destruct t as [|d t]; [discriminate H2|].
  destruct s as [|b s]; [discriminate H1|].
  cbn [Str.startsWith] in *.
  apply andb_prop in H1. destruct H1 as [E1 H1].
  apply andb_prop in H2. destruct H2 as [E2 H2].
  apply Ascii.eqb_eq in E1. apply Ascii.eqb_eq in E2. subst.
  rewrite Ascii.eqb_refl. cbn [andb]. now apply (IH s t).
Qed.

(** The text before the last slash, with that slash, starts the path. *)
Lemma lastIndexOf_prefix (path : string) :
  forall i, lastIndexOf "/" path = Some i ->
    Str.startsWith path (substring 0 i path ++ "/") = true.
Proof.
  induction path as [|c path IH]; intros i H; [discriminate H|].
  cbn [lastIndexOf] in H.
  destruct (lastIndexOf "/" path) as [j|] eqn:E.
  - inversion H; subst i. cbn [substring append Str.startsWith].
    rewrite Ascii.eqb_refl. cbn [andb]. now apply IH.
  - destruct (Ascii.eqb c "/") eqn:Ec; [|discriminate H].
    inversion H; subst i. apply Ascii.eqb_eq in Ec. subst c.
    destruct path; reflexivity.
Qed.

Lemma substring_prefix (s : string) :
  forall k, Str.startsWith s (substring 0 k s) = true.
Proof.
  induction s as [|c s IH]; intros [|k]; try reflexivity.
  cbn [substring Str.startsWith]. rewrite Ascii.eqb_refl. apply IH.
Qed.

Lemma startsWith_forced (s p : string) :
  Str.startsWith s (p ++ "/") = true ->
  Str.startsWith s (forceTrailingSlash p) = true.
Proof.
  intros H. unfold forceTrailingSlash.
  destruct (ends_with_slash p); [|exact H].
  apply (startsWith_trans s (p ++ "/") p H). apply startsWith_append.
Qed.

(** A parent folder, with its slash, starts the path. *)
Lemma parent_starts (path : string) :
  parentFolder path <> "" ->
  Str.startsWith path (forceTrailingSlash (parentFolder path)) = true.
Proof.
  unfold parentFolder.
  set (path' := if ends_with_slash path
                then substring 0 (String.length path - 1) path else path).
  assert (Hp : Str.startsWith path path' = true).
  { unfold path'. destruct (ends_with_slash path);
      [apply substring_prefix | apply startsWith_refl]. }
  destruct (lastIndexOf "/" path') as [[|i]|] eqn:E;
    try (intros H; now contradiction H).
  intros _. apply startsWith_forced.
  apply (startsWith_trans path path' _ Hp).
  now apply lastIndexOf_prefix.
Qed.

(** *** The depth of a path *)

Lemma lastIndexOf_lt (c : ascii) (path : string) :
  forall i, lastIndexOf c path = Some i -> i < String.length path.
Proof.
  induction path as [|d path IH]; intros i H; [discriminate H|].
  cbn [lastIndexOf] in H. cbn [String.length].
  destruct (lastIndexOf c path) as [j|].
  - inversion H; subst i. specialize (IH j eq_refl). lia.
  - destruct (Ascii.eqb d c); [|discriminate H]. inversion H. lia.
Qed.

Lemma length_prefix (path : string) :
  forall k, k <= String.length path ->
    String.length (substring 0 k path) = k.
Proof. intros k H. apply length_substring. lia. Qed.

(** The length of a path that ends with a slash, but the slash. *)
Lemma ends_with_slash_length (path : string) :
  ends_with_slash path = true -> 1 <= String.length path.
Proof.
  unfold ends_with_slash, Str.endsWith. cbn [String.length].
  intros H. apply andb_prop in H. destruct H as [H _].
  now apply Nat.leb_le in H.
Qed.

(** A parent folder is shorter than its path, and shorter by two than a
    path that ends with a slash. *)
Lemma parent_shorter (path : string) :
  parentFolder path <> "" ->
  String.length (parentFolder path)
  < String.length path - (if ends_with_slash path then 1 else 0).
Proof.
  unfold parentFolder.
  destruct (ends_with_slash path) eqn:Hs.
  - pose proof (ends_with_slash_length path Hs) as Hlen.
    destruct (lastIndexOf "/" (substring 0 (String.length path - 1) path))
      as [[|i]|] eqn:E; try (intros H; now contradiction H).
    intros _. apply lastIndexOf_lt in E.
    rewrite length_prefix in E by lia.
    rewrite length_prefix; [lia|]. rewrite length_prefix by lia. lia.
  - destruct (lastIndexOf "/" path) as [[|i]|] eqn:E;
      try (intros H; now contradiction H).
    intros _. apply lastIndexOf_lt in E. rewrite length_prefix; lia.
Qed.

Lemma length_forced (name : string) :
  String.length (forceTrailingSlash name)
  - (if ends_with_slash (forceTrailingSlash name) then 1 else 0)
  <= String.length name.
Proof.
  rewrite ends_with_slash_forced. unfold forceTrailingSlash.
  destruct (ends_with_slash name); [lia|].
  rewrite length_append. cbn [String.length]. lia.
Qed.

(** The depth of the folders of a name is below its length: with more
    fuel than that, [folderAdd] does not depend on the fuel. *)
Lemma folderAdd_enough_fuel (fuel : nat) :
  forall (fuel' : nat) (name : string) (zip : archive),
    String.length name < fuel -> String.length name < fuel' ->
    folderAdd fuel name zip = folderAdd fuel' name zip.
Proof.
  induction fuel as [|fuel IH]; intros fuel' name zip H H'; [lia|].
  destruct fuel' as [|fuel']; [lia|]. cbn [folderAdd].
  destruct (has (forceTrailingSlash name) zip); [reflexivity|].
  destruct (negb (String.eqb (parentFolder (forceTrailingSlash name)) ""))
    eqn:Hparent; [|reflexivity].
  assert (Hne : parentFolder (forceTrailingSlash name) <> "").
  { intros E. rewrite E in Hparent. discriminate. }
  pose proof (parent_shorter _ Hne) as Hshort.
  pose proof (length_forced name) as Hforced.
  rewrite (IH fuel') by lia. reflexivity.
Qed.

(** [zip.file] gives [folderAdd] fuel enough. *)
Lemma file_enough_fuel (name : string) (data : document) (zip : archive)
    (fuel : nat) :
  String.length name <= fuel ->
  file name data zip
  = put name (pdf_file data)
      (if negb (String.eqb (parentFolder name) "")
       then folderAdd fuel (parentFolder name) zip
       else zip).
Proof.
  intros H. unfold file.
  destruct (negb (String.eqb (parentFolder name) "")) eqn:Hparent;
    [|reflexivity].
  assert (Hne : parentFolder name <> "").
  { intros E. rewrite E in Hparent. discriminate. }
  pose proof (parent_shorter _ Hne) as Hshort.
  rewrite (folderAdd_enough_fuel (String.length name) fuel); [reflexivity| |];
    destruct (ends_with_slash name); lia.
Qed.

(** *** Folders *)

(** The folders [folderAdd] adds come after the entries that were there;
    each ends with a slash and starts the folder asked for. *)
Lemma folderAdd_adds (fuel : nat) :
  forall (name : string) (zip : archive),
    exists added : list string,
      folderAdd fuel name zip
      = (zip ++ map (fun n => (n, folder)) added)%list
      /\ forall n, In n added ->
           ends_with_slash n = true
           /\ Str.startsWith (forceTrailingSlash name) n = true.
Proof.
  induction fuel as [|fuel IH]; intros name zip; cbn [folderAdd].
  - destruct (has (forceTrailingSlash name) zip) eqn:Hhas.
    + exists []. split; [now rewrite app_nil_r|intros n []].
    + exists [forceTrailingSlash name]. split; [now apply put_fresh|].
      intros n [<-|[]]. split;
        [apply ends_with_slash_forced | apply startsWith_refl].
  - destruct (has (forceTrailingSlash name) zip) eqn:Hhas.
    + exists []. split; [now rewrite app_nil_r|intros n []].
    + set (me := forceTrailingSlash name) in *.
      assert (Hstep : forall (zip1 : archive) (added : list string),
                zip1 = (zip ++ map (fun n => (n, folder)) added)%list ->
                (forall n, In n added ->
                   ends_with_slash n = true /\ Str.startsWith me n = true) ->
                exists added',
                  put me folder zip1
                  = (zip ++ map (fun n => (n, folder)) added')%list
                  /\ forall n, In n added' ->
                       ends_with_slash n = true
                       /\ Str.startsWith me n = true).
      { intros zip1 added -> Hadded.
        destruct (has me (zip ++ map (fun n => (n, folder)) added)%list) eqn:Hin.
        - exists added. split; [|exact Hadded].
          apply put_folder_again.
          + apply has_in in Hin. rewrite map_app in Hin.
            apply in_app_or in Hin. destruct Hin as [Hin|Hin].
            * apply has_in in Hin. rewrite Hin in Hhas. discriminate.
            * rewrite map_map in Hin. simpl in Hin. rewrite map_id in Hin.
              apply in_or_app. right. apply in_map_iff. now exists me.
          + intros e He. apply in_app_or in He. destruct He as [He|He].
            * assert (Hme : has me zip = true)
                by (apply has_in; apply in_map_iff; now exists (me, e)).
              rewrite Hme in Hhas. discriminate.
            * apply in_map_iff in He. destruct He as [n [He _]].
              now inversion He.
        - exists (added ++ [me])%list. split.
          + rewrite put_fresh by exact Hin.
            now rewrite map_app, app_assoc.
          + intros n Hn. apply in_app_or in Hn. destruct Hn as [Hn|[<-|[]]].
            * now apply Hadded.
            * split; [apply ends_with_slash_forced | apply startsWith_refl]. }
      destruct (negb (String.eqb (parentFolder me) "")) eqn:Hparent.
      * destruct (IH (parentFolder me) zip) as [added [Hadd Hall]].
        apply (Hstep _ added Hadd).
        intros n Hn. destruct (Hall n Hn) as [H1 H2]. split; [exact H1|].
        apply (startsWith_trans me (forceTrailingSlash (parentFolder me)) n);
          [|exact H2].
        apply parent_starts. intros E. rewrite E in Hparent. discriminate.
      * apply (Hstep zip []); [now rewrite app_nil_r|intros n []].
Qed.

(** [zip.file] adds the folders of the name, then sets the entry. *)
Lemma file_adds (name : string) (data : document) (zip : archive) :
  exists added : list string,
    file name data zip
    = put name (pdf_file data)
        (zip ++ map (fun n => (n, folder)) added)%list
    /\ forall n, In n added ->
         ends_with_slash n = true /\ Str.startsWith name n = true.
Proof.
  unfold file.
  destruct (negb (String.eqb (parentFolder name) "")) eqn:Hparent.
  - destruct (folderAdd_adds (String.length name) (parentFolder name) zip)
      as [added [Hadd Hall]].
    exists added. split; [now rewrite Hadd|].
    intros n Hn. destruct (Hall n Hn) as [H1 H2]. split; [exact H1|].
    apply (startsWith_trans name (forceTrailingSlash (parentFolder name)) n);
      [|exact H2].
    apply parent_starts. intros E. rewrite E in Hparent. discriminate.
  - exists []. split; [now rewrite app_nil_r|intros n []].
Qed.

End ArchiveFacts.
(* ===================================================================== *)
(** * The batch: archive entries *)
(* ===================================================================== *)

Section BatchFacts.

Import Num JS Server Batch Tag Code.

Context {L : PDFKit}.

Local Open Scope string_scope.
Local Open Scope nat_scope.

(** *** One [zip.file] *)

Lemma in_folders (n : string) (e : entry) (added : list string) :
  In (n, e) (map (fun m => (m, folder)) added) -> e = folder /\ In n added.
Proof.
  intros H. apply in_map_iff in H. destruct H as [m [E Hm]].
  inversion E; subst. auto.
Qed.

Lemma in_file_pdf (n n' : string) (d d' : document) (zip : archive) :
  In (n, pdf_file d) (file n' d' zip) ->
  (n, d) = (n', d') \/ In (n, pdf_file d) zip.
Proof.
  destruct (file_adds n' d' zip) as [added [-> _]]. intros H.
  apply in_put in H. destruct H as [H|H].
  - left. now inversion H.
  - apply in_app_or in H. destruct H as [H|H]; [now right|].
    apply in_folders in H. destruct H as [H _]. discriminate H.
Qed.



(** A folder of the archive was there or is a folder of the name: it ends
    with a slash and starts the name. *)
Lemma in_file_folder (n n' : string) (d' : document) (zip : archive) :
  In (n, folder) (file n' d' zip) ->
  In (n, folder) zip
  \/ (ends_with_slash n = true /\ Str.startsWith n' n = true).
Proof.
  destruct (file_adds n' d' zip) as [added [-> Hall]]. intros H.
  apply in_put in H. destruct H as [H|H]; [discriminate H|].
  apply in_app_or in H. destruct H as [H|H]; [now left|].
  apply in_folders in H. destruct H as [_ H]. right. now apply Hall.
Qed.

Lemma documents_app (zip zip' : archive) :
  documents (zip ++ zip')%list = (documents zip ++ documents zip')%list.
Proof.
  induction zip as [|[m [c|]] zip IH]; simpl; [reflexivity| |exact IH].
  now rewrite IH.
Qed.

Lemma documents_folders (added : list string) :
  documents (map (fun m => (m, folder)) added) = [].
Proof. induction added as [|m added IH]; simpl; auto. Qed.

Lemma length_documents_put (n : string) (d : document) (zip : archive) :
  List.length (documents (put n (pdf_file d) zip))
  <= S (List.length (documents zip)).
Proof.
  induction zip as [|[m [c|]] zip IH]; simpl; [lia| |].
  - destruct (String.eqb m n); simpl; lia.
  - destruct (String.eqb m n); simpl; lia.
Qed.

Lemma length_documents_file (n : string) (d : document) (zip : archive) :
  List.length (documents (file n d zip)) <= S (List.length (documents zip)).
Proof.
  destruct (file_adds n d zip) as [added [-> _]].
  pose proof (length_documents_put n d
                (zip ++ map (fun m => (m, folder)) added)%list) as H.
  now rewrite documents_app, documents_folders, app_nil_r in H.
Qed.

Lemma in_documents (n : string) (d : document) (zip : archive) :
  In (n, d) (documents zip) <-> In (n, pdf_file d) zip.
Proof.
  induction zip as [|[m [c|]] zip IH]; simpl; [tauto| |].
  - rewrite IH. split; intros [H|H]; auto; left; now inversion H.
  - rewrite IH. split; [auto|]. intros [H|H]; [discriminate H|exact H].
Qed.

(** The names of the archive after [zip.file]. *)
Lemma names_file (m n : string) (d : document) (zip : archive) :
  In m (map fst (file n d zip)) ->
  In m (map fst zip) \/ m = n \/ ends_with_slash m = true.
Proof.
  destruct (file_adds n d zip) as [added [-> Hall]]. intros H.
  apply in_map_iff in H. destruct H as [[m' e] [E H]]. simpl in E. subst m'.
  apply in_put in H. destruct H as [H|H].
  - right. left. now inversion H.
  - apply in_app_or in H. destruct H as [H|H].
    + left. apply in_map_iff. now exists (m, e).
    + apply in_folders in H. destruct H as [_ H]. right. right.
      now apply Hall.
Qed.

(** A new name that is not a folder's is added after the others. *)
Lemma documents_file_fresh (n : string) (d : document) (zip : archive) :
  ends_with_slash n = false ->
  ~ In n (map fst zip) ->
  documents (file n d zip) = (documents zip ++ [(n, d)])%list.
Proof.
  intros Hn Hfresh. destruct (file_adds n d zip) as [added [-> Hall]].
  rewrite put_fresh.
  - rewrite !documents_app, documents_folders, app_nil_r. reflexivity.
  - rewrite has_app. apply orb_false_intro.
    + destruct (has n zip) eqn:E; [|reflexivity].
      apply has_in in E. contradiction.
    + destruct (has n (map (fun m => (m, folder)) added)) eqn:E;
        [|reflexivity].
      apply has_in in E. rewrite map_map in E. simpl in E.
      rewrite map_id in E. destruct (Hall n E) as [E' _].
      rewrite E' in Hn. discriminate.
Qed.

(** *** The entry names of line 46 *)

Lemma ends_with_slash_last (x : string) (c : ascii) :
  ends_with_slash (x ++ String c "") = Ascii.eqb c "/".
Proof.
  unfold ends_with_slash, Str.endsWith. rewrite length_append.
  cbn [String.length].
  replace (1 <=? String.length x + 1) with true
    by (symmetry; apply Nat.leb_le; lia).
  replace (String.length x + 1 - 1) with (String.length x) by lia.
  cbn [andb].
  assert (E : substring (String.length x) 1 (x ++ String c "") = String c "").
  { induction x as [|b x IH]; [reflexivity|].
    cbn [String.length append substring]. exact IH. }
  rewrite E. cbn [String.eqb]. now destruct (Ascii.eqb c "/").
Qed.

Lemma filename_is_no_folder (q : value) (i : nat) (n : string) :
  filename q i = Ok n -> ends_with_slash n = false.
Proof.
  unfold filename.
  destruct (or_else (or_else (get q "sku") (get q "handle"))
              (Ok (VStr (synthesized i)))) as [v|x]; simpl; [|discriminate].
  destruct (to_string v) as [s|x]; simpl; [|discriminate].
  intros H. inversion H.
  change (s ++ "-hangtag.pdf") with (s ++ "-hangtag.pd" ++ String "f" "").
  rewrite <- append_assoc. apply ends_with_slash_last.
Qed.

(** *** The insertions of a batch *)

Lemma in_inserted (l : list insertion) (zip : archive) (n : string)
    (d : document) :
  In (n, pdf_file d) (fold_left insert l zip) ->
  In (n, pdf_file d) zip \/ exists e, In e l /\ name e = n /\ content e = d.
Proof.
  revert zip. induction l as [|e l IH]; simpl; intros zip H; [now left|].
  destruct (IH _ H) as [H'|[e' [H1 H2]]].
  - unfold insert in H'. apply in_file_pdf in H'. destruct H' as [H'|H'].
    + right. exists e. inversion H'. auto.
    + now left.
  - right. exists e'. auto.
Qed.



Lemma in_inserted_folder (l : list insertion) (zip : archive) (n : string) :
  In (n, folder) (fold_left insert l zip) ->
  In (n, folder) zip
  \/ exists e, In e l /\ ends_with_slash n = true
                /\ Str.startsWith (name e) n = true.
Proof.
  revert zip. induction l as [|e l IH]; simpl; intros zip H; [now left|].
  destruct (IH _ H) as [H'|[e' [H1 H2]]].
  - unfold insert in H'. apply in_file_folder in H'.
    destruct H' as [H'|H']; [now left|]. right. exists e. auto.
  - right. exists e'. auto.
Qed.

Lemma length_inserted (l : list insertion) (zip : archive) :
  List.length (documents (fold_left insert l zip))
  <= List.length (documents zip) + List.length l.
Proof.
  revert zip. induction l as [|e l IH]; simpl; intros zip; [lia|].
  specialize (IH (insert zip e)).
  pose proof (length_documents_file (name e) (content e) zip).
  unfold insert in *. lia.
Qed.

(** Insertions under distinct new names come in their order. *)
Lemma inserted_fresh (l : list insertion) (zip : archive) :
  NoDup (map name l) ->
  (forall e, In e l ->
     ends_with_slash (name e) = false /\ ~ In (name e) (map fst zip)) ->
  documents (fold_left insert l zip)
  = (documents zip ++ map (fun e => (name e, content e)) l)%list.
Proof.
  revert zip. induction l as [|e l IH]; simpl; intros zip Hnd Hall.
  - now rewrite app_nil_r.
  - inversion Hnd as [|x xs Hx Hnd']; subst.
    destruct (Hall e (or_introl eq_refl)) as [He Hfresh].
    rewrite IH; [|exact Hnd'|].
    + unfold insert at 1. rewrite documents_file_fresh by assumption.
      now rewrite <- app_assoc.
    + intros e' He'. destruct (Hall e' (or_intror He')) as [H1 H2].
      split; [exact H1|]. unfold insert. intros Hin.
      apply names_file in Hin. destruct Hin as [Hin|[Hin|Hin]].
      * contradiction.
      * apply Hx. rewrite <- Hin. now apply in_map.
      * rewrite Hin in H1. discriminate.
Qed.

(** *** The inner [try] and the loop *)

Lemma try_product_ok (q o : value) (i : nat) (zip zip' : archive) :
  try_product q o i zip = Ok zip' ->
  exists d n,
    generateHangTagPDF q o = Ok d /\ filename q i = Ok n /\
    zip' = file n d zip.
Proof.
  unfold try_product.
  destruct (generateHangTagPDF q o) as [d|e]; simpl; [|discriminate].
  destruct (filename q i) as [n|e]; simpl; [|discriminate].
  intros H. inversion H. now exists d, n.
Qed.

Lemma try_product_throw (q o : value) (i : nat) (zip : archive) (e : exn) :
  try_product q o i zip = Throw e ->
  match generateHangTagPDF q o, filename q i with
  | Ok _, Ok _ => False
  | _, _ => True
  end.
Proof.
  unfold try_product.
  destruct (generateHangTagPDF q o) as [d|e']; simpl; [|trivial].
  destruct (filename q i) as [n|e']; simpl; [discriminate|trivial].
Qed.

(** When the log line of line 42 can be written, so can the entry name. *)
Lemma logged_has_filename (q : value) (i : nat) (id : string) :
  (v <- or_else (get q "sku") (get q "handle") ;; to_string v) = Ok id ->
  exists n, filename q i = Ok n.
Proof.
  unfold filename.
  destruct (get q "sku") as [s|e]; simpl; [|discriminate].
  destruct (truthy s) eqn:Es; simpl.
  - rewrite Es. simpl. intros ->. simpl. eauto.
  - destruct (get q "handle") as [h|e]; simpl; [|discriminate].
    destruct (truthy h) eqn:Eh; simpl.
    + intros ->. simpl. eauto.
    + intros _. eauto.
Qed.

Lemma process_ok (items : list value) (o : value) (count : nat) :
  forall (i : nat) (zip : archive) (console console' : list line)
         (zip' : archive),
    process items o i count zip console = (console', Ok zip') ->
    zip' = fold_left insert (rendered items o i) zip
    /\ (forall j q, nth_error items j = Some q ->
        (exists id, In (log_processing (S (i + j)) count id) console')
        /\ exists n, filename q (i + j) = Ok n)
    /\ (forall l, In l console -> In l console').
Proof.
  induction items as [|q items IH]; simpl; intros i zip console console' zip' H.
  - inversion H; subst. split; [reflexivity|split; [|auto]].
    intros [|j] q Hq; discriminate.
  - destruct (v <- or_else (get q "sku") (get q "handle") ;; to_string v)
      as [id|e] eqn:Elog; [|discriminate].
    destruct (logged_has_filename q i id Elog) as [n Hn].
    assert (Hhere : forall c : list line,
               (forall l, In l (console ++ [log_processing (S i) count id])%list
                          -> In l c) ->
               forall j q', nth_error (q :: items) j = Some q' ->
               (forall j' q'', nth_error items j' = Some q'' ->
                  (exists id', In (log_processing (S (S i + j')) count id') c)
                  /\ exists n', filename q'' (S i + j') = Ok n') ->
               (exists id', In (log_processing (S (i + j)) count id') c)
               /\ exists n', filename q' (i + j) = Ok n').
    { intros c Hc [|j] q' Hq' Hrest; simpl in Hq'.
      - inversion Hq'; subst q'. rewrite Nat.add_0_r. split; [|eauto].
        exists id. apply Hc. apply in_or_app. right. now left.
      - destruct (Hrest j q' Hq') as [H1 H2].
        replace (i + S j) with (S i + j) by lia. now split. }
    destruct (try_product q o i zip) as [zip1|pdfError] eqn:Etry.
    + destruct (try_product_ok _ _ _ _ _ Etry) as [d [n' [Hd [Hn' Hz]]]].
      rewrite Hd, Hn'.
      destruct (IH _ _ _ _ _ H) as [Hzip [Hlog Hkeep]].
      split; [|split].
      * simpl. unfold insert at 2. simpl. now rewrite <- Hz.
      * intros j q' Hq'. apply (Hhere console' Hkeep j q' Hq' Hlog).
      * intros l Hl. apply Hkeep. apply in_or_app. now left.
    + pose proof (try_product_throw _ _ _ _ _ Etry) as Hthrow.
      destruct (v <- get q "sku" ;; to_string v) as [s|e] eqn:Eerr;
        [|discriminate].
      destruct (IH _ _ _ _ _ H) as [Hzip [Hlog Hkeep]].
      split; [|split].
      * destruct (generateHangTagPDF q o); [|exact Hzip].
        destruct (filename q i); [contradiction|exact Hzip].
      * intros j q' Hq'. apply (Hhere console'); auto.
        intros l Hl. apply Hkeep. apply in_or_app. now left.
      * intros l Hl. apply Hkeep. apply in_or_app. left.
        apply in_or_app. now left.
Qed.

(** The error line of line 49 can be written whenever the log line of
    line 42 could. *)
Lemma logged_has_error_line (q : value) (id : string) :
  (v <- or_else (get q "sku") (get q "handle") ;; to_string v) = Ok id ->
  exists s, (v <- get q "sku" ;; to_string v) = Ok s.
Proof.
  destruct (get q "sku") as [s|e]; simpl; [|discriminate].
  destruct (truthy s) eqn:Es; simpl; [eauto|].
  intros _. destruct s; simpl in *; try discriminate; eauto.
Qed.

(** A render that throws is caught: the loop goes on with the next
    product, the archive unchanged. *)
Lemma failed_render_continues (q : value) (rest : list value) (o : value)
    (i count : nat) (zip : archive) (console : list line) (id : string)
    (e : exn) :
  (v <- or_else (get q "sku") (get q "handle") ;; to_string v) = Ok id ->
  generateHangTagPDF q o = Throw e ->
  exists s,
    process (q :: rest) o i count zip console
    = process rest o (S i) count zip
        (console ++ [log_processing (S i) count id;
                     error_generating_pdf s e])%list.
Proof.
  intros Hlog Hgen. destruct (logged_has_error_line q id Hlog) as [s Hs].
  exists s. cbn [process]. rewrite Hlog. unfold try_product.
  rewrite Hgen. cbn [bind]. rewrite Hs. now rewrite <- app_assoc.
Qed.

(** *** The list of rendered products *)

Lemma in_rendered (items : list value) (o : value) :
  forall (i : nat) (e : insertion),
    In e (rendered items o i) <->
    exists j q,
      index e = i + j /\ nth_error items j = Some q /\
      generateHangTagPDF q o = Ok (content e) /\
      filename q (i + j) = Ok (name e).
Proof.
  induction items as [|p items IH]; simpl; intros i e.
  - split; [intros []|]. intros [[|j] [q [_ [H _]]]]; discriminate.
  - assert (Hrest :
      In e (rendered items o (S i)) <->
      exists j q, index e = i + S j /\ nth_error items j = Some q /\
        generateHangTagPDF q o = Ok (content e) /\
        filename q (i + S j) = Ok (name e)).
    { rewrite IH. split; intros [j [q H]]; exists j, q;
        [replace (i + S j) with (S i + j) by lia
        |replace (S i + j) with (i + S j) by lia]; exact H. }
    destruct (generateHangTagPDF p o) as [d|x] eqn:Ed.
    + destruct (filename p i) as [n|x] eqn:En.
      * simpl. rewrite Hrest. split.
        -- intros [H|[j [q H]]].
           ++ subst e. exists 0, p. simpl. rewrite Nat.add_0_r. auto.
           ++ exists (S j), q. exact H.
        -- intros [[|j] [q [H1 [H2 [H3 H4]]]]]; simpl in H2.
           ++ left. inversion H2; subst q. rewrite Nat.add_0_r in *.
              rewrite Ed in H3. rewrite En in H4.
              inversion H3. inversion H4. destruct e; simpl in *. now subst.
           ++ right. exists j, q. auto.
      * rewrite Hrest. split.
        -- intros [j [q H]]. exists (S j), q. exact H.
        -- intros [[|j] [q [H1 [H2 [H3 H4]]]]]; simpl in H2.
           ++ inversion H2; subst q. rewrite Nat.add_0_r in H4.
              rewrite En in H4. discriminate.
           ++ exists j, q. auto.
    + rewrite Hrest. split.
      * intros [j [q H]]. exists (S j), q. exact H.
      * intros [[|j] [q [H1 [H2 [H3 H4]]]]]; simpl in H2.
        -- inversion H2; subst q. rewrite Ed in H3. discriminate.
        -- exists j, q. auto.
Qed.

Lemma rendered_from (items : list value) (o : value) :
  forall i, Forall (fun e => i <= index e) (rendered items o i).
Proof.
  intros i. apply Forall_forall. intros e He.
  apply in_rendered in He. destruct He as [j [q [H _]]]. lia.
Qed.

Lemma rendered_sorted (items : list value) (o : value) :
  forall i, StronglySorted lt (map index (rendered items o i)).
Proof.
  induction items as [|p items IH]; simpl; intros i; [constructor|].
  destruct (generateHangTagPDF p o); [|apply IH].
  destruct (filename p i); [|apply IH].
  simpl. constructor; [apply IH|].
  apply Forall_map. eapply Forall_impl; [|apply (rendered_from items o (S i))].
  simpl. intros e He. lia.
Qed.

Lemma length_rendered (items : list value) (o : value) :
  forall i, List.length (rendered items o i) <= List.length items.
Proof.
  induction items as [|p items IH]; simpl; intros i; [lia|].
  destruct (generateHangTagPDF p o); [|specialize (IH (S i)); lia].
  destruct (filename p i); simpl; specialize (IH (S i)); lia.
Qed.

(** *** The handler *)

Lemma handler_sends (body : value) (items : list value) (o : value)
    (console : list line) (zip : archive) :
  get body "products" = Ok (VArr items) ->
  get body "options" = Ok o ->
  handler body = (console, send_zip zip) ->
  exists console',
    process items (or_empty o) 0 (List.length items) []
      [log_generating (List.length items)] = (console', Ok zip)
    /\ console = (console' ++ [log_success])%list.
Proof.
  intros Hp Ho. unfold handler. rewrite Hp, Ho. simpl.
  destruct (process items (or_empty o) 0 (List.length items) []
              [log_generating (List.length items)]) as [c [z|e]];
    intros H; inversion H; subst. eauto.
Qed.

(** *** The exceptions of the handler's own code *)

Lemma value_induction (P : value -> Prop) :
  P VUndefined -> P VNull -> (forall b, P (VBool b)) ->
  (forall n, P (VNum n)) -> (forall s, P (VStr s)) ->
  (forall elems, Forall P elems -> P (VArr elems)) ->
  (forall props, P (VObj props)) ->
  forall v, P v.
Proof.
  intros Hu Hn Hb Hnum Hs Harr Hobj. fix IH 1.
  intros [| |b|n|s|elems|props];
    [exact Hu|exact Hn|apply Hb|apply Hnum|apply Hs| |apply Hobj].
  apply Harr. induction elems as [|x elems IHl]; constructor;
    [apply IH | exact IHl].
Qed.

(** ToString throws nothing but a TypeError. *)
Lemma to_string_throws (v : value) :
  forall e, to_string v = Throw e -> e = TypeError.
Proof.
  induction v as [| |b|n|s|elems IH|props] using value_induction;
    intros e; simpl; try discriminate.
  - induction IH as [|x rest Hx _ IHrest]; [discriminate|].
    destruct (match x with
              | VUndefined | VNull => Ok ""
              | _ => to_string x
              end) as [s|e'] eqn:Ex.
    + simpl. destruct rest as [|y rest']; [discriminate|].
      match goal with
      | |- context [bind ?r _] => destruct r as [t|e''] eqn:Er
      end; simpl; [discriminate|].
      intros H. inversion H; subst e''. now apply IHrest.
    + simpl. intros H. inversion H; subst e'.
      destruct x; try discriminate Ex; now apply Hx.
  - destruct (has_own "toString" props); [|discriminate].
    intros H. now inversion H.
Qed.

Lemma get_throws (v : value) (k : string) (e : exn) :
  get v k = Throw e -> e = TypeError.
Proof. destruct v; simpl; try discriminate; intros H; now inversion H. Qed.

Lemma log_id_throws (q : value) (e : exn) :
  log_id q = Throw e -> e = TypeError.
Proof.
  unfold log_id.
  destruct (get q "sku") as [s|x] eqn:Es; simpl.
  - destruct (truthy s); simpl.
    + apply to_string_throws.
    + destruct (get q "handle") as [h|y] eqn:Eh; simpl.
      * apply to_string_throws.
      * intros H. inversion H; subst y. now apply get_throws in Eh.
  - intros H. inversion H; subst x. now apply get_throws in Es.
Qed.

(** *** Batches that succeed *)

Lemma process_succeeds (items : list value) (o : value) (count : nat) :
  forall i zip console,
    (exists c z, process items o i count zip console = (c, Ok z))
    <-> forallb loggable items = true.
Proof.
  induction items as [|q items IH]; intros i zip console.
  - simpl. split; eauto.
  - cbn [process forallb]. unfold loggable at 1, log_id.
    destruct (v <- or_else (get q "sku") (get q "handle") ;; to_string v)
      as [id|e] eqn:Elog.
    + simpl. destruct (try_product q o i zip) as [zip1|pdfError].
      * apply IH.
      * destruct (logged_has_error_line q id Elog) as [s ->]. apply IH.
    + simpl. split; [intros [c [z H]]; discriminate|discriminate].
Qed.

Lemma process_throws (items : list value) (o : value) (count : nat) :
  forall i zip console c e,
    process items o i count zip console = (c, Throw e) -> e = TypeError.
Proof.
  induction items as [|q items IH]; intros i zip console c e;
    [discriminate|].
  cbn [process].
  destruct (v <- or_else (get q "sku") (get q "handle") ;; to_string v)
    as [id|x] eqn:Elog.
  - destruct (try_product q o i zip) as [zip1|pdfError]; [apply IH|].
    destruct (logged_has_error_line q id Elog) as [s ->]. apply IH.
  - intros H. inversion H; subst x. now apply log_id_throws in Elog.
Qed.

Lemma handler_succeeds (body : value) (items : list value) (o : value) :
  get body "products" = Ok (VArr items) ->
  get body "options" = Ok o ->
  ((exists console zip, handler body = (console, send_zip zip))
   <-> forallb loggable items = true)
  /\ (forallb loggable items = false ->
      snd (handler body) = status_500 TypeError).
Proof.
  intros Hp Ho. unfold handler. rewrite Hp, Ho. simpl.
  pose proof (process_succeeds items (or_empty o) (List.length items) 0 []
                [log_generating (List.length items)]) as H.
  destruct (process items (or_empty o) 0 (List.length items) []
              [log_generating (List.length items)]) as [c [z|e]] eqn:E.
  - assert (Hall : forallb loggable items = true) by (apply H; eauto).
    split; [split; eauto|]. rewrite Hall. discriminate.
  - apply process_throws in E. subst e. split; [|reflexivity]. split.
    + intros [c' [z' H']]. discriminate.
    + intros Hall. apply H in Hall. destruct Hall as [c' [z' H']].
      discriminate.
Qed.


End BatchFacts.

(* ===================================================================== *)
(** * The batch: the claims *)
(* ===================================================================== *)

Section BatchClaims.

Import Num JS Server Batch Tag Examples Code.

Local Open Scope string_scope.
Local Open Scope nat_scope.




(** Likewise for a [null] in the list, whatever the other products. *)
Example null_product_ends_the_batch :
  snd (handler (request [VNull; plain])) = status_500 TypeError.
Proof. reflexivity. Qed.

(** C7, as the code has it.  The archive of a successful batch is built by
    inserting, in the order of the input list, one document for each
    product that rendered: the insertions have strictly increasing input
    indices and each carries the name and the document of the product at
    its index.  The archive has no more documents than there are
    insertions or products, every document is one of the insertions, and
    when the names are distinct the documents are exactly the insertions
    in input order.  Every other entry is a folder that JSZip has added
    for an inserted name: it ends with a slash and starts that name. *)
Theorem archive_entries_follow_input {L : PDFKit}
    (body : value) (items : list value) (o : value) (console : list line)
    (zip : archive) :
  get body "products" = Ok (VArr items) ->
  get body "options" = Ok o ->
  handler body = (console, send_zip zip) ->
  exists inserted : list insertion,
    zip = fold_left insert inserted []
    /\ StronglySorted lt (map index inserted)
    /\ (forall x, In x inserted ->
          exists q, nth_error items (index x) = Some q /\
            generateHangTagPDF q (or_empty o) = Ok (content x) /\
            filename q (index x) = Ok (name x))
    /\ List.length (documents zip) <= List.length inserted
    /\ List.length inserted <= List.length items
    /\ (forall n d, In (n, pdf_file d) zip ->
          exists x, In x inserted /\ name x = n /\ content x = d)
    /\ (forall n, In (n, folder) zip ->
          exists x, In x inserted /\ ends_with_slash n = true
                    /\ Str.startsWith (name x) n = true)
    /\ (NoDup (map name inserted) ->
          documents zip = map (fun x => (name x, content x)) inserted).
Proof.
  intros Hp Ho Hh.
  destruct (handler_sends _ _ _ _ _ Hp Ho Hh) as [console' [Hproc _]].
  destruct (process_ok _ _ _ _ _ _ _ _ Hproc) as [Hzip _].
  exists (rendered items (or_empty o) 0).
  split; [exact Hzip|]. split; [apply rendered_sorted|].
  split; [|split; [|split; [|split; [|split]]]].
  - intros x Hx. apply in_rendered in Hx.
    destruct Hx as [j [q [Hj H]]]. simpl in Hj, H. rewrite Hj. now exists q.
  - rewrite Hzip. apply (length_inserted _ []).
  - apply length_rendered.
  - intros n d Hin. rewrite Hzip in Hin. apply in_inserted in Hin.
    destruct Hin as [[]|H]. exact H.
  - intros n Hin. rewrite Hzip in Hin. apply in_inserted_folder in Hin.
    destruct Hin as [[]|H]. exact H.
  - intros Hnd. rewrite Hzip. rewrite inserted_fresh; [reflexivity|exact Hnd|].
    intros x Hx. split; [|intros []]. apply in_rendered in Hx.
    destruct Hx as [j [q [_ [_ [_ Hname]]]]].
    exact (filename_is_no_folder _ _ _ Hname).
Qed.

Lemma archive_entries_follow_input_witness :
  exists inserted : list insertion,
    sent (handler (request [bad_tags; plain])) = fold_left insert inserted []
    /\ StronglySorted lt (map index inserted)
    /\ (forall x, In x inserted ->
          exists q, nth_error [bad_tags; plain] (index x) = Some q /\
            generateHangTagPDF q (or_empty VUndefined) = Ok (content x) /\
            filename q (index x) = Ok (name x))
    /\ List.length (documents (sent (handler (request [bad_tags; plain]))))
       <= List.length inserted
    /\ List.length inserted <= List.length [bad_tags; plain]
    /\ (forall n d,
          In (n, pdf_file d) (sent (handler (request [bad_tags; plain]))) ->
          exists x, In x inserted /\ name x = n /\ content x = d)
    /\ (forall n,
          In (n, folder) (sent (handler (request [bad_tags; plain]))) ->
          exists x, In x inserted /\ ends_with_slash n = true
                    /\ Str.startsWith (name x) n = true)
    /\ (NoDup (map name inserted) ->
          documents (sent (handler (request [bad_tags; plain])))
          = map (fun x => (name x, content x)) inserted).
Proof.
  apply (archive_entries_follow_input (L := pdfkit)
           (request [bad_tags; plain]) [bad_tags; plain] VUndefined
           (fst (handler (request [bad_tags; plain])))
           (sent (handler (request [bad_tags; plain])))).
  - reflexivity.
  - reflexivity.
  - vm_compute. reflexivity.
Defined.

(** C7, as the claim has it, fails: for the one product with [sku] "A/B"
    the archive has two entries, the folder "A/" that JSZip adds and the
    document "A/B-hangtag.pdf"; the folder is the document of no
    product. *)
Lemma slash_in_identifier_adds_a_folder :
  sent (handler (request [slashed]))
  = [("A/", folder); ("A/B-hangtag.pdf", pdf_file (page slashed))]
  /\ generateHangTagPDF slashed VUndefined = Ok (page slashed)
  /\ List.length (sent (handler (request [slashed]))) = 2
  /\ List.length [slashed] = 1.
Proof. repeat split; vm_compute; reflexivity. Qed.

(** C4, as the code has it.  The entry of a rendered product is named
    identifier + "-hangtag.pdf", the identifier being the text of the
    record's [sku] when that is truthy, else of its [handle] when that is
    truthy, else "product-" followed by the position in the list counted
    from 1.  [Variant SKU] is not consulted: a record with neither [sku]
    nor [handle] gets the synthesized name. *)
Theorem entry_name_of_rendered_product {L : PDFKit}
    (q o : value) (i : nat) (zip zip' : archive) :
  try_product q o i zip = Ok zip' ->
  exists d id,
    generateHangTagPDF q o = Ok d
    /\ zip' = file (id ++ "-hangtag.pdf") d zip
    /\ names_entry q i id
    /\ (prop q "sku" = VUndefined -> prop q "handle" = VUndefined ->
        id = synthesized i).
Proof.
  intros H. destruct (try_product_ok _ _ _ _ _ H) as [d [n [Hd [Hn Hz]]]].
  exists d. revert Hn. unfold filename, names_entry, prop.
  destruct (get q "sku") as [s|x]; simpl; [|discriminate].
  destruct (truthy s) eqn:Es; simpl.
  - rewrite Es. simpl. destruct (to_string s) as [id|x]; simpl; [|discriminate].
    intros Hn. inversion Hn; subst n. exists id. repeat split; auto.
    intros ->. discriminate.
  - destruct (get q "handle") as [h|x]; simpl; [|discriminate].
    destruct (truthy h) eqn:Eh; simpl.
    + destruct (to_string h) as [id|x]; simpl; [|discriminate].
      intros Hn. inversion Hn; subst n. exists id. repeat split; auto.
      intros _ ->. discriminate.
    + intros Hn. inversion Hn; subst n. exists (synthesized i).
      repeat split; auto.
Qed.

Lemma entry_name_of_rendered_product_witness :
  exists d id,
    generateHangTagPDF variant_only VUndefined = Ok d
    /\ sent (handler (request [variant_only]))
       = file (id ++ "-hangtag.pdf") d []
    /\ names_entry variant_only 0 id
    /\ (prop variant_only "sku" = VUndefined ->
        prop variant_only "handle" = VUndefined -> id = synthesized 0).
Proof.
  apply (entry_name_of_rendered_product (L := pdfkit) variant_only VUndefined
           0 [] (sent (handler (request [variant_only])))).
  vm_compute. reflexivity.
Defined.

(** C4, as the claim has it, fails: a record that carries only
    [Variant SKU] = "ABC-1" renders, and its entry is named
    "product-1-hangtag.pdf", not "ABC-1-hangtag.pdf". *)
Lemma variant_sku_is_not_in_the_entry_name :
  entry_names (handler (request [variant_only]))
  = Some ["product-1-hangtag.pdf"]
  /\ entry_names (handler (request [variant_only]))
     <> Some ["ABC-1" ++ "-hangtag.pdf"].
Proof.
  split; [vm_compute; reflexivity|].
  vm_compute. discriminate.
Qed.

End BatchClaims.

(* ===================================================================== *)
(** * One tag: extraction and drawing *)
(* ===================================================================== *)

Section TagFacts.

Import Num JS Server Batch Tag Examples.

Context {L : PDFKit}.

Local Open Scope string_scope.
Local Open Scope nat_scope.

Lemma extract_ok (p : value) (f : fields) :
  extract p = Ok f ->
  isRecon_of p = Ok (isRecon f)
  /\ price_of p = Ok (price f)
  /\ comparePrice_of p = Ok (comparePrice f)
  /\ title_of p = Ok (title f)
  /\ vendor_of p = Ok (vendor f)
  /\ sku_of p = Ok (sku f)
  /\ exists body m,
       bodyHtml_of p = Ok body /\ match_ body re_includes = Ok m /\
       includesText f = includes_text m.
Proof.
  unfold extract.
  destruct (isRecon_of p) as [r|x]; simpl; [|discriminate].
  destruct (price_of p) as [pr|x]; simpl; [|discriminate].
  destruct (comparePrice_of p) as [cp|x]; simpl; [|discriminate].
  destruct (title_of p) as [t|x]; simpl; [|discriminate].
  destruct (vendor_of p) as [v|x]; simpl; [|discriminate].
  destruct (sku_of p) as [s|x]; simpl; [|discriminate].
  destruct (bodyHtml_of p) as [b|x]; simpl; [|discriminate].
  destruct (match_ b re_includes) as [m|x] eqn:Em; simpl; [|discriminate].
  intros H. inversion H; subst f; simpl. repeat split. exists b, m. auto.
Qed.

(** *** The parts of the drawing *)

Lemma set_standard_font (name : string) (doc : document) :
  is_standard_font name = true ->
  set_font name doc = Ok (doc ++ [font name])%list.
Proof. intros H. unfold set_font. now rewrite H. Qed.

(** The font of the includes header is not a standard font. *)
Lemma set_font_of_the_header (doc : document) :
  set_font "Helvetica-Bold-Oblique" doc
  = Throw (enoent "Helvetica-Bold-Oblique").
Proof. reflexivity. Qed.

Lemma lay_out_ok (t : value) (x y : number) (o : text_options)
    (doc doc' : document) :
  lay_out t x y o doc = Ok doc' ->
  doc' = (doc ++ [text t x y o])%list
  /\ layout doc (text t x y o) = None
  /\ exists s, to_string t = Ok s.
Proof.
  unfold lay_out. destruct (to_string t) as [s|e]; simpl; [|discriminate].
  destruct (layout doc (text t x y o)) as [e|]; [discriminate|].
  intros H. inversion H. eauto.
Qed.

#[local] Arguments set_font : simpl never.
#[local] Arguments lay_out : simpl never.
#[local] Arguments size_option : simpl never.
#[local] Arguments toFixed2 : simpl never.
#[local] Arguments of_Z : simpl never.
#[local] Arguments of_dec : simpl never.
#[local] Arguments add : simpl never.
#[local] Arguments Num.min : simpl never.
#[local] Arguments gtb : simpl never.

Lemma draw_head_ok (f : fields) (doc doc' : document) :
  draw_head f doc = Ok doc' ->
  exists vendorUpper model,
    toUpperCase (vendor f) = Ok vendorUpper
    /\ to_string (sku f) = Ok model
    /\ doc' = (doc ++ head_calls vendorUpper model)%list.
Proof.
  unfold draw_head, emit, draw_text. cbn [bind].
  rewrite set_standard_font by reflexivity. cbn [bind].
  destruct (toUpperCase (vendor f)) as [vu|e]; cbn [bind]; [|discriminate].
  rewrite set_standard_font by reflexivity. cbn [bind].
  destruct (to_string (sku f)) as [m|e]; cbn [bind to_string];
    [|discriminate].
  intros H. inversion H. exists vu, m. repeat split.
  unfold head_calls. now rewrite <- !app_assoc.
Qed.

Lemma draw_title_ok (f : fields) (o : value) (doc doc' : document) :
  draw_title f o doc = Ok doc' ->
  exists titleSize,
    size_option o "titleSize" 11 = Ok titleSize
    /\ (exists s, to_string (title f) = Ok s)
    /\ doc' = (doc ++ title_calls f titleSize)%list.
Proof.
  unfold draw_title, emit, draw_text.
  destruct (size_option o "titleSize" 11) as [ts|e]; cbn [bind];
    [|discriminate].
  rewrite set_standard_font by reflexivity. cbn [bind].
  match goal with
  | |- context [lay_out ?t ?x ?y ?opt ?d] =>
      destruct (lay_out t x y opt d) as [d1|e] eqn:El
  end; cbn [bind to_string]; [|discriminate].
  apply lay_out_ok in El. destruct El as [-> [_ Hs]].
  intros H. inversion H. exists ts. repeat split; [exact Hs|].
  unfold title_calls, title_options. now rewrite <- !app_assoc.
Qed.

(** The includes section never gets beyond its font. *)
Lemma draw_includes_throws (t : string) (y : number) (doc : document) :
  t <> "" ->
  draw_includes t y doc = Throw (enoent "Helvetica-Bold-Oblique").
Proof.
  intros Ht. unfold draw_includes.
  destruct (String.eqb t "") eqn:E.
  - apply String.eqb_eq in E. contradiction.
  - reflexivity.
Qed.

Lemma draw_includes_ok (t : string) (y : number) (doc : document)
    (dy : document * number) :
  draw_includes t y doc = Ok dy -> t = "" /\ dy = (doc, y).
Proof.
  destruct (String.eqb t "") eqn:E.
  - apply String.eqb_eq in E. subst t. cbn. intros H. now inversion H.
  - rewrite draw_includes_throws; [discriminate|].
    intros ->. discriminate E.
Qed.

Lemma draw_price_ok (f : fields) (o : value) (y : number)
    (doc : document) (dy : document * number) :
  draw_price f o y doc = Ok dy ->
  exists priceSize,
    size_option o "priceSize" 24 = Ok priceSize
    /\ dy = ((doc ++ [fontSize (Num.min priceSize (of_Z 28));
                      font "Helvetica-Bold"; fillColor "black";
                      text (VStr ("$" ++ toFixed2 (price f))) (of_Z 30) y
                        (boxed 134 "center")])%list,
             add y (add (Num.min priceSize (of_Z 28)) (of_Z 2))).
Proof.
  unfold draw_price, emit.
  destruct (size_option o "priceSize" 24) as [ps|e]; cbn [bind];
    [|discriminate].
  rewrite set_standard_font by reflexivity. cbn [bind].
  match goal with
  | |- context [lay_out ?t ?x ?y' ?opt ?d] =>
      destruct (lay_out t x y' opt d) as [d1|e] eqn:El
  end; cbn [bind]; [|discriminate].
  apply lay_out_ok in El. destruct El as [-> _].
  intros H. inversion H. exists ps. split; [reflexivity|].
  now rewrite <- !app_assoc.
Qed.

Lemma draw_msrp_ok (f : fields) (y : number) (doc doc' : document) :
  draw_msrp (price f) (comparePrice f) y doc = Ok doc' ->
  doc' = (doc ++ msrp_calls f y)%list.
Proof.
  unfold draw_msrp, msrp_calls, emit.
  destruct (gtb (comparePrice f) (price f) && gtb (comparePrice f) zero).
  - cbn [bind]. rewrite set_standard_font by reflexivity. cbn [bind].
    intros H. apply lay_out_ok in H. destruct H as [-> _].
    now rewrite <- !app_assoc.
  - intros H. inversion H. now rewrite app_nil_r.
Qed.

Lemma draw_recon_ok (f : fields) (doc doc' : document) :
  draw_recon (isRecon f) (sku f) doc = Ok doc' ->
  doc' = (doc ++ recon_calls f)%list.
Proof.
  unfold draw_recon, recon_calls, emit, draw_text.
  destruct (truthy (isRecon f)).
  - cbn [bind]. rewrite set_standard_font by reflexivity.
    cbn [bind to_string].
    destruct (to_string (sku f)) as [s|e]; cbn [bind]; [|discriminate].
    intros H. inversion H. now rewrite <- !app_assoc.
  - intros H. inversion H. now rewrite app_nil_r.
Qed.

(** A document that has been drawn to its end: its product has no
    includes text, and its calls are those of the five other parts. *)
Lemma generate_ok (p o : value) (doc : document) :
  generateHangTagPDF p o = Ok doc ->
  exists f vendorUpper model titleSize priceSize,
    extract p = Ok f
    /\ toUpperCase (vendor f) = Ok vendorUpper
    /\ to_string (sku f) = Ok model
    /\ size_option (or_empty o) "titleSize" 11 = Ok titleSize
    /\ size_option (or_empty o) "priceSize" 24 = Ok priceSize
    /\ includesText f = ""
    /\ doc = tag_calls f vendorUpper model titleSize priceSize.
Proof.
  unfold generateHangTagPDF.
  destruct (extract p) as [f|x] eqn:Ef; cbn [bind]; [|discriminate].
  destruct (draw_head f []) as [d1|x] eqn:E1; cbn [bind]; [|discriminate].
  destruct (draw_title f (or_empty o) d1) as [d2|x] eqn:E2; cbn [bind];
    [|discriminate].
  destruct (draw_includes (includesText f) (of_Z 175) d2) as [dy|x] eqn:E3;
    cbn [bind]; [|discriminate].
  apply draw_includes_ok in E3. destruct E3 as [Hinc ->]. cbn [fst snd].
  destruct (draw_price f (or_empty o) (of_Z 175) d2) as [dy|x] eqn:E4;
    cbn [bind]; [|discriminate].
  apply draw_price_ok in E4. destruct E4 as [ps [Hps ->]]. cbn [fst snd].
  match goal with
  | |- context [draw_msrp ?a ?b ?y ?d] =>
      destruct (draw_msrp a b y d) as [d5|x] eqn:E5
  end; cbn [bind]; [|discriminate].
  apply draw_msrp_ok in E5. intros E6. apply draw_recon_ok in E6.
  apply draw_head_ok in E1. destruct E1 as [vu [m [Hvu [Hm ->]]]].
  apply draw_title_ok in E2. destruct E2 as [ts [Hts [_ ->]]].
  exists f, vu, m, ts, ps. repeat split; auto.
  subst doc d5. unfold tag_calls, price_calls. cbn [app].
  now rewrite <- !app_assoc.
Qed.

(** A product with an includes text is not drawn to its end. *)
Lemma generate_with_includes (p o : value) (f : fields) :
  extract p = Ok f -> includesText f <> "" ->
  exists e, generateHangTagPDF p o = Throw e.
Proof.
  intros Hf Hinc. destruct (generateHangTagPDF p o) as [doc|e] eqn:E;
    [|eauto].
  apply generate_ok in E. destruct E as [f' [? [? [? [? [Hf' [_ H]]]]]]].
  rewrite Hf in Hf'. inversion Hf'; subst f'.
  destruct H as [_ [_ [_ [H _]]]]. contradiction.
Qed.

(** *** What the parts of the page contain *)

Lemma has_banner_tag (f : fields) (vu : list nat) (m : string)
    (ts ps : number) :
  has_banner (tag_calls f vu m ts ps) = truthy (isRecon f).
Proof.
  unfold has_banner, tag_calls, msrp_calls, recon_calls.
  rewrite !existsb_app.
  destruct (gtb (comparePrice f) (price f) && gtb (comparePrice f) zero);
    destruct (truthy (isRecon f)); reflexivity.
Qed.

Lemma has_msrp_tag (f : fields) (vu : list nat) (m : string)
    (ts ps : number) :
  has_msrp (tag_calls f vu m ts ps)
  = gtb (comparePrice f) (price f) && gtb (comparePrice f) zero.
Proof.
  unfold has_msrp, tag_calls, msrp_calls, recon_calls.
  rewrite !existsb_app.
  destruct (gtb (comparePrice f) (price f) && gtb (comparePrice f) zero);
    destruct (truthy (isRecon f)); reflexivity.
Qed.

(** *** The reconditioned flag *)

Lemma isRecon_flag (p v : value) :
  isRecon_of p = Ok v -> truthy v = recon_flag p.
Proof.
  unfold isRecon_of, recon_flag, prop.
  destruct (get p "tags") as [t|x] eqn:Et; [|discriminate].
  assert (Hs : exists s, get p "sku" = Ok s)
    by (destruct p; simpl in *; try discriminate; eauto).
  assert (Hv : exists s, get p "Variant SKU" = Ok s)
    by (destruct p; simpl in *; try discriminate; eauto).
  destruct Hs as [s ->]. destruct Hv as [w ->]. clear Et. simpl.
  assert (Htail : forall r : result value,
    (r = Ok VUndefined \/ r = Ok (VBool false)) ->
    forall v',
    or_else (or_else r (endsWith_opt s "-R")) (endsWith_opt w "-R") = Ok v' ->
    truthy v' = ends_with_R s || ends_with_R w).
  { intros r Hr v'.
    assert (Hr' : or_else r (endsWith_opt s "-R") = endsWith_opt s "-R")
      by (destruct Hr as [-> | ->]; reflexivity).
    rewrite Hr'. clear.
    destruct s; simpl; try discriminate;
      try (destruct w; simpl; try discriminate; intros H; inversion H;
           reflexivity).
    destruct (Str.endsWith s "-R"); simpl.
    - intros H; inversion H; reflexivity.
    - destruct w; simpl; try discriminate; intros H; inversion H;
        reflexivity. }
  destruct t; simpl; try discriminate.
  - intros H. apply (Htail (Ok VUndefined)); auto.
  - intros H. apply (Htail (Ok VUndefined)); auto.
  - destruct (Str.includes s0 "Recon"); simpl.
    + intros H; inversion H; reflexivity.
    + destruct (Str.includes s0 "recon") eqn:E2; simpl.
      * intros H; inversion H; reflexivity.
      * intros H. apply (Htail (Ok (VBool false))); auto.
  - match goal with
    | |- context [VBool (existsb ?g elems)] => set (has := existsb g elems)
    end.
    match goal with
    | |- context [VBool (existsb ?g elems)] => set (has' := existsb g elems)
    end.
    destruct has; simpl.
    + intros H; inversion H; reflexivity.
    + destruct has'; simpl.
      * intros H; inversion H; reflexivity.
      * intros H. apply (Htail (Ok (VBool false))); auto.
Qed.

End TagFacts.

(* ===================================================================== *)
(** * One tag: the claims *)
(* ===================================================================== *)

Section TagClaims.

Import Num JS Server Batch Tag Examples.

Local Open Scope string_scope.
Local Open Scope nat_scope.

(** C6, as the code has it.  A rendered document has the reconditioned
    banner exactly when the flag is true, and the flag is true exactly
    when [tags] mentions "Recon" or "recon", or [sku] ends with "-R", or
    [Variant SKU] ends with "-R" (both keys are tested, whichever is the
    identifier).  With no tags and neither key ending in "-R" the banner
    is absent; when present it carries "Factory Reconditioned Tool". *)
Theorem banner_iff_recon_flag {L : PDFKit} (p o : value) (doc : document) :
  generateHangTagPDF p o = Ok doc ->
  has_banner doc = recon_flag p
  /\ (has_banner doc = true ->
      In (text (VStr "Factory Reconditioned Tool") (of_Z 8) (of_Z 248)
            at_position) doc)
  /\ (prop p "tags" = VUndefined ->
      ends_with_R (prop p "sku") = false ->
      ends_with_R (prop p "Variant SKU") = false ->
      has_banner doc = false).
Proof.
  intros H. destruct (generate_ok _ _ _ H) as [f [vu [m [ts [ps Hd]]]]].
  destruct Hd as [Hf [_ [_ [_ [_ [_ ->]]]]]].
  destruct (extract_ok _ _ Hf) as [Hr _].
  pose proof (isRecon_flag _ _ Hr) as Hflag.
  rewrite has_banner_tag. split; [exact Hflag|split].
  - intros Ht. unfold tag_calls.
    apply in_or_app. right. apply in_or_app. right. apply in_or_app. right.
    apply in_or_app. right. unfold recon_calls. rewrite Ht. simpl. tauto.
  - intros Ht Hs Hv. rewrite Hflag. unfold recon_flag.
    rewrite Ht, Hs, Hv. reflexivity.
Qed.

Lemma banner_iff_recon_flag_witness :
  has_banner (page anonymous) = recon_flag anonymous
  /\ (has_banner (page anonymous) = true ->
      In (text (VStr "Factory Reconditioned Tool") (of_Z 8) (of_Z 248)
            at_position) (page anonymous))
  /\ (prop anonymous "tags" = VUndefined ->
      ends_with_R (prop anonymous "sku") = false ->
      ends_with_R (prop anonymous "Variant SKU") = false ->
      has_banner (page anonymous) = false).
Proof.
  apply (banner_iff_recon_flag (L := pdfkit) anonymous VUndefined
           (page anonymous)).
  vm_compute. reflexivity.
Defined.

(** C6, as the claim has it, fails: a record with [sku] = "ABC" and
    [Variant SKU] = "XYZ-R" has no tags and the identifier "ABC", which
    does not end with "-R"; yet its document has the banner. *)
Lemma banner_with_identifier_not_ending_in_R :
  prop two_skus "tags" = VUndefined
  /\ identifier two_skus = VStr "ABC"
  /\ recon_flag_of_identifier two_skus = false
  /\ generateHangTagPDF two_skus VUndefined = Ok (page two_skus)
  /\ has_banner (page two_skus) = true.
Proof.
  repeat split; vm_compute; reflexivity.
Qed.

(** C9.  For a product with neither [sku] nor [Variant SKU] the page
    carries the label "Model " with nothing after it, and the right-hand
    text of the banner, when the banner is drawn, is the empty string;
    the synthesized "product-N" only names the archive entry (when there
    is no [handle] either). *)
Theorem page_identifier_is_empty_without_sku {L : PDFKit}
    (p o : value) (doc : document) (i : nat) :
  prop p "sku" = VUndefined ->
  prop p "Variant SKU" = VUndefined ->
  generateHangTagPDF p o = Ok doc ->
  In (text (VStr "Model ") (of_Z 100) (of_Z 20) (boxed 86 "right")) doc
  /\ (has_banner doc = true ->
      In (text (VStr "") (of_Z 130) (of_Z 248) at_position) doc)
  /\ (forall t, In (text t (of_Z 130) (of_Z 248) at_position) doc ->
      t = VStr "")
  /\ (prop p "handle" = VUndefined ->
      filename p i = Ok (synthesized i ++ "-hangtag.pdf")).
Proof.
  intros Hs Hv H. destruct (generate_ok _ _ _ H) as [f [vu [m [ts [ps Hd]]]]].
  destruct Hd as [Hf [_ [Hm [_ [_ [_ ->]]]]]].
  destruct (extract_ok _ _ Hf) as [Hr [_ [_ [_ [_ [Hsku _]]]]]].
  assert (Hget : get p "sku" = Ok VUndefined /\
                 get p "Variant SKU" = Ok VUndefined /\
                 exists h, get p "handle" = Ok h).
  { unfold sku_of, prop in *.
    destruct p; simpl in *; try discriminate; rewrite ?Hs, ?Hv; eauto. }
  destruct Hget as [Gs [Gv [h Gh]]].
  assert (Esku : sku f = VStr "").
  { unfold sku_of in Hsku. rewrite Gs, Gv in Hsku. simpl in Hsku.
    now inversion Hsku. }
  rewrite Esku in Hm. simpl in Hm. inversion Hm; subst m. clear Hm.
  rewrite has_banner_tag. unfold tag_calls. repeat split.
  - apply in_or_app. left. simpl. tauto.
  - intros Ht. apply in_or_app. right. apply in_or_app. right.
    apply in_or_app. right. apply in_or_app. right.
    unfold recon_calls. rewrite Ht, Esku. simpl. tauto.
  - intros t Hin.
    apply in_app_or in Hin. destruct Hin as [Hin|Hin].
    { simpl in Hin.
      repeat (destruct Hin as [Hin|Hin]; [discriminate Hin|]).
      destruct Hin. }
    apply in_app_or in Hin. destruct Hin as [Hin|Hin].
    { simpl in Hin.
      repeat (destruct Hin as [Hin|Hin]; [discriminate Hin|]).
      destruct Hin. }
    apply in_app_or in Hin. destruct Hin as [Hin|Hin].
    { simpl in Hin.
      repeat (destruct Hin as [Hin|Hin]; [discriminate Hin|]).
      destruct Hin. }
    apply in_app_or in Hin. destruct Hin as [Hin|Hin].
    { unfold msrp_calls in Hin.
      destruct (gtb (comparePrice f) (price f) && gtb (comparePrice f) zero);
        simpl in Hin; [|destruct Hin].
      repeat (destruct Hin as [Hin|Hin]; [discriminate Hin|]).
      destruct Hin. }
    unfold recon_calls in Hin.
    destruct (truthy (isRecon f)); simpl in Hin; [|destruct Hin].
    destruct Hin as [Hin|[Hin|[Hin|[Hin|[Hin|[Hin|[Hin|Hin]]]]]]];
      try discriminate Hin.
    + rewrite Esku in Hin. now inversion Hin.
    + destruct Hin.
  - intros Hh. unfold filename. unfold prop in Hh. rewrite Gh in Hh.
    subst h. rewrite Gs, Gh. reflexivity.
Qed.

Lemma page_identifier_is_empty_without_sku_witness :
  In (text (VStr "Model ") (of_Z 100) (of_Z 20) (boxed 86 "right"))
    (page anonymous)
  /\ (has_banner (page anonymous) = true ->
      In (text (VStr "") (of_Z 130) (of_Z 248) at_position) (page anonymous))
  /\ (forall t,
        In (text t (of_Z 130) (of_Z 248) at_position) (page anonymous) ->
        t = VStr "")
  /\ (prop anonymous "handle" = VUndefined ->
      filename anonymous 0 = Ok (synthesized 0 ++ "-hangtag.pdf")).
Proof.
  apply (page_identifier_is_empty_without_sku (L := pdfkit) anonymous
           VUndefined (page anonymous) 0).
  - reflexivity.
  - reflexivity.
  - vm_compute. reflexivity.
Defined.

End TagClaims.

(* ===================================================================== *)
(** * One tag: prices and extraction *)
(* ===================================================================== *)

Section PriceClaims.

Import Num JS Server Batch Tag Examples.

Local Open Scope string_scope.
Local Open Scope nat_scope.

Lemma get_prop (p : value) (k : string) :
  nullish p = false -> get p k = Ok (prop p k).
Proof. unfold prop. destruct p; simpl; try discriminate; reflexivity. Qed.

Lemma first_truthy (p : value) (k1 k2 : string) (d : value) :
  nullish p = false ->
  or_else (or_else (get p k1) (get p k2)) (Ok d)
  = Ok (pick (prop p k1) (prop p k2) d).
Proof.
  intros H. rewrite !get_prop by exact H. unfold pick. simpl.
  destruct (truthy (prop p k1)) eqn:E1; simpl; [now rewrite E1|].
  destruct (truthy (prop p k2)) eqn:E2; simpl; reflexivity.
Qed.

Lemma scalar_pick (a b : value) :
  scalar a = true -> scalar b = true -> scalar (pick a b (VNum zero)) = true.
Proof.
  intros Ha Hb. unfold pick.
  destruct (truthy a); [exact Ha|]. destruct (truthy b); [exact Hb|reflexivity].
Qed.

Lemma parseFloat_scalar (v : value) :
  scalar v = true -> exists n, parseFloat v = Ok n.
Proof.
  unfold parseFloat. destruct v; simpl; try discriminate; eauto.
Qed.

Lemma isRecon_total (p : value) :
  nullish p = false ->
  nullish (prop p "tags") || is_string (prop p "tags")
    || is_array (prop p "tags") = true ->
  nullish (prop p "sku") || is_string (prop p "sku") = true ->
  nullish (prop p "Variant SKU") || is_string (prop p "Variant SKU") = true ->
  exists v, isRecon_of p = Ok v.
Proof.
  intros Hp Ht Hs Hv. unfold isRecon_of. rewrite !get_prop by exact Hp.
  simpl.
  assert (Htail : forall r : result value,
    (r = Ok VUndefined \/ r = Ok (VBool false)) ->
    exists v,
      or_else (or_else r (endsWith_opt (prop p "sku") "-R"))
        (endsWith_opt (prop p "Variant SKU") "-R") = Ok v).
  { intros r Hr.
    assert (Hr' : or_else r (endsWith_opt (prop p "sku") "-R")
                  = endsWith_opt (prop p "sku") "-R")
      by (destruct Hr as [-> | ->]; reflexivity).
    rewrite Hr'.
    destruct (prop p "sku"); simpl in *; try discriminate;
      destruct (prop p "Variant SKU"); simpl in *; try discriminate;
      try (destruct (Str.endsWith _ "-R"); simpl); eauto. }
  destruct (prop p "tags") as [| |b|n|s|elems|props]; simpl in *;
    try discriminate.
  - apply (Htail (Ok VUndefined)); auto.
  - apply (Htail (Ok VUndefined)); auto.
  - destruct (Str.includes s "Recon"); simpl; eauto.
    destruct (Str.includes s "recon"); simpl; eauto.
    exact (Htail (Ok (VBool false)) (or_intror eq_refl)).
  - match goal with
    | |- context [VBool (existsb ?g elems)] => destruct (existsb g elems)
    end; simpl; eauto.
    match goal with
    | |- context [VBool (existsb ?g elems)] => destruct (existsb g elems)
    end; simpl; eauto.
    exact (Htail (Ok (VBool false)) (or_intror eq_refl)).
Qed.

Lemma body_is_string (a b : value) :
  negb (truthy a) || is_string a = true ->
  negb (truthy b) || is_string b = true ->
  exists s, pick a b (VStr "") = VStr s.
Proof.
  unfold pick. intros Ha Hb.
  destruct (truthy a) eqn:Ea.
  - destruct a; simpl in *; try discriminate; eauto.
  - destruct (truthy b) eqn:Eb; [|eauto].
    destruct b; simpl in *; try discriminate; eauto.
Qed.

(** C3, as the code has it.  Extraction completes, without throwing, on
    every record whose fields have the types the code expects: [tags]
    absent, a String or an array; [sku] and [Variant SKU] absent or
    Strings; the four price fields not arrays or objects; [body_html] and
    [Body (HTML)] falsy or Strings.  Each field then has a value, and a
    field whose keys are all absent has its fallback: "Product", "Brand",
    the empty identifier, price 0, compare price 0, no includes text, and
    a flag that is not set. *)
Theorem extraction_succeeds_on_typed_records (p : value) :
  well_typed p = true ->
  exists f,
    extract p = Ok f
    /\ title f = pick (prop p "title") (prop p "Title") (VStr "Product")
    /\ vendor f = pick (prop p "vendor") (prop p "Vendor") (VStr "Brand")
    /\ sku f = pick (prop p "sku") (prop p "Variant SKU") (VStr "")
    /\ (prop p "price" = VUndefined -> prop p "Variant Price" = VUndefined ->
        price f = zero)
    /\ (prop p "compare_at_price" = VUndefined ->
        prop p "Variant Compare At Price" = VUndefined ->
        comparePrice f = zero)
    /\ (prop p "body_html" = VUndefined -> prop p "Body (HTML)" = VUndefined ->
        includesText f = "")
    /\ (prop p "tags" = VUndefined -> prop p "sku" = VUndefined ->
        prop p "Variant SKU" = VUndefined -> truthy (isRecon f) = false).
Proof.
  unfold well_typed. intros H.
  repeat (apply andb_prop in H; let H' := fresh "W" in destruct H as [H H']).
  apply negb_true_iff in H.
  destruct (isRecon_total p H W7 W6 W5) as [r Hr].
  destruct (parseFloat_scalar _ (scalar_pick _ _ W4 W3)) as [pr Hpr].
  destruct (parseFloat_scalar _ (scalar_pick _ _ W2 W1)) as [cp Hcp].
  destruct (body_is_string _ _ W0 W) as [body Hbody].
  pose proof (isRecon_flag _ _ Hr) as Hflag.
  unfold extract, price_of, comparePrice_of, title_of, vendor_of, sku_of,
    bodyHtml_of.
  rewrite Hr, !first_truthy by exact H. simpl.
  rewrite Hpr, Hcp, Hbody. simpl.
  eexists. split; [reflexivity|]. simpl. repeat split.
  - intros E1 E2. rewrite E1, E2 in Hpr. vm_compute in Hpr. now inversion Hpr.
  - intros E1 E2. rewrite E1, E2 in Hcp. vm_compute in Hcp. now inversion Hcp.
  - intros E1 E2. rewrite E1, E2 in Hbody. inversion Hbody; subst body.
    reflexivity.
  - intros E1 E2 E3. rewrite Hflag. unfold recon_flag.
    rewrite E1, E2, E3. reflexivity.
Qed.

Lemma extraction_succeeds_on_typed_records_witness :
  exists f,
    extract plain = Ok f
    /\ title f = pick (prop plain "title") (prop plain "Title") (VStr "Product")
    /\ vendor f
       = pick (prop plain "vendor") (prop plain "Vendor") (VStr "Brand")
    /\ sku f = pick (prop plain "sku") (prop plain "Variant SKU") (VStr "")
    /\ (prop plain "price" = VUndefined ->
        prop plain "Variant Price" = VUndefined -> price f = zero)
    /\ (prop plain "compare_at_price" = VUndefined ->
        prop plain "Variant Compare At Price" = VUndefined ->
        comparePrice f = zero)
    /\ (prop plain "body_html" = VUndefined ->
        prop plain "Body (HTML)" = VUndefined -> includesText f = "")
    /\ (prop plain "tags" = VUndefined -> prop plain "sku" = VUndefined ->
        prop plain "Variant SKU" = VUndefined -> truthy (isRecon f) = false).
Proof.
  apply (extraction_succeeds_on_typed_records plain). reflexivity.
Defined.

(** C3, as the claim has it, fails: on a record whose [tags] is the number
    5, extraction throws a TypeError ([tags.includes] is not a function). *)
Lemma extraction_throws_on_numeric_tags :
  extract bad_tags = Throw TypeError.
Proof. reflexivity. Qed.

(** C2, at the failing input: for a record whose [price] is "abc" the
    extracted price is NaN, not 0, and the tag shows "$NaN". *)
Theorem nonnumeric_price_is_NaN :
  price_of priced_abc = Ok nan
  /\ generateHangTagPDF priced_abc VUndefined = Ok (page priced_abc)
  /\ In (text (VStr "$NaN") (of_Z 30) (of_Z 175) (boxed 134 "center"))
       (page priced_abc).
Proof.
  split; [reflexivity|]. split; [vm_compute; reflexivity|].
  vm_compute. repeat (first [left; reflexivity | right]).
Qed.

(** C8, as the code has it.  A rendered document has the MSRP line exactly
    when comparePrice > price and comparePrice > 0; the line is the only
    struck-through text and reads "MSRP $" followed by
    [comparePrice.toFixed(2)], which for a compare price below 10^21 is a
    number with exactly two decimal places. *)
Theorem msrp_line_iff_compare_exceeds_price {L : PDFKit}
    (p o : value) (doc : document) (f : fields) :
  generateHangTagPDF p o = Ok doc ->
  extract p = Ok f ->
  has_msrp doc = gtb (comparePrice f) (price f) && gtb (comparePrice f) zero
  /\ (forall c, In c doc -> is_struck c = true ->
        exists y,
          c = text (VStr ("MSRP $" ++ toFixed2 (comparePrice f))) (of_Z 30) y
                msrp_options)
  /\ (has_msrp doc = true -> below_1e21 (comparePrice f) = true ->
        exists a b,
          toFixed2 (comparePrice f) = a ++ String "." b
          /\ a <> "" /\ all_digits a = true /\ all_digits b = true
          /\ String.length b = 2).
Proof.
  intros H Hf. destruct (generate_ok _ _ _ H) as [f' [vu [m [ts [ps Hd]]]]].
  destruct Hd as [Hf' [_ [_ [_ [_ [_ ->]]]]]].
  rewrite Hf in Hf'. inversion Hf'; subst f'. clear Hf'.
  rewrite has_msrp_tag. split; [reflexivity|split].
  - intros c Hin Hc. unfold tag_calls in Hin.
    apply in_app_or in Hin. destruct Hin as [Hin|Hin].
    { simpl in Hin.
      repeat (destruct Hin as [Hin|Hin]; [subst c; discriminate Hc|]).
      destruct Hin. }
    apply in_app_or in Hin. destruct Hin as [Hin|Hin].
    { simpl in Hin.
      repeat (destruct Hin as [Hin|Hin]; [subst c; discriminate Hc|]).
      destruct Hin. }
    apply in_app_or in Hin. destruct Hin as [Hin|Hin].
    { simpl in Hin.
      repeat (destruct Hin as [Hin|Hin]; [subst c; discriminate Hc|]).
      destruct Hin. }
    apply in_app_or in Hin. destruct Hin as [Hin|Hin].
    { unfold msrp_calls in Hin.
      destruct (gtb (comparePrice f) (price f) && gtb (comparePrice f) zero);
        simpl in Hin; [|destruct Hin].
      destruct Hin as [Hin|[Hin|[Hin|[Hin|Hin]]]];
        try (subst c; discriminate Hc); [|destruct Hin].
      subst c. eexists. reflexivity. }
    unfold recon_calls in Hin.
    destruct (truthy (isRecon f)); simpl in Hin; [|destruct Hin].
    repeat (destruct Hin as [Hin|Hin]; [subst c; discriminate Hc|]).
    destruct Hin.
  - intros Hm Hb. apply andb_prop in Hm. destruct Hm as [_ Hpos].
    destruct (comparePrice f) as [s|s| |s m' e]; simpl in *;
      try discriminate.
    destruct s; [discriminate|]. simpl.
    apply negb_true_iff in Hb. rewrite Hb.
    apply two_decimals_shape.
Qed.

Lemma msrp_line_iff_compare_exceeds_price_witness :
  exists f,
    extract discounted = Ok f
    /\ has_msrp (page discounted)
       = gtb (comparePrice f) (price f) && gtb (comparePrice f) zero
    /\ (forall c, In c (page discounted) -> is_struck c = true ->
          exists y,
            c = text (VStr ("MSRP $" ++ toFixed2 (comparePrice f))) (of_Z 30)
                  y msrp_options)
    /\ (has_msrp (page discounted) = true ->
        below_1e21 (comparePrice f) = true ->
          exists a b,
            toFixed2 (comparePrice f) = a ++ String "." b
            /\ a <> "" /\ all_digits a = true /\ all_digits b = true
            /\ String.length b = 2).
Proof.
  eexists. split; [vm_compute; reflexivity|].
  apply (msrp_line_iff_compare_exceeds_price (L := pdfkit) discounted
           VUndefined (page discounted)).
  - vm_compute. reflexivity.
  - vm_compute. reflexivity.
Defined.

(** C8, as the claim has it, fails: with [compare_at_price] = "1e21" and
    [price] = "10" the MSRP line is drawn and reads "MSRP $1e+21", which
    has no decimal places. *)
Lemma msrp_line_without_decimals :
  generateHangTagPDF compared_1e21 VUndefined = Ok (page compared_1e21)
  /\ has_msrp (page compared_1e21) = true
  /\ In (text (VStr "MSRP $1e+21") (of_Z 30) (of_Z 201) msrp_options)
       (page compared_1e21).
Proof.
  split; [vm_compute; reflexivity|]. split; [vm_compute; reflexivity|].
  vm_compute. repeat (first [left; reflexivity | right]).
Qed.

End PriceClaims.

(* ===================================================================== *)
(** * The includes list *)
(* ===================================================================== *)

Section IncludesClaims.

Import Num JS Server Batch Tag Examples Code.

Local Open Scope string_scope.
Local Open Scope nat_scope.

(** A literal word fails where the input does not start with it. *)
Lemma run_word_mismatch {A : Type} (w : string) (rest : Regex.regex) :
  forall (s : string) (cap : option string)
         (k : string -> option string -> option A),
    Str.startsWith_ci s w = false ->
    Regex.run (Regex.word w rest) s cap k = None.
Proof.
  induction w as [|c w IH]; simpl; intros s cap k H; [discriminate|].
  destruct s as [|d s]; [reflexivity|].
  destruct (Str.eqb_ci d c); simpl in H; [|reflexivity].
  now apply IH.
Qed.


(** The pattern matches at the fragment and captures its list. *)
Lemma match_here_fragment (post : string) :
  Regex.match_here re_includes (fragment ++ post)
  = Some (post, Some "Bolt, Case and Manual").
Proof.
  unfold Regex.match_here, re_includes, fragment.
  cbv -[Str.consumed].
  change (Str.consumed ?a ?b)
    with (Str.consumed ("Bolt, Case and Manual" ++ ("<br>" ++ post))
            ("<br>" ++ post)).
  now rewrite consumed_append.
Qed.

#[local] Arguments Str.eqb_ci : simpl never.

(** Computes the comparisons of two given characters. *)
Ltac eval_eqb_ci H :=
  repeat match type of H with
         | context [Str.eqb_ci (Ascii ?a ?b ?c ?d ?e ?f ?g ?h) ?x] =>
             let v := eval vm_compute in
                        (Str.eqb_ci (Ascii a b c d e f g h) x) in
             change (Str.eqb_ci (Ascii a b c d e f g h) x) with v in H
         end.

(** A marker cannot start in the text before the fragment and end in the
    fragment: it lies in the text before. *)
Lemma marker_not_across (t rest : string) :
  t <> "" ->
  Str.startsWith_ci (t ++ "INCLUDES" ++ rest) "INCLUDES" = true ->
  Str.startsWith_ci t "INCLUDES" = true.
Proof.
  intros Ht H.
  destruct t as [|c1 t]; [contradiction|]. clear Ht.
  do 7 (destruct t as [|? t];
        [simpl in H; eval_eqb_ci H;
         repeat match type of H with
                | context [Str.eqb_ci ?c ?x] => destruct (Str.eqb_ci c x)
                end; simpl in H; discriminate H|]).
  simpl in *. 
  repeat match type of H with
         | context [Str.eqb_ci ?c ?x] => destruct (Str.eqb_ci c x)
         end; simpl in *; auto.
Qed.


Lemma exec_unfold (r : Regex.regex) (s : string) :
  Regex.exec r s
  = match Regex.match_here r s with
    | Some (_, cap) => Some cap
    | None =>
        match s with
        | String _ s' => Regex.exec r s'
        | EmptyString => None
        end
    end.
Proof. destruct s; reflexivity. Qed.

(** The first match of the pattern is at the fragment when no marker
    precedes it. *)
Lemma exec_first_marker (pre post : string) :
  Str.includes_ci pre "INCLUDES" = false ->
  Regex.exec re_includes (pre ++ fragment ++ post)
  = Some (Some "Bolt, Case and Manual").
Proof.
  induction pre as [|c pre IH]; intros H.
  - change ("" ++ fragment ++ post) with (fragment ++ post).
    now rewrite exec_unfold, match_here_fragment.
  - change (Str.includes_ci (String c pre) "INCLUDES")
      with (Str.startsWith_ci (String c pre) "INCLUDES"
            || Str.includes_ci pre "INCLUDES") in H.
    apply orb_false_elim in H. destruct H as [Hhere Hrest].
    assert (Hno : Regex.match_here re_includes
                    (String c pre ++ fragment ++ post) = None).
    { unfold Regex.match_here, re_includes. apply run_word_mismatch.
      destruct (Str.startsWith_ci (String c pre ++ fragment ++ post)
                  "INCLUDES") eqn:E; [|reflexivity].
      unfold fragment in E.
      change ("INCLUDES: Bolt, Case and Manual<br>" ++ post)
        with ("INCLUDES" ++ (": Bolt, Case and Manual<br>" ++ post)) in E.
      apply marker_not_across in E; [|discriminate].
      rewrite E in Hhere. discriminate. }
    rewrite exec_unfold, Hno.
    change (String c pre ++ fragment ++ post)
      with (String c (pre ++ fragment ++ post)).
    now apply IH.
Qed.

(** C5, at the failing inputs.  For a product whose [body_html] contains
    "INCLUDES: Bolt, Case and Manual<br>", with no INCLUDES marker (in any
    letter case) in the text before it, lines 96-98 extract the text
    "Bolt, Case and Manual", which lines 146-149 would split into "Bolt",
    "Case" and "Manual".  The program does not get there: the render
    throws, and when the parts before the includes section are drawn the
    exception is that of line 139, where the font "Helvetica-Bold-Oblique"
    is opened as a file that is not there.  No list is built and no tag
    is made. *)
Theorem fragment_is_extracted_but_never_drawn {L : PDFKit}
    (p o : value) (pre post : string) (f : fields) :
  prop p "body_html" = VStr (pre ++ fragment ++ post) ->
  Str.includes_ci pre "INCLUDES" = false ->
  extract p = Ok f ->
  includesText f = "Bolt, Case and Manual"
  /\ includeItems (includesText f) = ["Bolt"; "Case"; "Manual"]
  /\ (exists e, generateHangTagPDF p o = Throw e)
  /\ (forall d1 d2,
        draw_head f [] = Ok d1 -> draw_title f (or_empty o) d1 = Ok d2 ->
        generateHangTagPDF p o = Throw (enoent "Helvetica-Bold-Oblique")).
Proof.
  intros Hbody Hpre Hf.
  destruct (extract_ok _ _ Hf) as [_ [_ [_ [_ [_ [_ Hb]]]]]].
  destruct Hb as [body [m [Hb [Hm Ht]]]].
  assert (Hnn : nullish p = false).
  { destruct p; try reflexivity; discriminate Hb. }
  unfold bodyHtml_of in Hb. rewrite first_truthy in Hb by exact Hnn.
  unfold pick in Hb. rewrite Hbody in Hb.
  assert (Htruthy : truthy (VStr (pre ++ fragment ++ post)) = true)
    by (destruct pre; reflexivity).
  rewrite Htruthy in Hb.
  assert (Eb : body = VStr (pre ++ fragment ++ post)) by congruence.
  subst body. clear Hb.
  unfold match_ in Hm. rewrite exec_first_marker in Hm by exact Hpre.
  inversion Hm; subst m.
  assert (Etext : includesText f = "Bolt, Case and Manual")
    by (rewrite Ht; vm_compute; reflexivity).
  split; [exact Etext|]. split; [rewrite Etext; vm_compute; reflexivity|].
  split.
  - apply (generate_with_includes p o f Hf). rewrite Etext. discriminate.
  - intros d1 d2 H1 H2. unfold generateHangTagPDF. rewrite Hf. cbn [bind].
    rewrite H1. cbn [bind]. rewrite H2. cbn [bind].
    rewrite draw_includes_throws; [reflexivity|].
    rewrite Etext. discriminate.
Qed.

Lemma fragment_is_extracted_but_never_drawn_witness :
  exists f,
    extract (with_body ("<p>Kit</p>" ++ fragment ++ "<p>more</p>")) = Ok f
    /\ includesText f = "Bolt, Case and Manual"
    /\ includeItems (includesText f) = ["Bolt"; "Case"; "Manual"]
    /\ (exists e,
          generateHangTagPDF
            (with_body ("<p>Kit</p>" ++ fragment ++ "<p>more</p>"))
            VUndefined = Throw e)
    /\ (forall d1 d2,
          draw_head f [] = Ok d1 ->
          draw_title f (or_empty VUndefined) d1 = Ok d2 ->
          generateHangTagPDF
            (with_body ("<p>Kit</p>" ++ fragment ++ "<p>more</p>"))
            VUndefined
          = Throw (enoent "Helvetica-Bold-Oblique")).
Proof.
  eexists. split; [vm_compute; reflexivity|].
  apply (fragment_is_extracted_but_never_drawn (L := pdfkit)
           (with_body ("<p>Kit</p>" ++ fragment ++ "<p>more</p>"))
           VUndefined "<p>Kit</p>" "<p>more</p>").
  - reflexivity.
  - reflexivity.
  - vm_compute. reflexivity.
Defined.

(** The product of the specification in a batch: its render throws at
    line 139, the handler logs the error and sends an archive without
    entries. *)
Example fragment_in_a_batch :
  generateHangTagPDF (with_body fragment) VUndefined
  = Throw (enoent "Helvetica-Bold-Oblique")
  /\ handler (request [with_body fragment])
     = ([log_generating 1; log_processing 1 1 "K-1";
         error_generating_pdf "K-1" (enoent "Helvetica-Bold-Oblique");
         log_success],
        send_zip []).
Proof. split; vm_compute; reflexivity. Qed.

(** *** Splitting *)

Lemma split_from_none (r : Regex.regex) (acc : string) (c : ascii)
    (s : string) :
  Regex.match_here r (String c s) = None ->
  Regex.split_from r 0 acc (String c s)
  = Regex.split_from r 0 (acc ++ String c "") s.
Proof. intros H. cbn [Regex.split_from]. now rewrite H. Qed.

Lemma split_from_some (r : Regex.regex) (acc : string) (c : ascii)
    (s rest : string) (cap : option string) (n : nat) :
  Regex.match_here r (String c s) = Some (rest, cap) ->
  String.length (String c s) - String.length rest = S n ->
  Regex.split_from r 0 acc (String c s) = acc :: Regex.split_from r n "" s.
Proof. intros H L. cbn [Regex.split_from]. now rewrite H, L. Qed.

Lemma split_is_split_from (s : string) :
  Regex.split re_separator s = Regex.split_from re_separator 0 "" s.
Proof. destruct s; reflexivity. Qed.

#[local] Arguments Str.is_space : simpl never.
#[local] Arguments comma_or_semicolon : simpl never.

Lemma star_greedy_spaces (w y : string) (cap : option string) :
  all_space w = true ->
  starts_with_space y = false ->
  Regex.star_greedy Str.is_space (w ++ y) (fun s' => Some (s', cap))
  = Some (y, cap).
Proof.
  intros Hw Hy. induction w as [|c w IH].
  - destruct y as [|d y]; [reflexivity|]. simpl in Hy.
    change ("" ++ String d y) with (String d y).
    cbn [Regex.star_greedy]. now rewrite Hy.
  - cbn [all_space] in Hw. apply andb_prop in Hw. destruct Hw as [Hc Hw].
    change (String c w ++ y) with (String c (w ++ y)).
    cbn [Regex.star_greedy]. rewrite Hc. now rewrite IH.
Qed.

(** "and" followed by spaces is a separator, wherever it stands. *)
Lemma and_space_is_a_separator (w y : string) :
  whitespace w = true ->
  starts_with_space y = false ->
  Regex.match_here re_separator ("and" ++ w ++ y) = Some (y, None).
Proof.
  intros Hw Hy. unfold whitespace in Hw.
  destruct w as [|c w]; [discriminate|].
  cbn [negb String.eqb andb all_space] in Hw.
  apply andb_prop in Hw. destruct Hw as [Hc Hw].
  unfold Regex.match_here, re_separator.
  change ("and" ++ String c w ++ y)
    with (String "a" (String "n" (String "d" (String c (w ++ y))))).
  cbn -[Str.is_space Regex.star_greedy]. rewrite Hc.
  now apply star_greedy_spaces.
Qed.

Lemma split_from_skip (s : string) :
  forall acc rest,
    Regex.split_from re_separator (String.length s) acc (s ++ rest)
    = Regex.split_from re_separator 0 acc rest.
Proof.
  induction s as [|c s IH]; intros acc rest; [reflexivity|].
  change (String c s ++ rest) with (String c (s ++ rest)).
  cbn [String.length Regex.split_from]. apply IH.
Qed.

Lemma split_at_and_space (acc w y : string) :
  whitespace w = true ->
  starts_with_space y = false ->
  Regex.split_from re_separator 0 acc ("and" ++ w ++ y)
  = acc :: Regex.split_from re_separator 0 "" y.
Proof.
  intros Hw Hy.
  change ("and" ++ w ++ y) with (String "a" (("nd" ++ w) ++ y)).
  rewrite (split_from_some _ _ _ _ y None (String.length ("nd" ++ w))).
  - now rewrite split_from_skip.
  - now apply and_space_is_a_separator.
  - cbn [String.length]. rewrite !length_append. lia.
Qed.

(** *** What a match consumes *)

Lemma star_greedy_from_k {A : Type} (p : ascii -> bool) (s : string)
    (k : string -> option A) (x : A) :
  Regex.star_greedy p s k = Some x ->
  exists s', k s' = Some x /\ String.length s' <= String.length s.
Proof.
  induction s as [|c s IH]; cbn [Regex.star_greedy]; intros H.
  - exists "". auto.
  - destruct (p c).
    + destruct (Regex.star_greedy p s k) as [y|] eqn:E.
      * inversion H; subst y. destruct (IH eq_refl) as [s' [H1 H2]].
        exists s'. cbn [String.length]. split; [exact H1|lia].
      * exists (String c s). auto.
    + exists (String c s). auto.
Qed.

Lemma star_lazy_from_k {A : Type} (p : ascii -> bool) (s : string)
    (k : string -> option A) (x : A) :
  Regex.star_lazy p s k = Some x ->
  exists s', k s' = Some x /\ String.length s' <= String.length s.
Proof.
  induction s as [|c s IH]; cbn [Regex.star_lazy]; intros H.
  - destruct (k "") eqn:E; [|discriminate]. exists "". rewrite E. auto.
  - destruct (k (String c s)) eqn:E.
    + exists (String c s). rewrite E. auto.
    + destruct (p c); [|discriminate].
      destruct (IH H) as [s' [H1 H2]]. exists s'. cbn [String.length].
      split; [exact H1|lia].
Qed.

(** The result of a match is a result of its continuation, on a rest that
    is not longer than the input; without group the capture is as before. *)
Lemma run_from_k {A : Type} (r : Regex.regex) :
  forall (s : string) (cap : option string)
         (k : string -> option string -> option A) (x : A),
    Regex.run r s cap k = Some x ->
    exists s' cap',
      k s' cap' = Some x /\ String.length s' <= String.length s
      /\ (no_group r = true -> cap' = cap).
Proof.
  induction r as [c|p|r1 IH1 r2 IH2|r1 IH1 r2 IH2|p|p|r1 IH1|r1 IH1|];
    intros s cap k x H; cbn [Regex.run no_group] in *.
  - destruct s as [|d s]; [discriminate|].
    destruct (Str.eqb_ci d c); [|discriminate].
    exists s, cap. cbn [String.length]. auto.
  - destruct s as [|d s]; [discriminate|].
    destruct (p d); [|discriminate].
    exists s, cap. cbn [String.length]. auto.
  - destruct (IH1 _ _ _ _ H) as [s1 [c1 [H1 [L1 G1]]]].
    destruct (IH2 _ _ _ _ H1) as [s2 [c2 [H2 [L2 G2]]]].
    exists s2, c2. repeat split; [exact H2|lia|].
    intros G. apply andb_prop in G. destruct G as [Ga Gb].
    rewrite (G2 Gb). now apply G1.
  - destruct (Regex.run r1 s cap k) as [y|] eqn:E.
    + inversion H; subst y. destruct (IH1 _ _ _ _ E) as [s1 [c1 [H1 [L1 G1]]]].
      exists s1, c1. repeat split; auto.
      intros G. apply andb_prop in G. now apply G1.
    + destruct (IH2 _ _ _ _ H) as [s2 [c2 [H2 [L2 G2]]]].
      exists s2, c2. repeat split; auto.
      intros G. apply andb_prop in G. now apply G2.
  - destruct (star_greedy_from_k _ _ _ _ H) as [s' [H1 H2]].
    exists s', cap. auto.
  - destruct (star_lazy_from_k _ _ _ _ H) as [s' [H1 H2]].
    exists s', cap. auto.
  - destruct (Regex.run r1 s cap k) as [y|] eqn:E.
    + inversion H; subst y. exact (IH1 _ _ _ _ E).
    + exists s, cap. auto.
  - destruct (IH1 _ _ _ _ H) as [s1 [c1 [H1 [L1 _]]]].
    exists s1, (Some (Str.consumed s s1)). repeat split; auto. discriminate.
  - destruct s; [|discriminate]. exists "", cap. auto.
Qed.

(** A separator is at least one character long. *)
Lemma separator_consumes (c : ascii) (s rest : string) (cap : option string) :
  Regex.match_here re_separator (String c s) = Some (rest, cap) ->
  String.length rest <= String.length s.
Proof.
  unfold Regex.match_here, re_separator.
  change (Regex.word "and" (Regex.Plus Str.is_space))
    with (Regex.Cat (Regex.Lit "a")
            (Regex.word "nd" (Regex.Plus Str.is_space))).
  cbn [Regex.run].
  destruct (comma_or_semicolon c).
  - intros H. inversion H. lia.
  - destruct (Str.eqb_ci c "a"); [|discriminate].
    intros H. apply run_from_k in H.
    destruct H as [s' [cap' [H [L _]]]]. inversion H; subst. exact L.
Qed.

Lemma separator_none (c : ascii) (s : string) :
  Regex.match_here re_separator (String c s) = None ->
  comma_or_semicolon c = false.
Proof.
  unfold Regex.match_here, re_separator.
  change (Regex.word "and" (Regex.Plus Str.is_space))
    with (Regex.Cat (Regex.Lit "a")
            (Regex.word "nd" (Regex.Plus Str.is_space))).
  cbn [Regex.run].
  destruct (comma_or_semicolon c); [discriminate|reflexivity].
Qed.

(** *** The separator, character by character *)

Lemma star_greedy_trim (r : string) (cap : option string) :
  Regex.star_greedy Str.is_space r (fun s' => Some (s', cap))
  = Some (Str.trimStart r, cap).
Proof.
  induction r as [|c r IH]; [reflexivity|].
  cbn [Regex.star_greedy Str.trimStart].
  destruct (Str.is_space c); [now rewrite IH|reflexivity].
Qed.

(** A separator is a comma, a semicolon, or "and" (in any letter case)
    with the white space after it, one character or more. *)
Lemma separator_at (s : string) :
  Regex.match_here re_separator s
  = match s with
    | String c s' =>
        if comma_or_semicolon c then Some (s', None)
        else
          match s' with
          | String n (String d (String w r)) =>
              if Str.eqb_ci c "a" && Str.eqb_ci n "n" && Str.eqb_ci d "d"
                 && Str.is_space w
              then Some (Str.trimStart r, None)
              else None
          | _ => None
          end
    | EmptyString => None
    end.
Proof.
  unfold Regex.match_here, re_separator, Regex.Plus.
  change (Regex.word "and" ?r)
    with (Regex.Cat (Regex.Lit "a")
            (Regex.Cat (Regex.Lit "n") (Regex.Cat (Regex.Lit "d") r))).
  destruct s as [|c s]; [reflexivity|]. cbn [Regex.run].
  destruct (comma_or_semicolon c); [reflexivity|].
  destruct (Str.eqb_ci c "a"); [|now destruct s as [|? [|? [|? ?]]]].
  destruct s as [|n s]; [reflexivity|].
  destruct (Str.eqb_ci n "n"); [|now destruct s as [|? [|? ?]]].
  destruct s as [|d s]; [reflexivity|].
  destruct (Str.eqb_ci d "d"); [|now destruct s as [|? ?]].
  destruct s as [|w s]; [reflexivity|].
  destruct (Str.is_space w); [|reflexivity].
  cbn [andb]. apply star_greedy_trim.
Qed.

Lemma trimStart_append (r t : string) :
  starts_with_space t = false ->
  Str.trimStart (r ++ t) = Str.trimStart r ++ t.
Proof.
  intros Ht. induction r as [|c r IH].
  - destruct t as [|d t]; [reflexivity|]. cbn in Ht |- *. now rewrite Ht.
  - cbn [append Str.trimStart]. destruct (Str.is_space c); [exact IH|].
    reflexivity.
Qed.

(** Before the letter a of an "and", a separator is what it is without
    the text that follows: none reaches into the "and". *)
Lemma separator_before_and (c : ascii) (x t : string) :
  Regex.match_here re_separator (String c x ++ String "a" t)
  = match Regex.match_here re_separator (String c x) with
    | Some (rest, cap) => Some (rest ++ String "a" t, cap)
    | None => None
    end.
Proof.
  rewrite !separator_at. cbn [append].
  destruct (comma_or_semicolon c); [reflexivity|].
  destruct x as [|n [|d [|w r]]]; cbn [append].
  - destruct t as [|? [|? ?]]; try reflexivity;
      now destruct (Str.eqb_ci c "a").
  - destruct t as [|? ?]; try reflexivity;
      destruct (Str.eqb_ci c "a"); destruct (Str.eqb_ci n "n"); reflexivity.
  - destruct (Str.eqb_ci c "a"); destruct (Str.eqb_ci n "n");
      destruct (Str.eqb_ci d "d"); reflexivity.
  - destruct (Str.eqb_ci c "a" && Str.eqb_ci n "n" && Str.eqb_ci d "d"
              && Str.is_space w); [|reflexivity].
    now rewrite trimStart_append.
Qed.

(** The pieces read before an "and" are those of the text before it, and
    the last of them goes on into the "and". *)
Lemma split_from_before_and (t : string) (x : string) :
  forall skip acc,
    skip <= String.length x ->
    exists pieces piece,
      Regex.split_from re_separator skip acc x = (pieces ++ [piece])%list
      /\ Regex.split_from re_separator skip acc (x ++ String "a" t)
         = (pieces
            ++ Regex.split_from re_separator 0 piece (String "a" t))%list.
Proof.
  induction x as [|c x IH]; intros skip acc Hskip.
  - cbn [String.length] in Hskip. assert (skip = 0) by lia. subst skip.
    exists [], acc. split; reflexivity.
  - change (String c x ++ String "a" t) with (String c (x ++ String "a" t)).
    destruct skip as [|n].
    + cbn [Regex.split_from].
      change (String c (x ++ String "a" t))
        with (String c x ++ String "a" t).
      rewrite separator_before_and.
      destruct (Regex.match_here re_separator (String c x))
        as [[rest cap]|] eqn:E.
      * pose proof (separator_consumes _ _ _ _ E) as Hlen.
        rewrite !length_append.
        replace (String.length (String c x) + String.length (String "a" t)
                 - (String.length rest + String.length (String "a" t)))
          with (String.length (String c x) - String.length rest) by lia.
        cbn [String.length] in *.
        destruct (S (String.length x) - String.length rest) as [|k] eqn:Ek;
          [lia|].
        destruct (IH k "") as [pieces [piece [H1 H2]]]; [lia|].
        exists (acc :: pieces), piece. cbn [app]. now rewrite H1, H2.
      * destruct (IH 0 (acc ++ String c "")) as [pieces [piece [H1 H2]]];
          [lia|].
        exists pieces, piece. now rewrite H1, H2.
    + cbn [Regex.split_from]. cbn [String.length] in Hskip.
      destruct (IH n acc) as [pieces [piece [H1 H2]]]; [lia|].
      exists pieces, piece. now rewrite H1, H2.
Qed.

(** C10, at the failing inputs.  The separator pattern of line 146 has
    no word boundary: whatever the text [x] before it, "and" followed by
    white space [w] is a separator, in the middle of a word or not, so the
    pieces are those of [x] followed by those of [y]; "and" at the end of
    the text, with no white space after it, stays in the last piece.  So
    "Band saw" would give the items "B" and "saw".  The program does not
    get there: a product with such an includes text is not drawn, its
    render throws before line 146. *)
Theorem and_splits_without_word_boundary {L : PDFKit} (x w y : string) :
  whitespace w = true ->
  starts_with_space y = false ->
  Regex.split re_separator (x ++ "and" ++ w ++ y)
  = (Regex.split re_separator x ++ Regex.split re_separator y)%list
  /\ (exists pieces piece,
        Regex.split re_separator x = (pieces ++ [piece])%list
        /\ Regex.split re_separator (x ++ "and")
           = (pieces ++ [(piece ++ "and")%string])%list)
  /\ includeItems "Band saw" = ["B"; "saw"]
  /\ (forall p o f,
        extract p = Ok f -> includesText f = x ++ "and" ++ w ++ y ->
        exists e, generateHangTagPDF p o = Throw e).
Proof.
  intros Hw Hy. rewrite !split_is_split_from.
  split; [|split; [|split]].
  - destruct (split_from_before_and ("nd" ++ w ++ y) x 0 "")
      as [pieces [piece [H1 H2]]]; [lia|].
    change (x ++ "and" ++ w ++ y) with (x ++ String "a" ("nd" ++ w ++ y)).
    rewrite H2, H1.
    change (String "a" ("nd" ++ w ++ y)) with ("and" ++ w ++ y).
    rewrite split_at_and_space by assumption.
    now rewrite <- app_assoc.
  - destruct (split_from_before_and "nd" x 0 "")
      as [pieces [piece [H1 H2]]]; [lia|].
    exists pieces, piece. split; [exact H1|].
    change (x ++ "and") with (x ++ String "a" "nd"). rewrite H2.
    f_equal. cbn -[append]. now rewrite !append_assoc.
  - vm_compute. reflexivity.
  - intros p o f Hf Ht. apply (generate_with_includes p o f Hf).
    rewrite Ht. destruct x; discriminate.
Qed.

Lemma and_splits_without_word_boundary_witness :
  Regex.split re_separator ("B" ++ "and" ++ " " ++ "saw")
  = (Regex.split re_separator "B" ++ Regex.split re_separator "saw")%list
  /\ (exists pieces piece,
        Regex.split re_separator "B" = (pieces ++ [piece])%list
        /\ Regex.split re_separator ("B" ++ "and")
           = (pieces ++ [(piece ++ "and")%string])%list)
  /\ includeItems "Band saw" = ["B"; "saw"]
  /\ (forall p o f,
        extract p = Ok f -> includesText f = "B" ++ "and" ++ " " ++ "saw" ->
        exists e, generateHangTagPDF p o = Throw e).
Proof.
  apply (and_splits_without_word_boundary (L := pdfkit) "B" " " "saw").
  - reflexivity.
  - reflexivity.
Defined.

(** The product with "Band saw" in a batch: no item is drawn, the render
    throws at line 139 and the archive has no entry. *)
Example band_saw_in_a_batch :
  extracted_items band_saw = Some ["B"; "saw"]
  /\ generateHangTagPDF band_saw VUndefined
     = Throw (enoent "Helvetica-Bold-Oblique")
  /\ sent (handler (request [band_saw])) = [].
Proof. repeat split; vm_compute; reflexivity. Qed.

End IncludesClaims.

(* ===================================================================== *)
(** * Exceptions *)
(* ===================================================================== *)

Section ExceptionFacts.

Import Num JS Server Batch Tag Examples Code.

Local Open Scope string_scope.
Local Open Scope nat_scope.

(** *** Exceptions of the code *)

Lemma type_errors_bind {A B : Type} (r : result A) (k : A -> result B) :
  type_errors r -> (forall a, type_errors (k a)) -> type_errors (bind r k).
Proof.
  intros Hr Hk e. destruct r as [a|x]; simpl; [apply Hk|].
  intros H. inversion H; subst x. now apply Hr.
Qed.

Lemma type_errors_or_else (a b : result value) :
  type_errors a -> type_errors b -> type_errors (or_else a b).
Proof.
  intros Ha Hb e. destruct a as [v|x]; simpl.
  - destruct (truthy v); [discriminate|apply Hb].
  - intros H. inversion H; subst x. now apply Ha.
Qed.

Lemma type_errors_ok {A : Type} (a : A) : type_errors (Ok a).
Proof. intros e H. discriminate H. Qed.

Lemma type_errors_get (v : value) (k : string) : type_errors (get v k).
Proof. intros e. apply get_throws. Qed.

Lemma type_errors_to_string (v : value) : type_errors (to_string v).
Proof. intros e. apply to_string_throws. Qed.

Lemma type_errors_includes_opt (v : value) (s : string) :
  type_errors (includes_opt v s).
Proof.
  intros e. destruct v; simpl; try discriminate; intros H; now inversion H.
Qed.

Lemma type_errors_endsWith_opt (v : value) (s : string) :
  type_errors (endsWith_opt v s).
Proof.
  intros e. destruct v; simpl; try discriminate; intros H; now inversion H.
Qed.

Lemma type_errors_toUpperCase (v : value) : type_errors (toUpperCase v).
Proof.
  intros e. destruct v; simpl; try discriminate; intros H; now inversion H.
Qed.

Lemma type_errors_match (v : value) (r : Regex.regex) :
  type_errors (match_ v r).
Proof.
  intros e. destruct v; simpl; try discriminate; intros H; now inversion H.
Qed.

Lemma type_errors_parseFloat (v : value) : type_errors (parseFloat v).
Proof.
  unfold parseFloat. apply type_errors_bind;
    [apply type_errors_to_string | intros a; apply type_errors_ok].
Qed.

Lemma type_errors_parseInt (v : value) : type_errors (parseInt v).
Proof.
  unfold parseInt. apply type_errors_bind;
    [apply type_errors_to_string | intros a; apply type_errors_ok].
Qed.

Ltac type_errors :=
  repeat first
    [ apply type_errors_ok
    | apply type_errors_get
    | apply type_errors_to_string
    | apply type_errors_includes_opt
    | apply type_errors_endsWith_opt
    | apply type_errors_toUpperCase
    | apply type_errors_match
    | apply type_errors_parseFloat
    | apply type_errors_parseInt
    | apply type_errors_or_else
    | apply type_errors_bind; [|intros ?] ].

Lemma type_errors_extract (p : value) : type_errors (extract p).
Proof.
  unfold extract, isRecon_of, price_of, comparePrice_of, title_of, vendor_of,
    sku_of, bodyHtml_of.
  type_errors.
Qed.

Lemma type_errors_size_option (o : value) (k : string) (d : Z) :
  type_errors (size_option o k d).
Proof. unfold size_option. type_errors. Qed.

Lemma type_errors_draw_head (f : fields) (doc : document) :
  type_errors (draw_head f doc).
Proof.
  unfold draw_head, emit, draw_text. cbn [bind].
  rewrite set_standard_font by reflexivity. cbn [bind].
  apply type_errors_bind; [type_errors|]. intros vu. cbn [bind].
  rewrite set_standard_font by reflexivity. cbn [bind].
  type_errors.
Qed.

(** *** Options that are [null] *)

Lemma generate_null_options {L : PDFKit} (p : value) :
  generateHangTagPDF p VNull = Throw TypeError.
Proof.
  unfold generateHangTagPDF.
  destruct (extract p) as [f|e] eqn:Ef; cbn [bind].
  - destruct (draw_head f []) as [d1|e] eqn:E1; cbn [bind].
    + reflexivity.
    + now rewrite (type_errors_draw_head _ _ _ E1).
  - now rewrite (type_errors_extract _ _ Ef).
Qed.

Lemma rendered_null_options {L : PDFKit} (items : list value) :
  forall i, rendered items VNull i = [].
Proof.
  induction items as [|q items IH]; intros i; [reflexivity|].
  cbn [rendered]. rewrite generate_null_options. apply IH.
Qed.

(** *** Entries under one name *)

Lemma find_put_same (n : string) (d : document) (zip : archive) :
  find n (put n (pdf_file d) zip) = Some d.
Proof.
  induction zip as [|[m c] zip IH]; simpl.
  - now rewrite String.eqb_refl.
  - destruct (String.eqb m n) eqn:E; simpl.
    + now rewrite String.eqb_refl.
    + now rewrite E.
Qed.

Lemma find_put_other (n n' : string) (e : entry) (zip : archive) :
  n' <> n -> find n (put n' e zip) = find n zip.
Proof.
  intros Hne. induction zip as [|[m c] zip IH]; simpl.
  - apply String.eqb_neq in Hne. now rewrite Hne.
  - destruct (String.eqb m n') eqn:E; simpl.
    + apply String.eqb_eq in E. subst m. apply String.eqb_neq in Hne.
      now rewrite Hne.
    + now rewrite IH.
Qed.

(** Folders hold no document. *)
Lemma find_folders (n : string) (zip : archive) (added : list string) :
  find n (zip ++ map (fun m => (m, folder)) added)%list = find n zip.
Proof.
  induction zip as [|[m c] zip IH]; simpl.
  - induction added as [|a added IHa]; simpl; [reflexivity|].
    destruct (String.eqb a n); [reflexivity|exact IHa].
  - now rewrite IH.
Qed.

Lemma find_file_same (n : string) (d : document) (zip : archive) :
  find n (file n d zip) = Some d.
Proof.
  destruct (file_adds n d zip) as [added [-> _]]. apply find_put_same.
Qed.

Lemma find_file_other (n n' : string) (d : document) (zip : archive) :
  n' <> n -> find n (file n' d zip) = find n zip.
Proof.
  intros Hne. destruct (file_adds n' d zip) as [added [-> _]].
  rewrite find_put_other by exact Hne. apply find_folders.
Qed.

End ExceptionFacts.

(* ===================================================================== *)
(** * The handler: status and console *)
(* ===================================================================== *)

Section HandlerFacts.

Import Num JS Server Batch Tag Examples Code.

Local Open Scope string_scope.
Local Open Scope nat_scope.

(** X1.  A request whose body is there and whose [products] is not an
    array is answered with status 400, before anything is logged or
    processed; and status 400 is given in no other case. *)
Theorem status_400_iff_products_not_array {L : PDFKit} (body : value) :
  nullish body = false ->
  (is_array (prop body "products") = false ->
   handler body = ([], status_400))
  /\ (snd (handler body) = status_400 ->
      is_array (prop body "products") = false).
Proof.
  intros Hb. unfold handler. rewrite !get_prop by exact Hb. simpl.
  destruct (prop body "products") as [| |b|n|s|items|props]; simpl;
    split; auto; try discriminate.
  destruct (process items (or_empty (prop body "options")) 0
              (List.length items) [] [log_generating (List.length items)])
    as [c [z|e]]; discriminate.
Qed.

Lemma status_400_iff_products_not_array_witness :
  (is_array (prop (VObj [("products", VStr "x")]) "products") = false ->
   handler (VObj [("products", VStr "x")]) = ([], status_400))
  /\ (snd (handler (VObj [("products", VStr "x")])) = status_400 ->
      is_array (prop (VObj [("products", VStr "x")]) "products") = false).
Proof.
  apply (status_400_iff_products_not_array (L := pdfkit) (VObj [("products", VStr "x")])).
  reflexivity.
Defined.

(** X2.  A list-typed batch is answered with the archive exactly when the
    log line of every list element can be written, that is when no
    element is [null] and no chosen [sku] or [handle] is an object that
    cannot be converted to a String; otherwise the whole batch is answered
    with status 500, whatever the other products. *)
Theorem batch_succeeds_iff_all_loggable {L : PDFKit}
    (body : value) (items : list value) (o : value) :
  get body "products" = Ok (VArr items) ->
  get body "options" = Ok o ->
  ((exists console zip, handler body = (console, send_zip zip))
   <-> forallb loggable items = true)
  /\ (forallb loggable items = false ->
      snd (handler body) = status_500 TypeError).
Proof. exact (handler_succeeds body items o). Qed.

Lemma batch_succeeds_iff_all_loggable_witness :
  ((exists console zip,
      handler (request [bad_tags; plain]) = (console, send_zip zip))
   <-> forallb loggable [bad_tags; plain] = true)
  /\ (forallb loggable [bad_tags; plain] = false ->
      snd (handler (request [bad_tags; plain])) = status_500 TypeError).
Proof.
  apply (batch_succeeds_iff_all_loggable (L := pdfkit) (request [bad_tags; plain])
           [bad_tags; plain] VUndefined).
  - reflexivity.
  - reflexivity.
Defined.

Lemma scalar_to_string (v : value) :
  scalar v = true -> exists s, to_string v = Ok s.
Proof. destruct v; simpl; try discriminate; eauto. Qed.

(** X3.  A list element that is not [null] and whose [sku] and [handle]
    are absent or scalars (Strings, Numbers, Booleans, [null]) never ends
    the batch: with only such elements the answer is the archive, whatever
    else the records hold and whatever the options are. *)
Theorem scalar_identifiers_never_abort {L : PDFKit}
    (body : value) (items : list value) (o : value) :
  get body "products" = Ok (VArr items) ->
  get body "options" = Ok o ->
  (forall q, In q items ->
     nullish q = false /\ scalar (prop q "sku") = true
     /\ scalar (prop q "handle") = true) ->
  exists console zip, handler body = (console, send_zip zip).
Proof.
  intros Hp Ho Hall.
  apply (handler_succeeds body items o Hp Ho).
  apply forallb_forall. intros q Hq.
  destruct (Hall q Hq) as [Hn [Hs Hh]].
  unfold loggable, log_id. rewrite !get_prop by exact Hn. simpl.
  destruct (truthy (prop q "sku")); simpl.
  - destruct (scalar_to_string _ Hs) as [s ->]. reflexivity.
  - destruct (truthy (prop q "handle")); simpl.
    + destruct (scalar_to_string _ Hh) as [s ->]. reflexivity.
    + destruct (scalar_to_string _ Hh) as [s ->]. reflexivity.
Qed.

Lemma scalar_identifiers_never_abort_witness :
  exists console zip,
    handler (request [bad_tags; plain]) = (console, send_zip zip).
Proof.
  apply (scalar_identifiers_never_abort (L := pdfkit) (request [bad_tags; plain])
           [bad_tags; plain] VUndefined).
  - reflexivity.
  - reflexivity.
  - intros q [<-|[<-|[]]]; repeat split; reflexivity.
Defined.


(** X4.  An empty list is not an error: the answer is an archive without
    entries, and the console has the opening and the closing line only. *)
Theorem empty_list_gives_empty_archive {L : PDFKit} (body o : value) :
  get body "products" = Ok (VArr []) ->
  get body "options" = Ok o ->
  handler body = ([log_generating 0; log_success], send_zip []).
Proof. intros Hp Ho. unfold handler. rewrite Hp, Ho. reflexivity. Qed.

Lemma empty_list_gives_empty_archive_witness :
  handler (request []) = ([log_generating 0; log_success], send_zip []).
Proof.
  apply (empty_list_gives_empty_archive (L := pdfkit) (request []) VUndefined);
    reflexivity.
Defined.

(** *** The console *)

Lemma filter_app_one {A : Type} (f : A -> bool) (l : list A) (x : A) :
  List.length (filter f (l ++ [x]))
  = List.length (filter f l) + (if f x then 1 else 0).
Proof.
  rewrite filter_app, length_app. simpl. now destruct (f x).
Qed.

Lemma process_console {L : PDFKit} (items : list value) (o : value)
    (count : nat) :
  forall i zip console console' zip',
    process items o i count zip console = (console', Ok zip') ->
    List.length (filter is_processing console')
    = List.length (filter is_processing console) + List.length items
    /\ List.length (filter is_pdf_error console')
         + List.length (rendered items o i)
       = List.length (filter is_pdf_error console) + List.length items
    /\ (forall l, hd_error console = Some l -> hd_error console' = Some l).
Proof.
  induction items as [|q items IH]; intros i zip console console' zip' H.
  - simpl in *. inversion H; subst. repeat split; auto; lia.
  - cbn [process] in H.
    destruct (v <- or_else (get q "sku") (get q "handle") ;; to_string v)
      as [id|e] eqn:Elog; [|discriminate].
    assert (Hhd : forall (c : list line) (x : line) l,
              hd_error c = Some l -> hd_error (c ++ [x]) = Some l).
    { intros c x l. destruct c; simpl; [discriminate|auto]. }
    cbn [rendered List.length].
    destruct (try_product q o i zip) as [zip1|pdfError] eqn:Etry.
    + destruct (try_product_ok _ _ _ _ _ Etry) as [d [n [Hd [Hn _]]]].
      rewrite Hd, Hn. cbn [List.length].
      destruct (IH _ _ _ _ _ H) as [H1 [H2 H3]].
      rewrite !filter_app_one in *. cbn [is_processing is_pdf_error] in *.
      repeat split; try lia. intros l Hl. apply H3. now apply Hhd.
    + pose proof (try_product_throw _ _ _ _ _ Etry) as Hthrow.
      destruct (v <- get q "sku" ;; to_string v) as [s|e] eqn:Eerr;
        [|discriminate].
      destruct (IH _ _ _ _ _ H) as [H1 [H2 H3]].
      rewrite !filter_app_one in *. cbn [is_processing is_pdf_error] in *.
      assert (Hr : rendered (q :: items) o i = rendered items o (S i)).
      { cbn [rendered]. destruct (generateHangTagPDF q o); [|reflexivity].
        destruct (filename q i); [contradiction|reflexivity]. }
      cbn [rendered] in Hr. rewrite Hr.
      repeat split; try lia. intros l Hl. apply H3. apply Hhd. now apply Hhd.
Qed.

(** X5.  The console of a successful batch accounts for every product: it
    opens with the number of products and closes with the success line,
    has one processing line per product, and one error line for each
    product that did not render; the products that rendered and the error
    lines add up to the number of products, and the archive has no more
    documents than products that rendered. *)
Theorem console_accounts_for_every_product {L : PDFKit}
    (body : value) (items : list value) (o : value) (console : list line)
    (zip : archive) :
  get body "products" = Ok (VArr items) ->
  get body "options" = Ok o ->
  handler body = (console, send_zip zip) ->
  hd_error console = Some (log_generating (List.length items))
  /\ last console log_success = log_success
  /\ List.length (filter is_processing console) = List.length items
  /\ List.length (filter is_pdf_error console)
       + List.length (rendered items (or_empty o) 0)
     = List.length items
  /\ List.length (documents zip) + List.length (filter is_pdf_error console)
     <= List.length items.
Proof.
  intros Hp Ho Hh.
  destruct (handler_sends _ _ _ _ _ Hp Ho Hh) as [console' [Hproc ->]].
  destruct (process_console _ _ _ _ _ _ _ _ Hproc) as [H1 [H2 H3]].
  destruct (process_ok _ _ _ _ _ _ _ _ Hproc) as [Hzip _].
  simpl in H1, H2. rewrite !filter_app_one. cbn [is_processing is_pdf_error].
  repeat split.
  - specialize (H3 _ eq_refl). destruct console'; [discriminate|exact H3].
  - apply last_last.
  - lia.
  - lia.
  - pose proof (length_inserted (rendered items (or_empty o) 0) []) as Hlen.
    rewrite <- Hzip in Hlen. simpl in Hlen. lia.
Qed.

Lemma console_accounts_for_every_product_witness :
  hd_error (fst (handler (request [bad_tags; plain])))
  = Some (log_generating (List.length [bad_tags; plain]))
  /\ last (fst (handler (request [bad_tags; plain]))) log_success
     = log_success
  /\ List.length (filter is_processing
                    (fst (handler (request [bad_tags; plain]))))
     = List.length [bad_tags; plain]
  /\ List.length (filter is_pdf_error
                    (fst (handler (request [bad_tags; plain]))))
       + List.length (rendered [bad_tags; plain] (or_empty VUndefined) 0)
     = List.length [bad_tags; plain]
  /\ List.length (documents (sent (handler (request [bad_tags; plain]))))
       + List.length (filter is_pdf_error
                        (fst (handler (request [bad_tags; plain]))))
     <= List.length [bad_tags; plain].
Proof.
  apply (console_accounts_for_every_product (L := pdfkit) (request [bad_tags; plain])
           [bad_tags; plain] VUndefined).
  - reflexivity.
  - reflexivity.
  - vm_compute. reflexivity.
Defined.

(** X6.  When [options] is [null] (the default applies to a missing
    [options] only), reading a size throws in every render: no product
    renders, each one gets an error line, and a batch that succeeds is
    answered with an archive without entries. *)
Theorem null_options_render_nothing {L : PDFKit}
    (body : value) (items : list value) (console : list line)
    (zip : archive) :
  get body "products" = Ok (VArr items) ->
  get body "options" = Ok VNull ->
  handler body = (console, send_zip zip) ->
  zip = []
  /\ List.length (filter is_pdf_error console) = List.length items
  /\ (forall p, generateHangTagPDF p VNull = Throw TypeError).
Proof.
  intros Hp Ho Hh.
  destruct (handler_sends _ _ _ _ _ Hp Ho Hh) as [console' [Hproc ->]].
  destruct (process_console _ _ _ _ _ _ _ _ Hproc) as [_ [H2 _]].
  destruct (process_ok _ _ _ _ _ _ _ _ Hproc) as [Hzip _].
  simpl or_empty in *. rewrite rendered_null_options in *.
  simpl in H2, Hzip. rewrite filter_app_one. cbn [is_pdf_error].
  repeat split; [exact Hzip|lia|apply generate_null_options].
Qed.

Lemma null_options_render_nothing_witness :
  sent (handler (VObj [("products", VArr [plain]); ("options", VNull)])) = []
  /\ List.length
       (filter is_pdf_error
          (fst (handler (VObj [("products", VArr [plain]);
                               ("options", VNull)]))))
     = List.length [plain]
  /\ (forall p, generateHangTagPDF p VNull = Throw TypeError).
Proof.
  apply (null_options_render_nothing
           (VObj [("products", VArr [plain]); ("options", VNull)]) [plain]
           (fst (handler (VObj [("products", VArr [plain]);
                                ("options", VNull)])))
           (sent (handler (VObj [("products", VArr [plain]);
                                 ("options", VNull)])))).
  - reflexivity.
  - reflexivity.
  - vm_compute. reflexivity.
Defined.

(** *** Entries under one name *)

Lemma find_inserted_others (l : list insertion) (n : string) :
  forall zip,
    (forall x, In x l -> name x <> n) ->
    find n (fold_left insert l zip) = find n zip.
Proof.
  induction l as [|e l IH]; intros zip H; [reflexivity|].
  simpl. rewrite IH by (intros x Hx; apply H; now right).
  unfold insert. apply find_file_other. apply H. now left.
Qed.

Lemma find_inserted_last (l1 l2 : list insertion) (e : insertion)
    (zip : archive) :
  (forall x, In x l2 -> name x <> name e) ->
  find (name e) (fold_left insert (l1 ++ e :: l2) zip) = Some (content e).
Proof.
  intros H. rewrite fold_left_app. simpl.
  rewrite find_inserted_others by exact H.
  unfold insert at 1. apply find_file_same.
Qed.

Lemma sorted_split_after (l1 l2 : list insertion) (e : insertion) :
  StronglySorted lt (map index (l1 ++ e :: l2)) ->
  forall x, In x l2 -> index e < index x.
Proof.
  induction l1 as [|a l1 IH]; simpl; intros H x Hx.
  - inversion H as [|? ? _ Hall]; subst.
    rewrite Forall_forall in Hall. apply Hall. now apply in_map.
  - inversion H; subst. now apply IH.
Qed.

(** X7.  Identifiers are not deduplicated: when several products render
    under one entry name, the archive holds that name once, with the
    document of the last of them in the list. *)
Theorem last_product_under_a_name_wins {L : PDFKit}
    (body : value) (items : list value) (o : value) (console : list line)
    (zip : archive) (j : nat) (q : value) (d : document) (n : string) :
  get body "products" = Ok (VArr items) ->
  get body "options" = Ok o ->
  handler body = (console, send_zip zip) ->
  nth_error items j = Some q ->
  generateHangTagPDF q (or_empty o) = Ok d ->
  filename q j = Ok n ->
  (forall k q' d', j < k -> nth_error items k = Some q' ->
     generateHangTagPDF q' (or_empty o) = Ok d' -> filename q' k <> Ok n) ->
  find n zip = Some d.
Proof.
  intros Hp Ho Hh Hq Hd Hn Hlater.
  destruct (handler_sends _ _ _ _ _ Hp Ho Hh) as [console' [Hproc _]].
  destruct (process_ok _ _ _ _ _ _ _ _ Hproc) as [Hzip _].
  assert (Hin : In {| index := j; name := n; content := d |}
                  (rendered items (or_empty o) 0)).
  { apply in_rendered. exists j, q. simpl. auto. }
  apply in_split in Hin. destruct Hin as [l1 [l2 Hsplit]].
  pose proof (rendered_sorted items (or_empty o) 0) as Hsorted.
  rewrite Hsplit in Hsorted.
  rewrite Hzip, Hsplit.
  apply (find_inserted_last l1 l2 {| index := j; name := n; content := d |}).
  intros x Hx Hname. simpl in Hname.
  pose proof (sorted_split_after _ _ _ Hsorted x Hx) as Hlt. simpl in Hlt.
  assert (Hx' : In x (rendered items (or_empty o) 0)).
  { rewrite Hsplit. apply in_or_app. right. now right. }
  apply in_rendered in Hx'. destruct Hx' as [k [q' [Hk [Hq' [Hd' Hn']]]]].
  simpl in Hk, Hn'. subst k. rewrite Hname in Hn'.
  exact (Hlater (index x) q' (content x) Hlt Hq' Hd' Hn').
Qed.

Lemma last_product_under_a_name_wins_witness :
  find "B-2-hangtag.pdf" (sent (handler (request [discounted; plain])))
  = Some (page plain).
Proof.
  apply (last_product_under_a_name_wins (L := pdfkit) (request [discounted; plain])
           [discounted; plain] VUndefined
           (fst (handler (request [discounted; plain])))
           (sent (handler (request [discounted; plain])))
           1 plain (page plain) "B-2-hangtag.pdf").
  - reflexivity.
  - reflexivity.
  - vm_compute. reflexivity.
  - reflexivity.
  - vm_compute. reflexivity.
  - vm_compute. reflexivity.
  - intros [|[|k]] q' d' Hk Hq'; try lia.
    destruct k; discriminate Hq'.
Defined.

End HandlerFacts.

(* ===================================================================== *)
(** * The renderer: which records render, and what is drawn *)
(* ===================================================================== *)

Section RenderFacts.

Import Num JS Server Batch Tag Examples Code.

Local Open Scope string_scope.
Local Open Scope nat_scope.

(** X8.  A list element that is not an object (a Number, a String, a
    Boolean, an array) is not rejected: it has none of the properties the
    code reads, so it renders exactly like the empty record, and its entry
    gets the synthesized name. *)
Theorem non_object_renders_as_empty_record {L : PDFKit} (p o : value)
    (i : nat) :
  nullish p = false ->
  (forall props, p <> VObj props) ->
  generateHangTagPDF p o = generateHangTagPDF (VObj []) o
  /\ filename p i = Ok (synthesized i ++ "-hangtag.pdf")
  /\ loggable p = true.
Proof.
  intros Hn Hobj.
  destruct p as [| |b|n|s|elems|props]; try discriminate;
    try (repeat split; reflexivity).
  exfalso. now apply (Hobj props).
Qed.

Lemma non_object_renders_as_empty_record_witness :
  generateHangTagPDF (VNum (of_Z 5)) VUndefined
  = generateHangTagPDF (VObj []) VUndefined
  /\ filename (VNum (of_Z 5)) 2 = Ok (synthesized 2 ++ "-hangtag.pdf")
  /\ loggable (VNum (of_Z 5)) = true.
Proof.
  apply (non_object_renders_as_empty_record (L := pdfkit) (VNum (of_Z 5))
           VUndefined 2).
  - reflexivity.
  - intros props H. discriminate H.
Defined.

(** X10.  A truthy [vendor] (or, without one, [Vendor]) that is not a
    String makes the render throw a TypeError: [vendor.toUpperCase] is not
    a function.  A numeric vendor therefore drops the product from the
    archive. *)
Theorem non_string_vendor_throws {L : PDFKit} (p o : value) :
  nullish p = false ->
  is_string (pick (prop p "vendor") (prop p "Vendor") (VStr "Brand")) = false ->
  generateHangTagPDF p o = Throw TypeError.
Proof.
  intros Hn Hv. unfold generateHangTagPDF.
  destruct (extract p) as [f|e] eqn:Hf; cbn [bind];
    [|now rewrite (type_errors_extract _ _ Hf)].
  destruct (extract_ok _ _ Hf) as [_ [_ [_ [_ [Hvendor _]]]]].
  unfold vendor_of in Hvendor. rewrite first_truthy in Hvendor by exact Hn.
  assert (E : vendor f = pick (prop p "vendor") (prop p "Vendor")
                           (VStr "Brand")) by congruence.
  unfold draw_head, emit. cbn [bind].
  rewrite set_standard_font by reflexivity. cbn [bind]. rewrite E.
  destruct (pick (prop p "vendor") (prop p "Vendor") (VStr "Brand"));
    try discriminate; reflexivity.
Qed.

Lemma non_string_vendor_throws_witness :
  generateHangTagPDF (VObj [("sku", VStr "V-1"); ("vendor", VNum (of_Z 7))])
    VUndefined
  = Throw TypeError.
Proof.
  apply (non_string_vendor_throws (L := pdfkit)
           (VObj [("sku", VStr "V-1"); ("vendor", VNum (of_Z 7))]) VUndefined);
    reflexivity.
Defined.

(** *** What is drawn *)

Lemma bullets_app (l1 l2 : document) :
  bullets (l1 ++ l2)%list = (bullets l1 ++ bullets l2)%list.
Proof.
  induction l1 as [|c l1 IH]; simpl; [reflexivity|].
  destruct c; simpl; now rewrite IH.
Qed.

Lemma font_sizes_app (l1 l2 : document) :
  font_sizes (l1 ++ l2)%list = (font_sizes l1 ++ font_sizes l2)%list.
Proof.
  induction l1 as [|c l1 IH]; simpl; [reflexivity|].
  destruct c; simpl; now rewrite IH.
Qed.

Lemma length_includeItems (t : string) : List.length (includeItems t) <= 4.
Proof. unfold includeItems. apply firstn_le_length. Qed.

Lemma of_Z_28 :
  exists m e,
    of_Z 28 = S754_finite false m e
    /\ SFltb (S754_finite false m e) (S754_finite false m e) = false.
Proof. eexists _, _. split; vm_compute; reflexivity. Qed.

Lemma min_28_bound (x : number) :
  gtb (Num.min x (of_Z 28)) (of_Z 28) = false.
Proof.
  destruct of_Z_28 as [m0 [e0 [-> Hc]]].
  unfold gtb, Num.min.
  destruct x as [s|s| |s m e]; try reflexivity.
  - destruct (SFltb (S754_finite false m0 e0) (S754_infinity s)) eqn:E;
      [exact Hc|exact E].
  - destruct (SFltb (S754_finite false m0 e0) (S754_finite s m e)) eqn:E;
      [exact Hc|exact E].
Qed.

Lemma min_28_truthy (x : number) :
  truthy (VNum x) = true -> truthy (VNum (Num.min x (of_Z 28))) = true.
Proof.
  destruct of_Z_28 as [m0 [e0 [-> _]]].
  unfold Num.min.
  destruct x as [s|s| |s m e]; try discriminate; intros _.
  - destruct (SFltb (S754_finite false m0 e0) (S754_infinity s)); reflexivity.
  - destruct (SFltb (S754_finite false m0 e0) (S754_finite s m e));
      reflexivity.
Qed.

Lemma size_option_truthy (o : value) (k : string) (d : Z) (n : number) :
  truthy (VNum (of_Z d)) = true ->
  size_option o k d = Ok n -> truthy (VNum n) = true.
Proof.
  intros Hd. unfold size_option.
  destruct (get o k) as [v|e]; simpl; [|discriminate].
  destruct (parseInt v) as [x|e]; simpl; [|discriminate].
  intros H. inversion H. unfold num_or.
  destruct (truthy (VNum x)) eqn:E; [exact E|exact Hd].
Qed.

(** The size an option gives: what [parseInt] reads, or the default. *)
Lemma size_option_value (o : value) (k : string) (d : Z) (n : number) :
  size_option o k d = Ok n ->
  (unset (prop o k) = true -> n = of_Z d)
  /\ (unset (prop o k) = false -> parseInt (prop o k) = Ok n).
Proof.
  unfold size_option, unset, prop.
  destruct (get o k) as [v|e]; cbn [bind]; [|discriminate].
  destruct (parseInt v) as [x|e]; cbn [bind]; [|discriminate].
  intros H. inversion H. unfold num_or.
  destruct (truthy (VNum x)); cbn [negb]; split; intros E;
    try discriminate E; reflexivity.
Qed.

(** X11.  The sizes a rendered document is drawn with, in order: 8 and 10
    for the vendor and the model, the title size, 8 for the image caption,
    the price size, then 10 for the MSRP line and 8 for the banner when
    they are drawn.  The title size is [parseInt(options.titleSize)], and
    11 when that is 0 or NaN, as for an absent option; the price size is
    the smaller of 28 and [parseInt(options.priceSize)], with 24 in place
    of 0 or NaN.  So every size is a Number other than 0 and NaN, and the
    price is never drawn above 28. *)
Theorem font_sizes_are_set_and_price_is_capped {L : PDFKit}
    (p o : value) (doc : document) :
  generateHangTagPDF p o = Ok doc ->
  exists titleSize priceSize,
    font_sizes doc
    = ([of_Z 8; of_Z 10; titleSize; of_Z 8; Num.min priceSize (of_Z 28)]
       ++ (if has_msrp doc then [of_Z 10] else [])
       ++ (if has_banner doc then [of_Z 8] else []))%list
    /\ (unset (prop (or_empty o) "titleSize") = true -> titleSize = of_Z 11)
    /\ (unset (prop (or_empty o) "titleSize") = false ->
        parseInt (prop (or_empty o) "titleSize") = Ok titleSize)
    /\ (unset (prop (or_empty o) "priceSize") = true -> priceSize = of_Z 24)
    /\ (unset (prop (or_empty o) "priceSize") = false ->
        parseInt (prop (or_empty o) "priceSize") = Ok priceSize)
    /\ (prop (or_empty o) "titleSize" = VUndefined -> titleSize = of_Z 11)
    /\ (prop (or_empty o) "priceSize" = VUndefined ->
        Num.min priceSize (of_Z 28) = of_Z 24)
    /\ Forall (fun n => truthy (VNum n) = true) (font_sizes doc)
    /\ gtb (Num.min priceSize (of_Z 28)) (of_Z 28) = false.
Proof.
  intros H. destruct (generate_ok _ _ _ H) as [f [vu [m [ts [ps Hd]]]]].
  destruct Hd as [_ [_ [_ [Hts [Hps [_ ->]]]]]].
  destruct (size_option_value _ _ _ _ Hts) as [Ht1 Ht2].
  destruct (size_option_value _ _ _ _ Hps) as [Hp1 Hp2].
  apply size_option_truthy in Hts; [|reflexivity].
  apply size_option_truthy in Hps; [|reflexivity].
  exists ts, ps.
  assert (Hsizes :
    font_sizes (tag_calls f vu m ts ps)
    = ([of_Z 8; of_Z 10; ts; of_Z 8; Num.min ps (of_Z 28)]
       ++ (if has_msrp (tag_calls f vu m ts ps) then [of_Z 10] else [])
       ++ (if has_banner (tag_calls f vu m ts ps) then [of_Z 8] else []))%list).
  { rewrite has_msrp_tag, has_banner_tag.
    unfold tag_calls, msrp_calls, recon_calls. rewrite !font_sizes_app.
    destruct (gtb (comparePrice f) (price f) && gtb (comparePrice f) zero);
      destruct (truthy (isRecon f)); reflexivity. }
  split; [exact Hsizes|].
  split; [exact Ht1|]. split; [exact Ht2|].
  split; [exact Hp1|]. split; [exact Hp2|].
  split; [intros E; apply Ht1; now rewrite E|].
  split; [intros E; rewrite Hp1 by (now rewrite E); vm_compute; reflexivity|].
  split; [|apply min_28_bound].
  rewrite Hsizes. repeat (apply Forall_app; split).
  - repeat constructor; [exact Hts|now apply min_28_truthy].
  - destruct (has_msrp _); repeat constructor.
  - destruct (has_banner _); repeat constructor.
Qed.

Lemma font_sizes_are_set_and_price_is_capped_witness :
  exists titleSize priceSize,
    font_sizes (page discounted)
    = ([of_Z 8; of_Z 10; titleSize; of_Z 8; Num.min priceSize (of_Z 28)]
       ++ (if has_msrp (page discounted) then [of_Z 10] else [])
       ++ (if has_banner (page discounted) then [of_Z 8] else []))%list
    /\ (unset (prop (or_empty VUndefined) "titleSize") = true ->
        titleSize = of_Z 11)
    /\ (unset (prop (or_empty VUndefined) "titleSize") = false ->
        parseInt (prop (or_empty VUndefined) "titleSize") = Ok titleSize)
    /\ (unset (prop (or_empty VUndefined) "priceSize") = true ->
        priceSize = of_Z 24)
    /\ (unset (prop (or_empty VUndefined) "priceSize") = false ->
        parseInt (prop (or_empty VUndefined) "priceSize") = Ok priceSize)
    /\ (prop (or_empty VUndefined) "titleSize" = VUndefined ->
        titleSize = of_Z 11)
    /\ (prop (or_empty VUndefined) "priceSize" = VUndefined ->
        Num.min priceSize (of_Z 28) = of_Z 24)
    /\ Forall (fun n => truthy (VNum n) = true) (font_sizes (page discounted))
    /\ gtb (Num.min priceSize (of_Z 28)) (of_Z 28) = false.
Proof.
  apply (font_sizes_are_set_and_price_is_capped (L := pdfkit) discounted
           VUndefined (page discounted)).
  vm_compute. reflexivity.
Defined.

(** The calls of a rendered document, apart from the includes section,
    have no bullet line and no includes header. *)
Lemma tag_has_no_includes_section (f : fields) (vu : list nat) (m : string)
    (ts ps : number) :
  bullets (tag_calls f vu m ts ps) = []
  /\ existsb is_includes_header (tag_calls f vu m ts ps) = false.
Proof.
  unfold tag_calls, msrp_calls, recon_calls.
  rewrite !bullets_app, !existsb_app.
  assert (Htitle : forall t,
            is_includes_header (text t (of_Z 12) (of_Z 45) title_options)
            = false).
  { intros t. destruct t; try reflexivity. cbn [is_includes_header].
    cbn [title_options width]. now rewrite andb_false_r. }
  assert (Hsku : forall t,
            is_includes_header (text t (of_Z 130) (of_Z 248) at_position)
            = false).
  { intros t. destruct t; try reflexivity. cbn [is_includes_header].
    assert (E : SFeqb (of_Z 130) (of_Z 12) = false)
      by (vm_compute; reflexivity).
    rewrite E. now rewrite andb_false_r. }
  split.
  - destruct (gtb (comparePrice f) (price f) && gtb (comparePrice f) zero);
      destruct (truthy (isRecon f)); reflexivity.
  - unfold head_calls, title_calls, price_calls.
    cbn [existsb]. rewrite Htitle.
    destruct (gtb (comparePrice f) (price f) && gtb (comparePrice f) zero);
      destruct (truthy (isRecon f)); cbn [existsb]; rewrite ?Hsku;
      reflexivity.
Qed.

(** X12.  No tag has an includes section: whenever [generateHangTagPDF]
    returns a document, the includes text of the product is empty, and the
    document has neither the header "INCLUDES:" nor a bullet line.  A
    product with an includes text gets no tag at all. *)
Theorem rendered_documents_have_no_includes_section {L : PDFKit}
    (p o : value) (doc : document) (f : fields) :
  generateHangTagPDF p o = Ok doc ->
  extract p = Ok f ->
  includesText f = ""
  /\ bullets doc = []
  /\ existsb is_includes_header doc = false.
Proof.
  intros H Hf. destruct (generate_ok _ _ _ H) as [f' [vu [m [ts [ps Hd]]]]].
  destruct Hd as [Hf' [_ [_ [_ [_ [Hinc ->]]]]]].
  rewrite Hf in Hf'. inversion Hf'; subst f'.
  split; [exact Hinc|]. apply tag_has_no_includes_section.
Qed.

Lemma rendered_documents_have_no_includes_section_witness :
  exists f,
    extract plain = Ok f
    /\ includesText f = ""
    /\ bullets (page plain) = []
    /\ existsb is_includes_header (page plain) = false.
Proof.
  eexists. split; [vm_compute; reflexivity|].
  apply (rendered_documents_have_no_includes_section (L := pdfkit) plain
           VUndefined (page plain)).
  - vm_compute. reflexivity.
  - vm_compute. reflexivity.
Defined.

(** X13.  The price line is drawn in every tag: "$" followed by
    [price.toFixed(2)], at x = 30 and y = 175, the height at which the
    cursor starts (the includes section, which would move it, is in no
    tag).  For a price below 10^21 in absolute value the text is a sign,
    digits, a point and two digits. *)
Theorem price_line_is_drawn_at_the_cursor {L : PDFKit}
    (p o : value) (doc : document) (f : fields) :
  generateHangTagPDF p o = Ok doc ->
  extract p = Ok f ->
  In (text (VStr ("$" ++ toFixed2 (price f))) (of_Z 30) (of_Z 175)
        (boxed 134 "center")) doc
  /\ (below_1e21 (price f) = true ->
      exists a b,
        toFixed2 (price f) = sign_text (price f) ++ a ++ String "." b
        /\ a <> "" /\ all_digits a = true /\ all_digits b = true
        /\ String.length b = 2).
Proof.
  intros H Hf. destruct (generate_ok _ _ _ H) as [f' [vu [m [ts [ps Hd]]]]].
  destruct Hd as [Hf' [_ [_ [_ [_ [_ ->]]]]]].
  rewrite Hf in Hf'. inversion Hf'; subst f'. clear Hf'. split.
  - unfold tag_calls.
    apply in_or_app. right. apply in_or_app. right. apply in_or_app. left.
    simpl. tauto.
  - intros Hb. destruct (price f) as [s|s| |s m' e]; try discriminate.
    + destruct (two_decimals_shape 0) as [a [b Hab]]. exists a, b. exact Hab.
    + simpl in Hb. apply negb_true_iff in Hb.
      destruct (two_decimals_shape (hundredths m' e)) as [a [b [E Hab]]].
      exists a, b. split; [|exact Hab].
      cbn [toFixed2 sign_text]. rewrite Hb, E. now destruct s.
Qed.

Lemma price_line_is_drawn_at_the_cursor_witness :
  exists f,
    extract plain = Ok f
    /\ In (text (VStr ("$" ++ toFixed2 (price f))) (of_Z 30) (of_Z 175)
             (boxed 134 "center")) (page plain)
    /\ (below_1e21 (price f) = true ->
        exists a b,
          toFixed2 (price f) = sign_text (price f) ++ a ++ String "." b
          /\ a <> "" /\ all_digits a = true /\ all_digits b = true
          /\ String.length b = 2).
Proof.
  eexists. split; [vm_compute; reflexivity|].
  apply (price_line_is_drawn_at_the_cursor (L := pdfkit) plain VUndefined
           (page plain)).
  - vm_compute. reflexivity.
  - vm_compute. reflexivity.
Defined.

End RenderFacts.


(* ===================================================================== *)
(** * The includes list: matching, splitting, trimming *)
(* ===================================================================== *)

Section IncludesFacts.

Import Num JS Server Batch Tag Examples Code.

Local Open Scope string_scope.
Local Open Scope nat_scope.

(** *** Trimming *)

Lemma trimStart_no_leading_space (s : string) :
  starts_with_space (Str.trimStart s) = false.
Proof.
  induction s as [|c s IH]; [reflexivity|].
  cbn [Str.trimStart]. destruct (Str.is_space c) eqn:E; [exact IH|].
  cbn [starts_with_space]. exact E.
Qed.

Lemma trimEnd_keeps_start (s : string) :
  starts_with_space s = false -> starts_with_space (Str.trimEnd s) = false.
Proof.
  destruct s as [|c s]; [reflexivity|]. cbn [starts_with_space]. intros E.
  cbn [Str.trimEnd]. destruct (Str.trimEnd s); [rewrite E|]; exact E.
Qed.

Lemma trimEnd_no_trailing_space (s : string) :
  ends_with_space (Str.trimEnd s) = false.
Proof.
  induction s as [|c s IH]; [reflexivity|].
  cbn [Str.trimEnd]. destruct (Str.trimEnd s) as [|d r] eqn:E.
  - destruct (Str.is_space c) eqn:Ec; [reflexivity|].
    cbn [ends_with_space]. exact Ec.
  - cbn [ends_with_space] in *. exact IH.
Qed.

Lemma trimStart_chars (p : ascii -> bool) (s : string) :
  has_char p s = false -> has_char p (Str.trimStart s) = false.
Proof.
  induction s as [|c s IH]; [reflexivity|].
  cbn [has_char Str.trimStart]. intros H. apply orb_false_elim in H.
  destruct H as [Hc Hs]. destruct (Str.is_space c); [now apply IH|].
  cbn [has_char]. now rewrite Hc, Hs.
Qed.

Lemma trimEnd_chars (p : ascii -> bool) (s : string) :
  has_char p s = false -> has_char p (Str.trimEnd s) = false.
Proof.
  induction s as [|c s IH]; [reflexivity|].
  cbn [has_char Str.trimEnd]. intros H. apply orb_false_elim in H.
  destruct H as [Hc Hs]. specialize (IH Hs).
  destruct (Str.trimEnd s) as [|d r].
  - destruct (Str.is_space c); [reflexivity|].
    cbn [has_char]. now rewrite Hc.
  - cbn [has_char] in *. now rewrite Hc, IH.
Qed.

Lemma trim_facts (p : ascii -> bool) (s : string) :
  starts_with_space (Str.trim s) = false
  /\ ends_with_space (Str.trim s) = false
  /\ (has_char p s = false -> has_char p (Str.trim s) = false).
Proof.
  unfold Str.trim. repeat split.
  - apply trimEnd_keeps_start, trimStart_no_leading_space.
  - apply trimEnd_no_trailing_space.
  - intros H. now apply trimEnd_chars, trimStart_chars.
Qed.

(** *** Pieces and items *)

Lemma has_char_append (p : ascii -> bool) (s t : string) :
  has_char p (s ++ t) = has_char p s || has_char p t.
Proof.
  induction s as [|c s IH]; [reflexivity|].
  cbn [append has_char]. now rewrite IH, orb_assoc.
Qed.

(** No piece of a split has a comma or a semicolon. *)
Lemma split_from_pieces (s : string) :
  forall skip acc piece,
    has_char comma_or_semicolon acc = false ->
    In piece (Regex.split_from re_separator skip acc s) ->
    has_char comma_or_semicolon piece = false.
Proof.
  induction s as [|c s IH]; intros skip acc piece Hacc Hin.
  - cbn [Regex.split_from] in Hin. destruct Hin as [<-|[]]. exact Hacc.
  - cbn [Regex.split_from] in Hin. destruct skip as [|n].
    + destruct (Regex.match_here re_separator (String c s))
        as [[rest cap]|] eqn:E.
      * pose proof (separator_consumes _ _ _ _ E) as L.
        destruct (String.length (String c s) - String.length rest) as [|n]
          eqn:En; [cbn [String.length] in En; lia|].
        destruct Hin as [<-|Hin]; [exact Hacc|].
        now apply (IH n "" piece).
      * apply (IH 0 (acc ++ String c "") piece); [|exact Hin].
        rewrite has_char_append, Hacc. cbn [has_char].
        now rewrite (separator_none _ _ E).
    + now apply (IH n acc piece).
Qed.

Lemma split_pieces (t piece : string) :
  In piece (Regex.split re_separator t) ->
  has_char comma_or_semicolon piece = false.
Proof.
  rewrite split_is_split_from. now apply split_from_pieces.
Qed.

Lemma in_firstn {A : Type} (n : nat) :
  forall (l : list A) (x : A), In x (firstn n l) -> In x l.
Proof.
  induction n as [|n IH]; intros [|a l] x H; simpl in *; try contradiction.
  destruct H as [H|H]; [now left|right; now apply IH].
Qed.

(** X14.  Every include item is a usable line: it is not empty, has no
    white space at either end, and has no comma or semicolon in it; and
    there are never more than four items. *)
Theorem include_items_are_clean (t item : string) :
  In item (includeItems t) ->
  item <> ""
  /\ starts_with_space item = false
  /\ ends_with_space item = false
  /\ has_char comma_or_semicolon item = false
  /\ List.length (includeItems t) <= 4.
Proof.
  intros Hin. unfold includeItems in Hin. apply in_firstn in Hin.
  apply filter_In in Hin. destruct Hin as [Hmap Hlen].
  apply in_map_iff in Hmap. destruct Hmap as [piece [<- Hpiece]].
  destruct (trim_facts comma_or_semicolon piece) as [H1 [H2 H3]].
  repeat split; auto.
  - intros E. rewrite E in Hlen. discriminate.
  - apply H3. now apply (split_pieces t).
  - apply length_includeItems.
Qed.

Lemma include_items_are_clean_witness :
  "Case" <> ""
  /\ starts_with_space "Case" = false
  /\ ends_with_space "Case" = false
  /\ has_char comma_or_semicolon "Case" = false
  /\ List.length (includeItems " Bolt ,; Case and Manual") <= 4.
Proof.
  apply (include_items_are_clean " Bolt ,; Case and Manual" "Case").
  vm_compute. tauto.
Defined.

(** *** The marker *)

Lemma exec_no_marker (b : string) :
  Str.includes_ci b "INCLUDES" = false -> Regex.exec re_includes b = None.
Proof.
  induction b as [|c b IH]; intros H.
  - reflexivity.
  - change (Str.includes_ci (String c b) "INCLUDES")
      with (Str.startsWith_ci (String c b) "INCLUDES"
            || Str.includes_ci b "INCLUDES") in H.
    apply orb_false_elim in H. destruct H as [Hhere Hrest].
    rewrite exec_unfold.
    assert (Hno : Regex.match_here re_includes (String c b) = None)
      by (unfold Regex.match_here, re_includes; now apply run_word_mismatch).
    rewrite Hno. now apply IH.
Qed.

(** X15.  A description without the word INCLUDES (in any letter case)
    gives no includes text, and the document then has no includes
    section: no header and no bullet line. *)
Theorem no_marker_no_includes_section {L : PDFKit}
    (p o : value) (doc : document) (f : fields) (b : string) :
  generateHangTagPDF p o = Ok doc ->
  extract p = Ok f ->
  bodyHtml_of p = Ok (VStr b) ->
  Str.includes_ci b "INCLUDES" = false ->
  includesText f = ""
  /\ bullets doc = []
  /\ existsb is_includes_header doc = false.
Proof.
  intros H Hf Hb Hno.
  destruct (extract_ok _ _ Hf) as [_ [_ [_ [_ [_ [_ Hbody]]]]]].
  destruct Hbody as [body [m [Hb' [Hm Ht]]]].
  rewrite Hb in Hb'. assert (E : body = VStr b) by congruence. subst body.
  unfold match_ in Hm. rewrite exec_no_marker in Hm by exact Hno.
  assert (Em : m = None) by congruence. subst m.
  cbn [includes_text] in Ht. split; [exact Ht|].
  destruct (generate_ok _ _ _ H) as [f' [vu [m [ts [ps Hd]]]]].
  destruct Hd as [_ [_ [_ [_ [_ [_ ->]]]]]].
  apply tag_has_no_includes_section.
Qed.

Lemma no_marker_no_includes_section_witness :
  exists f,
    extract (with_body "<p>Kit with case</p>") = Ok f
    /\ includesText f = ""
    /\ bullets (page (with_body "<p>Kit with case</p>")) = []
    /\ existsb is_includes_header (page (with_body "<p>Kit with case</p>"))
       = false.
Proof.
  eexists. split; [vm_compute; reflexivity|].
  apply (no_marker_no_includes_section (L := pdfkit)
           (with_body "<p>Kit with case</p>") VUndefined (page (with_body "<p>Kit with case</p>")) _
           "<p>Kit with case</p>").
  - vm_compute. reflexivity.
  - vm_compute. reflexivity.
  - reflexivity.
  - reflexivity.
Defined.

(** *** The captured text *)

Lemma exec_from_match_here (r : Regex.regex) (s : string)
    (cap : option string) :
  Regex.exec r s = Some cap ->
  exists t rest, Regex.match_here r t = Some (rest, cap).
Proof.
  induction s as [|c s IH]; rewrite exec_unfold; intros H.
  - destruct (Regex.match_here r "") as [[rest cap']|] eqn:E;
      [|discriminate].
    inversion H; subst. eauto.
  - destruct (Regex.match_here r (String c s)) as [[rest cap']|] eqn:E.
    + inversion H; subst. eauto.
    + now apply IH.
Qed.

Lemma run_cat_no_group {A : Type} (r1 r2 : Regex.regex) (s : string)
    (cap : option string) (k : string -> option string -> option A) (x : A) :
  no_group r1 = true ->
  Regex.run (Regex.Cat r1 r2) s cap k = Some x ->
  exists s1, Regex.run r2 s1 cap k = Some x.
Proof.
  intros G H. cbn [Regex.run] in H. apply run_from_k in H.
  destruct H as [s1 [c1 [H [_ Hc]]]]. rewrite (Hc G) in H. eauto.
Qed.

(** X16.  Whenever the includes pattern matches, its group has captured a
    text: [includesMatch[1]] is a String, so the [replace] and [trim] of
    line 98 are never called on [undefined]. *)
Theorem includes_match_always_captures (s : string) :
  Regex.exec re_includes s <> Some None.
Proof.
  intros H. apply exec_from_match_here in H. destruct H as [t [rest H]].
  unfold Regex.match_here, re_includes in H. cbn [Regex.word] in H.
  do 11 (apply run_cat_no_group in H; [|reflexivity]; destruct H as [? H]).
  cbn [Regex.run] in H. apply star_lazy_from_k in H.
  destruct H as [s1 [H _]].
  destruct (Regex.run re_any_tag s1 _ _) as [y|] eqn:E.
  - apply run_from_k in E. destruct E as [s2 [c2 [E [_ Hc]]]].
    rewrite (Hc eq_refl) in E. congruence.
  - destruct s1; discriminate H.
Qed.

End IncludesFacts.

